(** * SlidingWindowPlaneExtractor: a shallow embedding and its properties

    Embedding of
    [convex_plane_decomposition/src/sliding_window_plane_extraction/SlidingWindowPlaneExtractor.cpp].

    - A C++ [double] is a binary64 float ([PrimFloat.float]); the [float]
      heights of the elevation layer are carried as the doubles they convert
      to (the conversion is exact and keeps [std::isfinite]).
    - An [int] is a [Z]; the source never leaves the [int] range on the
      label counter unless a raster has more than [INT_MAX] planes, where
      C++ gives no meaning to [++highestLabel].
    - The collaborators of the file (Eigen's eigen solver, [std::acos],
      OpenCV's erosion and connected components, the RANSAC plane detector,
      the orientation utility) are the fields of the class [External];
      a grid map carries its own [getPosition] and [getIndex]. *)

From Stdlib Require Import ZArith List Lia Bool Floats.
From Stdlib Require Import Permutation.
Import ListNotations.

Set Implicit Arguments.

Definition double := float.

(** Conversion of an [int] (or [size_t]) to [double]. *)
Definition Z2double (z : Z) : double :=
  match z with
  | Z0 => 0%float
  | Zpos _ => of_uint63 (Uint63.of_Z z)
  | Zneg p => (- of_uint63 (Uint63.of_Z (Zpos p)))%float
  end.

(** [std::isfinite]. *)
Definition isfinite (x : double) : bool := is_finite x.

(** The literals of the source, as the binary64 values they denote. *)
Definition d_1e30 : double := 0x1.93e5939a08ceap+99%float.   (* 1e30 *)
Definition d_1e_8 : double := 0x1.5798ee2308c3ap-27%float.   (* 1e-8 *)
Definition M_PI : double := 0x1.921fb54442d18p+1%float.
Definition d_180 : double := 180%float.

(** [0 .. n-1] as the values of an [int] loop counter. *)
Definition range (n : Z) : list Z := map Z.of_nat (seq 0 (Z.to_nat n)).

(** ** Eigen vectors and matrices *)

Module Eigen.

Local Open Scope float_scope.

Record Vector2d := mkVector2d { x2 : double; y2 : double }.

Record Vector3d := mkVector3d { x : double; y : double; z : double }.

(** A 3x3 matrix by its rows. *)
Record Matrix3d := mkMatrix3d { row0 : Vector3d; row1 : Vector3d; row2 : Vector3d }.

Definition Zero3 : Vector3d := mkVector3d 0 0 0.
Definition UnitZ : Vector3d := mkVector3d 0 0 1.
Definition ZeroM : Matrix3d := mkMatrix3d Zero3 Zero3 Zero3.

Definition vadd (a b : Vector3d) : Vector3d :=
  mkVector3d (x a + x b) (y a + y b) (z a + z b).
Definition vsub (a b : Vector3d) : Vector3d :=
  mkVector3d (x a - x b) (y a - y b) (z a - z b).
Definition vneg (a : Vector3d) : Vector3d :=
  mkVector3d (- x a) (- y a) (- z a).
Definition vscale (s : double) (a : Vector3d) : Vector3d :=
  mkVector3d (s * x a) (s * y a) (s * z a).
Definition vdiv (a : Vector3d) (s : double) : Vector3d :=
  mkVector3d (x a / s) (y a / s) (z a / s).
Definition dot (a b : Vector3d) : double :=
  (x a * x b + y a * y b + z a * z b)%float.

(** [a.squaredNorm()] *)
Definition squaredNorm (a : Vector3d) : double := dot a a.

(** [a * b.transpose()] *)
Definition outer (a b : Vector3d) : Matrix3d :=
  mkMatrix3d (vscale (x a) b) (vscale (y a) b) (vscale (z a) b).
Definition madd (m n : Matrix3d) : Matrix3d :=
  mkMatrix3d (vadd (row0 m) (row0 n)) (vadd (row1 m) (row1 n)) (vadd (row2 m) (row2 n)).
Definition msub (m n : Matrix3d) : Matrix3d :=
  mkMatrix3d (vsub (row0 m) (row0 n)) (vsub (row1 m) (row1 n)) (vsub (row2 m) (row2 n)).
Definition mdiv (m : Matrix3d) (s : double) : Matrix3d :=
  mkMatrix3d (vdiv (row0 m) s) (vdiv (row1 m) s) (vdiv (row2 m) s).
(** [m.col(0)] *)
Definition col0 (m : Matrix3d) : Vector3d :=
  mkVector3d (x (row0 m)) (x (row1 m)) (x (row2 m)).

(** What [SelfAdjointEigenSolver] holds after [computeDirect]:
    [eigenvalues()] in increasing order and [eigenvectors()], one per column. *)
Record SelfAdjointEigenSolver := mkSolver {
  eigenvalues : Vector3d;
  eigenvectors : Matrix3d
}.

End Eigen.
Import Eigen.

(** ** OpenCV matrices

    A [cv::Mat] with its [rows], [cols] and [at<T>(row, col)].  The cells of
    the matrix are [0 <= row < rows], [0 <= col < cols]; an access outside
    them has no defined behaviour in the source. *)

Module cv.

Record Mat (A : Type) := mkMat { rows : Z; cols : Z; at_ : Z -> Z -> A }.

Definition set_at {A} (m : Mat A) (r c : Z) (v : A) : Mat A :=
  mkMat (rows m) (cols m)
        (fun r' c' => if (r' =? r)%Z && (c' =? c)%Z then v else at_ m r' c').

Definition inside {A} (m : Mat A) (r c : Z) : Prop :=
  (0 <= r < rows m)%Z /\ (0 <= c < cols m)%Z.

End cv.

(** ** Grid map (grid_map_core)

    The elevation layer of the map, its size, its resolution, and the two
    conversions between an index and the position of the cell's centre
    ([getIndex] also returns whether the position lies in the map; the source
    does not look at it). *)

Definition Index := (Z * Z)%type.

Record GridMap := mkGridMap {
  getSize : Z * Z;
  getResolution : double;
  getPosition : Index -> Vector2d;
  getIndex : Vector2d -> Index;
  elevationData : Z -> Z -> double
}.

(** ** RANSAC plane detector (ransac_plane_extractor) *)

Definition PointWithNormal := (Vector3d * Vector3d)%type.

(** [detectPlanes] reorders the points in place; every detected plane gives
    the indices of its points in the reordered vector. *)
Record RansacPlaneExtractor := mkRansac {
  reorderedPoints : list PointWithNormal;
  getDetectedPlanes : list (list nat);
  getUnassignedPointIndices : list nat
}.

(** ** Result types and parameters *)

Record TerrainPlane := mkTerrainPlane {
  positionInWorld : Vector3d;
  orientationWorldToTerrain : Matrix3d
}.

Record SegmentedPlanesMap := mkSegmentedPlanesMap {
  labelPlaneParameters : list (Z * TerrainPlane);
  labeledImage : cv.Mat Z;
  resolution : double;
  mapOrigin : Vector2d;
  highestLabel : Z
}.

Record SlidingWindowPlaneExtractorParameters := mkParameters {
  kernel_size : Z;
  planarity_erosion : Z;
  plane_inclination_threshold_degrees : double;
  plane_patch_error_threshold : double;
  min_number_points_per_label : Z;
  connectivity : Z;
  include_ransac_refinement : bool;
  global_plane_fit_distance_error_threshold : double;
  global_plane_fit_angle_error_threshold_degrees : double
}.

(** ** [std::vector<Eigen::Vector3d>]

    The buffer [surfaceNormals_] is declared in the header of the class; this
    file uses it through [size], [reserve], [begin] and [operator[]], the
    interface of a [std::vector].  The model keeps the size of the vector
    apart from its allocated storage (whose length is the capacity), since
    [reserve] changes the second only, and [operator[]] and [std::fill_n] go
    to the storage without a check.  An access past the capacity has no
    defined behaviour in the source; the model leaves a write there without
    effect and reads (0,0,0). *)

Module StdVector.

Record t := mk { size : nat; storage : list Vector3d }.

Definition empty : t := mk 0 [].

Definition capacity (v : t) : nat := length (storage v).

(** [reserve(n)]: when [n] exceeds the capacity the storage is reallocated
    with room for [n] elements and the [size] elements are moved; the rest
    of the new storage is not initialised ([fresh]). *)
Definition reserve (fresh : Vector3d) (n : nat) (v : t) : t :=
  if capacity v <? n
  then mk (size v) (firstn (size v) (storage v) ++ repeat fresh (n - size v))
  else v.

(** [std::fill_n(v.begin(), n, value)] *)
Definition fill_n (n : nat) (value : Vector3d) (v : t) : t :=
  mk (size v) (repeat value (min n (capacity v)) ++ skipn n (storage v)).

Fixpoint update (l : list Vector3d) (i : nat) (value : Vector3d) : list Vector3d :=
  match l, i with
  | [], _ => []
  | _ :: l', O => value :: l'
  | a :: l', S i' => a :: update l' i' value
  end.

(** [v[i] = value] *)
Definition set (v : t) (i : nat) (value : Vector3d) : t :=
  mk (size v) (update (storage v) i value).

(** [v[i]] *)
Definition get (v : t) (i : nat) : Vector3d := nth i (storage v) Zero3.

End StdVector.

(** ** The collaborators *)

Class External := {
  (** [Eigen::SelfAdjointEigenSolver<Matrix3d>::computeDirect] *)
  computeDirect : Matrix3d -> SelfAdjointEigenSolver;
  (** [std::acos] *)
  acos : double -> double;
  (** [cv::erode] with the [MORPH_CROSS] element of the given size *)
  erode : cv.Mat bool -> Z -> cv.Mat bool;
  (** [cv::connectedComponents]: the number of labels and the labeled image *)
  connectedComponents : cv.Mat bool -> Z -> Z * cv.Mat Z;
  (** [RansacPlaneExtractor::detectPlanes], with the extractor's parameters
      and the seed the source fixes before every call *)
  detectPlanes : list PointWithNormal -> RansacPlaneExtractor;
  (** [switched_model::orientationWorldToTerrainFromSurfaceNormalInWorld] *)
  orientationWorldToTerrainFromSurfaceNormalInWorld : Vector3d -> Matrix3d;
  (** [getLinearIndex], defined in the header of the class and not in this
      file: the slot of a cell in [surfaceNormals_] *)
  getLinearIndex : GridMap -> Z -> Z -> nat;
  (** the content of storage that was allocated and never written *)
  uninitialized : Vector3d
}.

(** ** The extractor *)

Record SlidingWindowPlaneExtractor := mkExtractor {
  parameters_ : SlidingWindowPlaneExtractorParameters;
  map_ : GridMap;
  segmentedPlanesMap_ : SegmentedPlanesMap;
  binaryImagePatch_ : cv.Mat bool;
  surfaceNormals_ : StdVector.t
}.

Definition with_segmentedPlanesMap (e : SlidingWindowPlaneExtractor) (s : SegmentedPlanesMap) :=
  mkExtractor (parameters_ e) (map_ e) s (binaryImagePatch_ e) (surfaceNormals_ e).

Definition with_binaryImagePatch (e : SlidingWindowPlaneExtractor) (b : cv.Mat bool) :=
  mkExtractor (parameters_ e) (map_ e) (segmentedPlanesMap_ e) b (surfaceNormals_ e).

Definition with_surfaceNormals (e : SlidingWindowPlaneExtractor) (v : StdVector.t) :=
  mkExtractor (parameters_ e) (map_ e) (segmentedPlanesMap_ e) (binaryImagePatch_ e) v.

Definition with_labeledImage (s : SegmentedPlanesMap) (img : cv.Mat Z) :=
  mkSegmentedPlanesMap (labelPlaneParameters s) img (resolution s) (mapOrigin s) (highestLabel s).

Definition with_highestLabel (s : SegmentedPlanesMap) (h : Z) :=
  mkSegmentedPlanesMap (labelPlaneParameters s) (labeledImage s) (resolution s) (mapOrigin s) h.

Definition emplace_back (s : SegmentedPlanesMap) (entry : Z * TerrainPlane) :=
  mkSegmentedPlanesMap (labelPlaneParameters s ++ [entry]) (labeledImage s)
                       (resolution s) (mapOrigin s) (highestLabel s).

Section Extractor.

Context {ext : External}.

Local Open Scope float_scope.

(** Lines 20-28. *)
Definition angleBetweenNormalizedVectorsInDegrees (v1 v2 : Vector3d) : double :=
  let cos_rad := dot v1 v2 in
  let cos_rad :=
    if cos_rad <? -1 then -1
    else if 1 <? cos_rad then 1
    else cos_rad in
  abs (acos cos_rad * d_180 / M_PI).

(** Line 32. *)
Definition covarianceMatrix (numPoint : Z) (mean : Vector3d) (sumSquared : Matrix3d) : Matrix3d :=
  msub (mdiv sumSquared (Z2double numPoint)) (outer mean mean).

(** Lines 30-52. *)
Definition normalAndErrorFromCovariance (numPoint : Z) (mean : Vector3d) (sumSquared : Matrix3d)
  : Vector3d * double :=
  let solver := computeDirect (covarianceMatrix numPoint mean sumSquared) in
  if d_1e_8 <? y (eigenvalues solver) then
    let unitaryNormalVector := col0 (eigenvectors solver) in
    let unitaryNormalVector :=
      if z unitaryNormalVector <? 0 then vneg unitaryNormalVector
      else unitaryNormalVector in
    let rmsError :=
      if 0 <? x (eigenvalues solver) then sqrt (x (eigenvalues solver)) else 0 in
    (unitaryNormalVector, rmsError)
  else (UnitZ, d_1e30).


(** One more point in the running count, sum and sum of outer products
    (lines 98-100 and 185-187, 239-240). *)
Definition accumulate (acc : Z * Vector3d * Matrix3d) (point : Vector3d)
  : Z * Vector3d * Matrix3d :=
  let '(n, sum, sumSquared) := acc in
  ((n + 1)%Z, vadd sum point, madd sumSquared (outer point point)).

(** The loop of lines 87-102: count, sum and sum of outer products of the
    finite heights of the window. *)
Definition gatherWindow (e : SlidingWindowPlaneExtractor) (windowData : Z -> Z -> double)
  : Z * Vector3d * Matrix3d :=
  fold_left
    (fun acc kernel_col =>
       fold_left
         (fun acc kernel_row =>
            let height := windowData kernel_row kernel_col in
            if negb (isfinite height) then acc
            else
              let point :=
                mkVector3d (Z2double (- kernel_row) * resolution (segmentedPlanesMap_ e))
                           (Z2double (- kernel_col) * resolution (segmentedPlanesMap_ e))
                           height in
              accumulate acc point)
         (range (kernel_size (parameters_ e))) acc)
    (range (kernel_size (parameters_ e)))
    (0%Z, Zero3, ZeroM).

(** Lines 85-111. *)
Definition computeNormalAndErrorForWindow (e : SlidingWindowPlaneExtractor)
           (windowData : Z -> Z -> double) : Vector3d * double :=
  let '(nPoints, sum, sumSquared) := gatherWindow e windowData in
  if (nPoints <? 3)%Z then (UnitZ, d_1e30)
  else
    let mean := vdiv sum (Z2double nPoints) in
    normalAndErrorFromCovariance nPoints mean sumSquared.

(** Lines 113-116. *)
Definition isLocallyPlanar (e : SlidingWindowPlaneExtractor) (localNormal : Vector3d)
           (meanError : double) : bool :=
  (meanError <? plane_patch_error_threshold (parameters_ e))
  && (angleBetweenNormalizedVectorsInDegrees localNormal UnitZ
      <? plane_inclination_threshold_degrees (parameters_ e)).

(** Lines 67-77 of [runExtraction]: everything before the three stages. *)
Definition initialize (map : GridMap) (e : SlidingWindowPlaneExtractor)
  : SlidingWindowPlaneExtractor :=
  let mapSize := getSize map in
  let linearMapSize := (fst mapSize * snd mapSize)%Z in
  mkExtractor
    (parameters_ e)
    map
    (mkSegmentedPlanesMap [] (labeledImage (segmentedPlanesMap_ e))
                          (getResolution map) (getPosition map (0, 0)%Z) (-1)%Z)
    (cv.mkMat (fst mapSize) (snd mapSize) (fun _ _ => false))
    (if (Z.of_nat (StdVector.size (surfaceNormals_ e)) <? linearMapSize)%Z
     then StdVector.fill_n (Z.to_nat linearMapSize) Zero3
            (StdVector.reserve uninitialized (Z.to_nat linearMapSize) (surfaceNormals_ e))
     else surfaceNormals_ e).

End Extractor.

(** ** [grid_map::SlidingWindowIterator], [EdgeHandling::INSIDE]

    The iterator walks the indices of the map in the order of the linear
    index of the (column-major) data.  The source asks for the edge handling
    [INSIDE] (line 119), which grid_map_core documents as "only visit
    indices that are surrounded by a full window": the iterator stops only at
    the indices whose whole window lies inside the map, and [getData] is then
    the [windowSize x windowSize] block centred on the index (the block the
    loops of lines 90-91 and the [kernelMiddle] of line 126 index). *)

Module SlidingWindowIterator.

Definition windowMargin (windowSize : Z) : Z := Z.quot (windowSize - 1) 2.

Definition checkIfIndexInRange (index : Index) (size : Z * Z) : bool :=
  ((0 <=? fst index) && (0 <=? snd index)
   && (fst index <? fst size) && (snd index <? snd size))%Z.

Definition dataInsideMap (map : GridMap) (windowSize : Z) (index : Index) : bool :=
  let m := windowMargin windowSize in
  checkIfIndexInRange (fst index - m, snd index - m)%Z (getSize map)
  && checkIfIndexInRange (fst index + m, snd index + m)%Z (getSize map).

Definition allIndices (map : GridMap) : list Index :=
  flat_map (fun col => List.map (fun row => (row, col)) (range (fst (getSize map))))
           (range (snd (getSize map))).

(** The indices the iterator stops at, in order. *)
Definition indices (map : GridMap) (windowSize : Z) : list Index :=
  filter (dataInsideMap map windowSize) (allIndices map).

Definition getData (map : GridMap) (windowSize : Z) (index : Index) : Z -> Z -> double :=
  let m := windowMargin windowSize in
  fun row col => elevationData map (fst index - m + row)%Z (snd index - m + col)%Z.

End SlidingWindowIterator.

Section Pipeline.

Context {ext : External}.

Local Open Scope float_scope.

(** The body of the loop of lines 123-138, at one index of the iterator. *)
Definition detectAt (e : SlidingWindowPlaneExtractor) (index : Index)
  : SlidingWindowPlaneExtractor :=
  let kernelMiddle := Z.quot (kernel_size (parameters_ e) - 1) 2 in
  let window_data := SlidingWindowIterator.getData (map_ e) (kernel_size (parameters_ e)) index in
  let middleValue := window_data kernelMiddle kernelMiddle in
  if negb (isfinite middleValue) then
    with_binaryImagePatch e (cv.set_at (binaryImagePatch_ e) (fst index) (snd index) false)
  else
    let '(n, mean_error) := computeNormalAndErrorForWindow e window_data in
    let e1 :=
      with_surfaceNormals e
        (StdVector.set (surfaceNormals_ e)
                       (getLinearIndex (map_ e) (fst index) (snd index)) n) in
    with_binaryImagePatch e1
      (cv.set_at (binaryImagePatch_ e1) (fst index) (snd index)
                 (isLocallyPlanar e1 n mean_error)).

(** The loop of lines 123-138. *)
Definition slidingWindowScan (e : SlidingWindowPlaneExtractor) : SlidingWindowPlaneExtractor :=
  fold_left detectAt
            (SlidingWindowIterator.indices (map_ e) (kernel_size (parameters_ e))) e.

(** Lines 118-147. *)
Definition runSlidingWindowDetector (e : SlidingWindowPlaneExtractor)
  : SlidingWindowPlaneExtractor :=
  let e := slidingWindowScan e in
  if (0 <? planarity_erosion (parameters_ e))%Z then
    let erosionSize := (2 * planarity_erosion (parameters_ e) + 1)%Z in
    with_binaryImagePatch e (erode (binaryImagePatch_ e) erosionSize)
  else e.

(** Lines 150-153. *)
Definition runSegmentation (e : SlidingWindowPlaneExtractor) : SlidingWindowPlaneExtractor :=
  let '(numberOfLabel, labeled) :=
    connectedComponents (binaryImagePatch_ e) (connectivity (parameters_ e)) in
  with_segmentedPlanesMap e
    (with_highestLabel (with_labeledImage (segmentedPlanesMap_ e) labeled)
                       (numberOfLabel - 1)%Z).

(** Lines 272-291. *)
Fixpoint isGloballyPlanar (e : SlidingWindowPlaneExtractor)
         (normalVectorPlane supportVectorPlane : Vector3d)
         (pointsWithNormal : list PointWithNormal) : bool :=
  match pointsWithNormal with
  | [] => true
  | pointWithNormal :: rest =>
    let normalDotSupportvector := dot normalVectorPlane supportVectorPlane in
    let normalDotPoint :=
      x normalVectorPlane * x (fst pointWithNormal)
      + y normalVectorPlane * y (fst pointWithNormal)
      + z normalVectorPlane * z (fst pointWithNormal) in
    let distanceError := abs (normalDotPoint - normalDotSupportvector) in
    if global_plane_fit_distance_error_threshold (parameters_ e) <? distanceError then false
    else
      let angleError :=
        angleBetweenNormalizedVectorsInDegrees (snd pointWithNormal) normalVectorPlane in
      if global_plane_fit_angle_error_threshold_degrees (parameters_ e) <? angleError
      then false
      else isGloballyPlanar e normalVectorPlane supportVectorPlane rest
  end.


(** The cell of the map a point lies in, by its world coordinates
    ([map_->getIndex], lines 245-246 and 266-267). *)
Definition cellOf (e : SlidingWindowPlaneExtractor) (point : Vector3d) : Index :=
  getIndex (map_ e) (mkVector2d (x point) (y point)).

(** [labeledImage.at<int>(map_indices(0), map_indices(1)) = newLabel]
    for the cell of [point] (lines 245-247 and 266-268). *)
Definition relabel (e : SlidingWindowPlaneExtractor) (point : Vector3d) (newLabel : Z)
  : SlidingWindowPlaneExtractor :=
  let map_indices := cellOf e point in
  with_segmentedPlanesMap e
    (with_labeledImage (segmentedPlanesMap_ e)
       (cv.set_at (labeledImage (segmentedPlanesMap_ e))
                  (fst map_indices) (snd map_indices) newLabel)).

(** [pointsWithNormal[index]]; the source has no defined behaviour for an
    index past the end. *)
Definition pointAt (pointsWithNormal : list PointWithNormal) (index : nat) : PointWithNormal :=
  nth index pointsWithNormal (Zero3, Zero3).

(** Line 228: the label of the next plane and the counter after it. *)
Definition nextLabel (reuseLabel : bool) (label : Z) (e : SlidingWindowPlaneExtractor)
  : Z * SlidingWindowPlaneExtractor :=
  if reuseLabel then (label, e)
  else
    let h := (highestLabel (segmentedPlanesMap_ e) + 1)%Z in
    (h, with_segmentedPlanesMap e (with_highestLabel (segmentedPlanesMap_ e) h)).

(** The body of the loop of lines 235-249, for one claimed point. *)
Definition assignPoint (label newLabel : Z) (pointsWithNormal : list PointWithNormal)
           (acc : Vector3d * Matrix3d * SlidingWindowPlaneExtractor) (index : nat)
  : Vector3d * Matrix3d * SlidingWindowPlaneExtractor :=
  let '(sum, sumSquared, e) := acc in
  let point := fst (pointAt pointsWithNormal index) in
  (vadd sum point, madd sumSquared (outer point point),
   if negb (newLabel =? label)%Z then relabel e point newLabel else e).

(** Lines 251-258: the plane of the claimed points, emitted when it is not
    too steep. *)
Definition emitPlane (newLabel : Z) (numPoints : Z) (sum : Vector3d) (sumSquared : Matrix3d)
           (e : SlidingWindowPlaneExtractor) : SlidingWindowPlaneExtractor :=
  let supportVector := vdiv sum (Z2double numPoints) in
  let normalVector := fst (normalAndErrorFromCovariance numPoints supportVector sumSquared) in
  if angleBetweenNormalizedVectorsInDegrees normalVector UnitZ
     <? plane_inclination_threshold_degrees (parameters_ e)
  then
    let terrainOrientation := orientationWorldToTerrainFromSurfaceNormalInWorld normalVector in
    with_segmentedPlanesMap e
      (emplace_back (segmentedPlanesMap_ e)
                    (newLabel, mkTerrainPlane supportVector terrainOrientation))
  else e.

(** The body of the loop of lines 226-259, for one detected plane; the
    state of the loop is [reuseLabel] and the extractor. *)
Definition processPlane (label : Z) (pointsWithNormal : list PointWithNormal)
           (st : bool * SlidingWindowPlaneExtractor) (plane_point_indices : list nat)
  : bool * SlidingWindowPlaneExtractor :=
  let '(reuseLabel, e) := st in
  let '(newLabel, e) := nextLabel reuseLabel label e in
  let '(sum, sumSquared, e) :=
    fold_left (assignPoint label newLabel pointsWithNormal) plane_point_indices
              (Zero3, ZeroM, e) in
  (false, emitPlane newLabel (Z.of_nat (length plane_point_indices)) sum sumSquared e).

(** The loop of lines 261-269. *)
Definition resetUnassigned (pointsWithNormal : list PointWithNormal)
           (unassigned_points : list nat) (e : SlidingWindowPlaneExtractor)
  : SlidingWindowPlaneExtractor :=
  fold_left (fun e index => relabel e (fst (pointAt pointsWithNormal index)) 0%Z)
            unassigned_points e.

(** Lines 216-270. *)
Definition refineLabelWithRansac (label : Z) (pointsWithNormal : list PointWithNormal)
           (e : SlidingWindowPlaneExtractor) : SlidingWindowPlaneExtractor :=
  let ransac_plane_extractor := detectPlanes pointsWithNormal in
  let pointsWithNormal := reorderedPoints ransac_plane_extractor in
  let planes := getDetectedPlanes ransac_plane_extractor in
  let e := snd (fold_left (processPlane label pointsWithNormal) planes (true, e)) in
  resetUnassigned pointsWithNormal (getUnassignedPointIndices ransac_plane_extractor) e.

(** The world position of a cell as the source computes it (lines 182-183). *)
Definition point3dOf (e : SlidingWindowPlaneExtractor) (row col : Z) : Vector3d :=
  mkVector3d
    (x2 (mapOrigin (segmentedPlanesMap_ e)) - Z2double row * resolution (segmentedPlanesMap_ e))
    (y2 (mapOrigin (segmentedPlanesMap_ e)) - Z2double col * resolution (segmentedPlanesMap_ e))
    (elevationData (map_ e) row col).

(** The body of the loops of lines 177-196 at one cell. *)
Definition collectCell (label : Z) (e : SlidingWindowPlaneExtractor) (col : Z)
           (acc : Z * Vector3d * Matrix3d * list PointWithNormal) (row : Z)
  : Z * Vector3d * Matrix3d * list PointWithNormal :=
  if (cv.at_ (labeledImage (segmentedPlanesMap_ e)) row col =? label)%Z then
    let height := elevationData (map_ e) row col in
    if isfinite height then
      let point3d := point3dOf e row col in
      let localSurfaceNormal :=
        StdVector.get (surfaceNormals_ e) (getLinearIndex (map_ e) row col) in
      (accumulate (fst acc) point3d, snd acc ++ [(point3d, localSurfaceNormal)])
    else acc
  else acc.

(** The loops of lines 172-196. *)
Definition collectLabel (label : Z) (e : SlidingWindowPlaneExtractor)
  : Z * Vector3d * Matrix3d * list PointWithNormal :=
  fold_left
    (fun acc col =>
       fold_left (collectCell label e col)
                 (range (cv.rows (labeledImage (segmentedPlanesMap_ e)))) acc)
    (range (cv.cols (labeledImage (segmentedPlanesMap_ e))))
    ((0%Z, Zero3, ZeroM), []).

(** Lines 169-214. *)
Definition computePlaneParametersForLabel (label : Z) (e : SlidingWindowPlaneExtractor)
  : SlidingWindowPlaneExtractor :=
  let '(numPoints, sum, sumSquared, pointsWithNormal) := collectLabel label e in
  if (numPoints <? min_number_points_per_label (parameters_ e))%Z || (numPoints <? 3)%Z
  then e
  else
    let supportVector := vdiv sum (Z2double numPoints) in
    let normalVector := fst (normalAndErrorFromCovariance numPoints supportVector sumSquared) in
    (* line 206; lines 209-212 then do for the region what lines 255-258 do
       for a plane of the refinement, with the same support and normal *)
    if include_ransac_refinement (parameters_ e)
       && negb (isGloballyPlanar e normalVector supportVector pointsWithNormal)
    then refineLabelWithRansac label pointsWithNormal e
    else emitPlane label numPoints sum sumSquared e.

(** The labels [1 .. n] of the loop of line 164. *)
Definition labelsUpTo (n : Z) : list Z := List.map (fun i => (i + 1)%Z) (range n).

(** The loop of lines 164-166 over the given labels. *)
Definition processLabels (labels : list Z) (e : SlidingWindowPlaneExtractor)
  : SlidingWindowPlaneExtractor :=
  fold_left (fun e label => computePlaneParametersForLabel label e) labels e.

(** Lines 155-167. *)
Definition extractPlaneParametersFromLabeledImage (e : SlidingWindowPlaneExtractor)
  : SlidingWindowPlaneExtractor :=
  let numberOfExtractedPlanesWithoutRefinement := highestLabel (segmentedPlanesMap_ e) in
  processLabels (labelsUpTo numberOfExtractedPlanesWithoutRefinement) e.

(** Lines 60-83. *)
Definition runExtraction (map : GridMap) (e : SlidingWindowPlaneExtractor)
  : SlidingWindowPlaneExtractor :=
  extractPlaneParametersFromLabeledImage
    (runSegmentation (runSlidingWindowDetector (initialize map e))).

End Pipeline.

(** ** Notions the properties are stated with *)

Section Notions.

Context {ext : External}.

(** The number of samples of finite height in the window. *)
Definition finiteSamples (e : SlidingWindowPlaneExtractor) (windowData : Z -> Z -> double)
  : nat :=
  let k := range (kernel_size (parameters_ e)) in
  let samples := flat_map (fun col => List.map (fun row => (row, col)) k) k in
  length (filter (fun rc => isfinite (windowData (fst rc) (snd rc))) samples).

(** The loop over the window, cell by cell in the order of the source. *)
Definition gatherStep (e : SlidingWindowPlaneExtractor) (windowData : Z -> Z -> double)
           (acc : Z * Vector3d * Matrix3d) (rc : Z * Z) : Z * Vector3d * Matrix3d :=
  if negb (isfinite (windowData (fst rc) (snd rc))) then acc
  else
    accumulate acc
      (mkVector3d (Z2double (- fst rc) * resolution (segmentedPlanesMap_ e))%float
                  (Z2double (- snd rc) * resolution (segmentedPlanesMap_ e))%float
                  (windowData (fst rc) (snd rc))).

(** The covariance matrix of the finite samples of the window, the one
    [normalAndErrorFromCovariance] hands to the eigen solver. *)
Definition windowCovariance (e : SlidingWindowPlaneExtractor) (windowData : Z -> Z -> double)
  : Matrix3d :=
  let '(nPoints, sum, sumSquared) := gatherWindow e windowData in
  covarianceMatrix nPoints (vdiv sum (Z2double nPoints)) sumSquared.

(** The labels of the entries of [labelPlaneParameters]. *)
Definition emittedLabels (e : SlidingWindowPlaneExtractor) : list Z :=
  List.map fst (labelPlaneParameters (segmentedPlanesMap_ e)).

Definition labelAt (e : SlidingWindowPlaneExtractor) (row col : Z) : Z :=
  cv.at_ (labeledImage (segmentedPlanesMap_ e)) row col.

Definition currentHighestLabel (e : SlidingWindowPlaneExtractor) : Z :=
  highestLabel (segmentedPlanesMap_ e).

(** The state of the loop over the detected planes (lines 226-259) when it
    has gone through the first [j] planes. *)
Definition planeLoopState (label : Z) (pointsWithNormal : list PointWithNormal)
           (planes : list (list nat)) (e : SlidingWindowPlaneExtractor) (j : nat)
  : bool * SlidingWindowPlaneExtractor :=
  fold_left (processPlane label pointsWithNormal) (firstn j planes) (true, e).

(** The label line 228 gives to plane number [j] (from 0). *)
Definition newLabelOfPlane (label : Z) (pointsWithNormal : list PointWithNormal)
           (planes : list (list nat)) (e : SlidingWindowPlaneExtractor) (j : nat) : Z :=
  let st := planeLoopState label pointsWithNormal planes e j in
  fst (nextLabel (fst st) label (snd st)).

(** A cell of the map. *)
Definition cellOfMap (map : GridMap) (row col : Z) : Prop :=
  (0 <= row < fst (getSize map))%Z /\ (0 <= col < snd (getSize map))%Z.

(** Background stability: a cell of the map without a finite height has
    label 0. *)
Definition backgroundStable (e : SlidingWindowPlaneExtractor) : Prop :=
  forall row col,
    cellOfMap (map_ e) row col ->
    isfinite (elevationData (map_ e) row col) = false ->
    labelAt e row col = 0%Z.

(** A vector of length exactly 1. *)
Definition isUnitLength (v : Vector3d) : bool := (squaredNorm v =? 1)%float.

(** The sum and the sum of outer products of the points a plane claims
    (lines 233-240). *)
Definition sumsOfPlane (pointsWithNormal : list PointWithNormal)
           (plane_point_indices : list nat) : Vector3d * Matrix3d :=
  fold_left
    (fun acc index =>
       let point := fst (pointAt pointsWithNormal index) in
       (vadd (fst acc) point, madd (snd acc) (outer point point)))
    plane_point_indices (Zero3, ZeroM).

(** The normal fitted to [numPoints] points of the given sums, and whether
    it passes the inclination check of lines 209 and 255. *)
Definition fittedNormal (numPoints : Z) (sum : Vector3d) (sumSquared : Matrix3d) : Vector3d :=
  fst (normalAndErrorFromCovariance numPoints (vdiv sum (Z2double numPoints)) sumSquared).

Definition withinInclination (e : SlidingWindowPlaneExtractor) (normalVector : Vector3d) : bool :=
  (angleBetweenNormalizedVectorsInDegrees normalVector UnitZ
   <? plane_inclination_threshold_degrees (parameters_ e))%float.

Definition planeWithinInclination (e : SlidingWindowPlaneExtractor)
           (pointsWithNormal : list PointWithNormal) (plane_point_indices : list nat) : bool :=
  let '(sum, sumSquared) := sumsOfPlane pointsWithNormal plane_point_indices in
  withinInclination e (fittedNormal (Z.of_nat (length plane_point_indices)) sum sumSquared).

(** The region of a label: whether it has the points a plane needs
    (line 197), the plane of lines 202-203 and 210-211, whether that plane
    passes the inclination check, and whether the region fails the global
    planarity test. *)
Definition regionHasEnoughPoints (label : Z) (e : SlidingWindowPlaneExtractor) : bool :=
  let '(numPoints, _, _, _) := collectLabel label e in
  negb ((numPoints <? min_number_points_per_label (parameters_ e))%Z || (numPoints <? 3)%Z).

Definition regionNormal (label : Z) (e : SlidingWindowPlaneExtractor) : Vector3d :=
  let '(numPoints, sum, sumSquared, _) := collectLabel label e in
  fittedNormal numPoints sum sumSquared.

Definition regionSupport (label : Z) (e : SlidingWindowPlaneExtractor) : Vector3d :=
  let '(numPoints, sum, _, _) := collectLabel label e in
  vdiv sum (Z2double numPoints).

Definition regionPlane (label : Z) (e : SlidingWindowPlaneExtractor) : TerrainPlane :=
  mkTerrainPlane (regionSupport label e)
                 (orientationWorldToTerrainFromSurfaceNormalInWorld (regionNormal label e)).

Definition regionFailsGlobalPlanarity (label : Z) (e : SlidingWindowPlaneExtractor) : bool :=
  negb (isGloballyPlanar e (regionNormal label e) (regionSupport label e)
                         (snd (collectLabel label e))).

(** What the properties ask of the collaborators. *)

(** Erosion keeps the extent of the mask and only removes cells from it. *)
Definition erodeShrinks : Prop :=
  forall img erosionSize,
    (1 <= erosionSize)%Z ->
    cv.rows (erode img erosionSize) = cv.rows img
    /\ cv.cols (erode img erosionSize) = cv.cols img
    /\ forall row col,
        cv.inside img row col ->
        cv.at_ (erode img erosionSize) row col = true -> cv.at_ img row col = true.

(** The labeled image has the extent of the mask and label 0 in the cells
    where the mask is unset. *)
Definition componentsWithinMask : Prop :=
  forall img connectivity,
    cv.rows (snd (connectedComponents img connectivity)) = cv.rows img
    /\ cv.cols (snd (connectedComponents img connectivity)) = cv.cols img
    /\ forall row col,
        cv.inside img row col ->
        cv.at_ img row col = false ->
        cv.at_ (snd (connectedComponents img connectivity)) row col = 0%Z.

(** The detector hands back the points it was given, in some order, and
    indices into them. *)
Definition detectorKeepsPoints : Prop :=
  forall points,
    let r := detectPlanes points in
    (forall p, In p (reorderedPoints r) -> In p points)
    /\ (forall plane index,
           In plane (getDetectedPlanes r) -> In index plane ->
           (index < length (reorderedPoints r))%nat)
    /\ (forall index,
           In index (getUnassignedPointIndices r) ->
           (index < length (reorderedPoints r))%nat).

(** [getIndex] finds the cell whose position the source computes from the
    position of cell (0,0) and the resolution. *)
Definition indexOfPosition (map : GridMap) : Prop :=
  forall row col,
    cellOfMap map row col ->
    getIndex map
      (mkVector2d (x2 (getPosition map (0, 0)%Z) - Z2double row * getResolution map)%float
                  (y2 (getPosition map (0, 0)%Z) - Z2double col * getResolution map)%float)
    = (row, col).

(** [getLinearIndex] gives every cell of the map a slot of its own among
    the first [rows * cols]. *)
Definition linearIndexOfCells (map : GridMap) : Prop :=
  forall row col,
    cellOfMap map row col ->
    (Z.of_nat (getLinearIndex map row col) < fst (getSize map) * snd (getSize map))%Z
    /\ forall row' col',
        cellOfMap map row' col' ->
        getLinearIndex map row' col' = getLinearIndex map row col ->
        (row', col') = (row, col).

(** The window of a cell, and what the detector computes from it. *)
Definition windowOf (e : SlidingWindowPlaneExtractor) (index : Index) : Z -> Z -> double :=
  SlidingWindowIterator.getData (map_ e) (kernel_size (parameters_ e)) index.

(** The whole window of the cell lies inside the map. *)
Definition windowInsideMap (map : GridMap) (windowSize : Z) (row col : Z) : Prop :=
  let m := SlidingWindowIterator.windowMargin windowSize in
  (0 <= row - m < fst (getSize map) /\ 0 <= col - m < snd (getSize map)
   /\ 0 <= row + m < fst (getSize map) /\ 0 <= col + m < snd (getSize map))%Z.

(** The writes of one label into the raster, at the cells of the points of
    the given indices (the relabeling of lines 243-248 for one plane, and
    the loop of lines 262-269 with label 0). *)
Definition relabelPoints (pointsWithNormal : list PointWithNormal) (newLabel : Z)
           (indices : list nat) (e : SlidingWindowPlaneExtractor)
  : SlidingWindowPlaneExtractor :=
  fold_left (fun e index => relabel e (fst (pointAt pointsWithNormal index)) newLabel)
            indices e.

(** A strictly increasing list of labels above [h]. *)
Fixpoint increasingAbove (h : Z) (labels : list Z) : Prop :=
  match labels with
  | [] => True
  | a :: labels' => (h < a)%Z /\ increasingAbove a labels'
  end.

(** The invariant of the loop over the labels [1 .. n0], when the labels
    up to [k] are done: no label has two planes, every label of a plane is
    at least 1, and is an original label already visited or a label above
    every original one that the counter has reached. *)
Definition runInvariant (n0 k : Z) (e : SlidingWindowPlaneExtractor) : Prop :=
  NoDup (emittedLabels e)
  /\ (n0 <= currentHighestLabel e)%Z
  /\ Forall (fun l => (1 <= l)%Z /\ ((l <= k)%Z \/ (n0 < l <= currentHighestLabel e)%Z))
            (emittedLabels e).

(** Whether the index is among those of the list. *)
Definition visited (indices : list Index) (row col : Z) : bool :=
  existsb (fun index => ((fst index =? row) && (snd index =? col))%Z) indices.

(** The number of cells of the map. *)
Definition linearMapSize (map : GridMap) : Z := (fst (getSize map) * snd (getSize map))%Z.

(** A normal the detector writes: the "up" vector, or the first
    eigenvector of the covariance of the window of a cell the iterator
    stops at, as the solver returns it or negated. *)
Definition writtenNormal (e0 : SlidingWindowPlaneExtractor) (v : Vector3d) : Prop :=
  v = UnitZ
  \/ exists index,
      In index (SlidingWindowIterator.indices (map_ e0) (kernel_size (parameters_ e0)))
      /\ let n := col0 (eigenvectors (computeDirect (windowCovariance e0 (windowOf e0 index)))) in
         v = n \/ v = vneg n.

(** Two states of a run on the same map: same map and parameters, same
    origin and resolution, same extent of the labeled image. *)
Definition sameFrame (e e' : SlidingWindowPlaneExtractor) : Prop :=
  map_ e' = map_ e /\ parameters_ e' = parameters_ e
  /\ resolution (segmentedPlanesMap_ e') = resolution (segmentedPlanesMap_ e)
  /\ mapOrigin (segmentedPlanesMap_ e') = mapOrigin (segmentedPlanesMap_ e)
  /\ cv.rows (labeledImage (segmentedPlanesMap_ e')) = cv.rows (labeledImage (segmentedPlanesMap_ e))
  /\ cv.cols (labeledImage (segmentedPlanesMap_ e')) = cv.cols (labeledImage (segmentedPlanesMap_ e)).

(** The state refers to the map the way [initialize] and [runSegmentation]
    set it up. *)
Definition framedOn (map : GridMap) (e : SlidingWindowPlaneExtractor) : Prop :=
  map_ e = map
  /\ resolution (segmentedPlanesMap_ e) = getResolution map
  /\ mapOrigin (segmentedPlanesMap_ e) = getPosition map (0, 0)%Z
  /\ cv.rows (labeledImage (segmentedPlanesMap_ e)) = fst (getSize map)
  /\ cv.cols (labeledImage (segmentedPlanesMap_ e)) = snd (getSize map).

(** The point lies in a cell of the map that has a finite height. *)
Definition finitePoint (e : SlidingWindowPlaneExtractor) (point : Vector3d) : Prop :=
  exists row col,
    cellOfMap (map_ e) row col
    /\ isfinite (elevationData (map_ e) row col) = true
    /\ cellOf e point = (row, col).

(** The test of the loop of lines 276-289 on one point: neither its distance
    to the plane nor the angle of its normal to the normal of the plane
    exceeds its threshold. *)
Definition pointFitsPlane (e : SlidingWindowPlaneExtractor)
           (normalVectorPlane supportVectorPlane : Vector3d)
           (pointWithNormal : PointWithNormal) : bool :=
  let normalDotPoint :=
    (x normalVectorPlane * x (fst pointWithNormal)
     + y normalVectorPlane * y (fst pointWithNormal)
     + z normalVectorPlane * z (fst pointWithNormal))%float in
  let distanceError := abs (normalDotPoint - dot normalVectorPlane supportVectorPlane)%float in
  negb (global_plane_fit_distance_error_threshold (parameters_ e) <? distanceError)%float
  && negb (global_plane_fit_angle_error_threshold_degrees (parameters_ e)
           <? angleBetweenNormalizedVectorsInDegrees (snd pointWithNormal) normalVectorPlane)%float.

(** The point and normal line 190 appends for a cell. *)
Definition cellPoint (e : SlidingWindowPlaneExtractor) (row col : Z) : PointWithNormal :=
  (point3dOf e row col,
   StdVector.get (surfaceNormals_ e) (getLinearIndex (map_ e) row col)).

(** The cell lies in the labeled image, carries the label and has a finite
    height. *)
Definition carries (e : SlidingWindowPlaneExtractor) (label : Z) (row col : Z) : Prop :=
  cv.inside (labeledImage (segmentedPlanesMap_ e)) row col
  /\ labelAt e row col = label
  /\ isfinite (elevationData (map_ e) row col) = true.

(** The labels of the cells of the labeled image are [0 .. numberOfLabel - 1]. *)
Definition componentsLabelsInRange : Prop :=
  forall img connectivity row col,
    cv.inside (snd (connectedComponents img connectivity)) row col ->
    (0 <= cv.at_ (snd (connectedComponents img connectivity)) row col
     <= fst (connectedComponents img connectivity) - 1)%Z.

(** Every label of the raster is between 0 and [highestLabel]. *)
Definition labelsWithinCounter (e : SlidingWindowPlaneExtractor) : Prop :=
  forall row col,
    cv.inside (labeledImage (segmentedPlanesMap_ e)) row col ->
    (0 <= labelAt e row col <= currentHighestLabel e)%Z.

(** The label the refinement of the region [label] gives plane number [j]
    (from 0) when it starts with the counter at [h]: the label of the region
    to the first plane, the [j]-th label above the counter to a later one. *)
Definition labelOfPlane (label h : Z) (j : nat) : Z :=
  match j with
  | O => label
  | S _ => (h + Z.of_nat j)%Z
  end.

(** The labels of the entries of the planes, numbered from [j]: one entry
    for every plane whose normal passes the inclination check, under the
    label of the plane. *)
Fixpoint entriesOfPlanes (e : SlidingWindowPlaneExtractor)
         (pointsWithNormal : list PointWithNormal) (label h : Z) (j : nat)
         (planes : list (list nat)) : list Z :=
  match planes with
  | [] => []
  | plane :: rest =>
    (if planeWithinInclination e pointsWithNormal plane then [labelOfPlane label h j] else [])
    ++ entriesOfPlanes e pointsWithNormal label h (S j) rest
  end.

(** The cell is the cell of one of the points of the given indices. *)
Definition claimsCell (e : SlidingWindowPlaneExtractor)
           (pointsWithNormal : list PointWithNormal) (indices : list nat) (row col : Z) : Prop :=
  exists index,
    In index indices /\ cellOf e (fst (pointAt pointsWithNormal index)) = (row, col).

(** The state with another labeled image. *)
Definition withImage (e : SlidingWindowPlaneExtractor) (img : cv.Mat Z)
  : SlidingWindowPlaneExtractor :=
  with_segmentedPlanesMap e (with_labeledImage (segmentedPlanesMap_ e) img).

End Notions.

(** ** Concrete collaborators and inputs for the examples *)

Module Examples.

Local Open Scope float_scope.

Definition axisX : Vector3d := mkVector3d 1 0 0.
Definition axisY : Vector3d := mkVector3d 0 1 0.

Definition cswap (p q : double * Vector3d) :=
  if fst q <? fst p then (q, p) else (p, q).

Definition columns (v0 v1 v2 : Vector3d) : Matrix3d :=
  mkMatrix3d (mkVector3d (x v0) (x v1) (x v2))
             (mkVector3d (y v0) (y v1) (y v2))
             (mkVector3d (z v0) (z v1) (z v2)).

(** An eigen solver for diagonal matrices: the diagonal in increasing
    order, each entry with its axis.  (On a matrix that is not diagonal
    it is not the decomposition; the examples that rest on its value hand
    it diagonal matrices only.) *)
Definition diagonalSolver (m : Matrix3d) : SelfAdjointEigenSolver :=
  let a := (x (row0 m), axisX) in
  let b := (y (row1 m), axisY) in
  let c := (z (row2 m), UnitZ) in
  let '(a, b) := cswap a b in
  let '(b, c) := cswap b c in
  let '(a, b) := cswap a b in
  mkSolver (mkVector3d (fst a) (fst b) (fst c)) (columns (snd a) (snd b) (snd c)).

(** [std::acos] at 1, -1 and 0, the arguments the examples reach. *)
Definition acosAtAxes (c : double) : double :=
  if c =? 1 then 0
  else if c =? -1 then M_PI
  else M_PI / 2.

(** Erosion with the cross of the given size; what lies outside the image
    does not erode. *)
Definition crossErode (img : cv.Mat bool) (erosionSize : Z) : cv.Mat bool :=
  let radius := Z.quot (erosionSize - 1) 2 in
  let keeps r c :=
    negb ((0 <=? r) && (r <? cv.rows img) && (0 <=? c) && (c <? cv.cols img))%Z
    || cv.at_ img r c in
  cv.mkMat (cv.rows img) (cv.cols img)
           (fun r c =>
              forallb (fun k => keeps (r + k - radius)%Z c && keeps r (c + k - radius)%Z)
                      (range erosionSize)).

(** Connected components of a mask whose foreground is connected: one
    component, label 1. *)
Definition singleComponent (img : cv.Mat bool) (connectivity : Z) : Z * cv.Mat Z :=
  let foreground :=
    existsb (fun r => existsb (fun c => cv.at_ img r c) (range (cv.cols img)))
            (range (cv.rows img)) in
  ((if foreground then 2 else 1)%Z,
   cv.mkMat (cv.rows img) (cv.cols img) (fun r c => if cv.at_ img r c then 1%Z else 0%Z)).

(** Detectors: one plane that claims every point; no plane at all; and two
    planes that claim the first and the second third of the points. *)
Definition claimAll (points : list PointWithNormal) : RansacPlaneExtractor :=
  mkRansac points [seq 0 (length points)] [].

Definition claimNone (points : list PointWithNormal) : RansacPlaneExtractor :=
  mkRansac points [] (seq 0 (length points)).

Definition claimThirds (points : list PointWithNormal) : RansacPlaneExtractor :=
  let n := length points in
  let k := Nat.div n 3 in
  mkRansac points [seq 0 k; seq k k] (seq (2 * k) (n - 2 * k)).

(** An orientation whose third row is the normal. *)
Definition orientationWithUp (normal : Vector3d) : Matrix3d :=
  mkMatrix3d axisX axisY normal.

Definition columnMajor (map : GridMap) (row col : Z) : nat :=
  Z.to_nat (row + col * fst (getSize map)).

Definition external (detector : list PointWithNormal -> RansacPlaneExtractor) : External :=
  Build_External diagonalSolver acosAtAxes crossErode singleComponent detector
                 orientationWithUp columnMajor (mkVector3d nan nan nan).

(** The integer part of a double. *)
Definition truncate (f : double) : Z :=
  match Prim2SF f with
  | S754_finite s m e =>
    let v := if (0 <=? e)%Z then (Zpos m * 2 ^ e)%Z else (Zpos m / 2 ^ (- e))%Z in
    if s then (- v)%Z else v
  | _ => 0%Z
  end.

(** A grid map of resolution 1 whose cell (0,0) is centred at the origin
    of the world: the centre of cell (row, col) is (-row, -col), and a
    position belongs to the cell whose centre is nearest.  Outside the
    heights given there is no data (NaN). *)
Definition gridMap (rows cols : Z) (heights : list (list double)) : GridMap :=
  mkGridMap (rows, cols) 1
            (fun index => mkVector2d (0 - Z2double (fst index)) (0 - Z2double (snd index)))
            (fun position => (truncate (0.5 - x2 position), truncate (0.5 - y2 position)))
            (fun r c =>
               if ((0 <=? r) && (0 <=? c))%Z
               then nth (Z.to_nat c) (nth (Z.to_nat r) heights []) nan
               else nan).

Definition parameters (refine : bool) : SlidingWindowPlaneExtractorParameters :=
  mkParameters 3 0 30 0.03125 4 4 refine 0.03125 30.

(** The extractor as its constructor leaves it. *)
Definition constructed (p : SlidingWindowPlaneExtractorParameters) : SlidingWindowPlaneExtractor :=
  mkExtractor p (gridMap 0 0 [])
              (mkSegmentedPlanesMap [] (cv.mkMat 0 0 (fun _ _ => 0%Z)) 0 (mkVector2d 0 0) 0)
              (cv.mkMat 0 0 (fun _ _ => false))
              StdVector.empty.

(** A flat 5x5 map at height 1. *)
Definition flat5 : GridMap := gridMap 5 5 (repeat (repeat 1 5) 5).

(** A 3x3 map, flat at height 0 but for its centre at height 1. *)
Definition bump3 : GridMap := gridMap 3 3 [[0; 0; 0]; [0; 1; 0]; [0; 0; 0]].

(** A 3x3 map whose corner (0,0) has no height. *)
Definition hole3 : GridMap := gridMap 3 3 [[nan; 1; 1]; [1; 1; 1]; [1; 1; 1]].

(** A state of the loop over the regions on [bump3], RANSAC refinement
    disabled: the nine cells carry label 1 and the normal (0,0,1). *)
Definition bumpRegion : SlidingWindowPlaneExtractor :=
  mkExtractor (parameters false) bump3
              (mkSegmentedPlanesMap [] (cv.mkMat 3 3 (fun _ _ => 1%Z)) 1 (mkVector2d 0 0) 1)
              (cv.mkMat 3 3 (fun _ _ => true))
              (StdVector.mk 0 (repeat UnitZ 9)).

(** Three points of a vertical wall: the cells (0,0), (0,1), (0,2) of a
    map of resolution 1, at heights 0, 5 and 0. *)
Definition wallPoints : list PointWithNormal :=
  [(mkVector3d 0 0 0, UnitZ); (mkVector3d 0 (-1) 5, UnitZ); (mkVector3d 0 (-2) 0, UnitZ)].

(** A state of the loop over the regions in which region 1 is refined. *)
Definition wallRegion : SlidingWindowPlaneExtractor :=
  mkExtractor (mkParameters 3 0 30 0.03125 3 4 true 0.03125 30)
              (gridMap 3 3 [[0; 5; 0]; [nan; nan; nan]; [nan; nan; nan]])
              (mkSegmentedPlanesMap []
                 (cv.mkMat 3 3 (fun r c => if (r =? 0)%Z then 1%Z else 0%Z))
                 1 (mkVector2d 0 0) 1)
              (cv.mkMat 3 3 (fun r c => (r =? 0)%Z))
              (StdVector.mk 0 (repeat UnitZ 9)).

(** A flat 3x3 map at height 1, and a state of the loop over the regions
    on it: the nine cells carry label 1, the only label so far. *)
Definition flat3 : GridMap := gridMap 3 3 (repeat (repeat 1 3) 3).

Definition flatRegion : SlidingWindowPlaneExtractor :=
  mkExtractor (parameters true) flat3
              (mkSegmentedPlanesMap [] (cv.mkMat 3 3 (fun _ _ => 1%Z)) 1 (mkVector2d 0 0) 1)
              (cv.mkMat 3 3 (fun _ _ => true))
              (StdVector.mk 0 (repeat UnitZ 9)).

(** A flat 2x2 map at height 1: no 3x3 window fits into it. *)
Definition flat2 : GridMap := gridMap 2 2 (repeat (repeat 1 2) 2).

(** Two plateaus of three columns each, at heights 0 and 1, on either side
    of a column without heights. *)
Definition plateaus : GridMap := gridMap 5 7 (repeat [0; 0; 0; nan; 1; 1; 1] 5).

(** A 3x3 window with two samples of finite height. *)
Definition twoSamples (row col : Z) : double :=
  if ((row =? 0) && (col =? 0))%Z then 1
  else if ((row =? 1) && (col =? 1))%Z then 1
  else nan.

End Examples.


(** * Properties *)

Unset Implicit Arguments.

(** ** Floating-point comparisons *)

Lemma SFcompare_swap (a b : spec_float) :
  SFcompare b a = match SFcompare a b with Some c => Some (CompOpp c) | None => None end.
Proof.
  destruct a as [sa|sa| |sa ma ea], b as [sb|sb| |sb mb eb]; simpl; try reflexivity;
    try (destruct sa; reflexivity); try (destruct sb; reflexivity);
    try (destruct sa, sb; reflexivity).
  destruct sa, sb; simpl; try reflexivity;
    rewrite (Z.compare_antisym ea eb); destruct (ea ?= eb)%Z; simpl; try reflexivity;
    change (Pos.compare_cont Eq mb ma) with (Pos.compare mb ma);
    change (Pos.compare_cont Eq ma mb) with (Pos.compare ma mb);
    rewrite (Pos.compare_antisym ma mb); destruct (ma ?= mb)%positive; reflexivity.
Qed.

(** [x <= c] excludes [c < x] (and so does a NaN on either side). *)
Lemma leb_not_gt (a c : double) : (a <=? c)%float = true -> (c <? a)%float = false.
Proof.
  rewrite FloatAxioms.leb_spec, FloatAxioms.ltb_spec. unfold SFleb, SFltb.
  rewrite (SFcompare_swap (Prim2SF a) (Prim2SF c)).
  destruct (SFcompare (Prim2SF a) (Prim2SF c)) as [[]|]; simpl; congruence.
Qed.

(** ** Folds *)

Lemma fold_left_flat_map {A B C} (g : C -> list B) (step : A -> B -> A)
      (l : list C) (a : A) :
  fold_left step (flat_map g l) a = fold_left (fun a c => fold_left step (g c) a) l a.
Proof.
  revert a. induction l as [|c l IH]; intro a; simpl; [reflexivity|].
  rewrite fold_left_app. apply IH.
Qed.

Lemma fold_left_map {A B C} (g : C -> B) (step : A -> B -> A) (l : list C) (a : A) :
  fold_left step (List.map g l) a = fold_left (fun a c => step a (g c)) l a.
Proof.
  revert a. induction l as [|c l IH]; intro a; simpl; [reflexivity|]. apply IH.
Qed.

Lemma fold_left_ext_in {A B} (f g : A -> B -> A) (l : list B) (a : A) :
  (forall a b, In b l -> f a b = g a b) -> fold_left f l a = fold_left g l a.
Proof.
  revert a. induction l as [|b l IH]; intros a H; simpl; [reflexivity|].
  rewrite (H a b (or_introl eq_refl)). apply IH. intros; apply H; right; assumption.
Qed.

Lemma In_firstn {A} (l : list A) (k : nat) (a : A) : In a (firstn k l) -> In a l.
Proof.
  revert k. induction l as [|b l IH]; intros [|k] H; simpl in *; try contradiction.
  destruct H as [H|H]; [left; exact H | right; eapply IH, H].
Qed.

(** An invariant of a loop holds after it. *)
Lemma fold_left_invariant {A B} (P : A -> Prop) (step : A -> B -> A) (l : list B) (a : A) :
  P a -> (forall a b, In b l -> P a -> P (step a b)) -> P (fold_left step l a).
Proof.
  revert a. induction l as [|b l IH]; intros a Ha Hstep; simpl; [assumption|].
  apply IH.
  - apply Hstep; [left; reflexivity | assumption].
  - intros; apply Hstep; [right|]; assumption.
Qed.

Section WindowProperties.

Context {ext : External}.

Lemma gatherWindow_as_fold e windowData :
  gatherWindow e windowData =
  fold_left (gatherStep e windowData)
            (flat_map (fun col => List.map (fun row => (row, col))
                                           (range (kernel_size (parameters_ e))))
                      (range (kernel_size (parameters_ e))))
            (0%Z, Zero3, ZeroM).
Proof.
  unfold gatherWindow. rewrite fold_left_flat_map.
  apply fold_left_ext_in. intros a col _. rewrite fold_left_map. reflexivity.
Qed.

Lemma gatherStep_count e windowData cells acc :
  fst (fst (fold_left (gatherStep e windowData) cells acc)) =
  (fst (fst acc)
   + Z.of_nat (length (filter (fun rc => isfinite (windowData (fst rc) (snd rc))) cells)))%Z.
Proof.
  revert acc. induction cells as [|rc cells IH]; intro acc; simpl; [lia|].
  rewrite IH. unfold gatherStep.
  destruct (isfinite (windowData (fst rc) (snd rc))); simpl.
  - destruct acc as [[n s] m]; simpl. lia.
  - reflexivity.
Qed.

(** The count of the loop is the number of finite samples. *)
Lemma gatherWindow_count e windowData :
  fst (fst (gatherWindow e windowData)) = Z.of_nat (finiteSamples e windowData).
Proof.
  rewrite gatherWindow_as_fold, gatherStep_count. reflexivity.
Qed.

(** C6. With fewer than 3 samples of finite height in the window, or with
    the second-smallest eigenvalue of the covariance of the window at or
    below 1e-8, [computeNormalAndErrorForWindow] returns exactly the normal
    (0,0,1) and the error 1e30. *)
Theorem computeNormalAndErrorForWindow_undefined
        (e : SlidingWindowPlaneExtractor) (windowData : Z -> Z -> double) :
  (finiteSamples e windowData < 3)%nat
  \/ (y (eigenvalues (computeDirect (windowCovariance e windowData))) <=? d_1e_8)%float = true ->
  computeNormalAndErrorForWindow e windowData = (mkVector3d 0 0 1, d_1e30)%float.
Proof.
  intro H. unfold computeNormalAndErrorForWindow.
  pose proof (gatherWindow_count e windowData) as Hcount.
  unfold windowCovariance in H.
  destruct (gatherWindow e windowData) as [[nPoints sum] sumSquared]; simpl in Hcount.
  destruct (Z.ltb_spec nPoints 3) as [Hlt|Hge]; [reflexivity|].
  destruct H as [H|H]; [lia|].
  unfold normalAndErrorFromCovariance.
  rewrite (leb_not_gt _ _ H). reflexivity.
Qed.

End WindowProperties.

(** ** The bookkeeping of labels *)

Section LabelProperties.

Context {ext : External}.

Lemma emittedLabels_emitPlane newLabel numPoints sum sumSquared e :
  emittedLabels (emitPlane newLabel numPoints sum sumSquared e) =
  emittedLabels e
  ++ (if withinInclination e (fittedNormal numPoints sum sumSquared) then [newLabel] else []).
Proof.
  unfold emitPlane, withinInclination, fittedNormal, emittedLabels.
  destruct (_ <? _)%float; simpl.
  - rewrite map_app. reflexivity.
  - rewrite app_nil_r. reflexivity.
Qed.

Lemma emitPlane_keeps newLabel numPoints sum sumSquared e :
  let e' := emitPlane newLabel numPoints sum sumSquared e in
  labeledImage (segmentedPlanesMap_ e') = labeledImage (segmentedPlanesMap_ e)
  /\ currentHighestLabel e' = currentHighestLabel e
  /\ map_ e' = map_ e /\ parameters_ e' = parameters_ e
  /\ surfaceNormals_ e' = surfaceNormals_ e.
Proof.
  unfold emitPlane. simpl. destruct (_ <? _)%float; simpl; repeat split; reflexivity.
Qed.

Lemma relabel_keeps e point newLabel :
  let e' := relabel e point newLabel in
  emittedLabels e' = emittedLabels e
  /\ currentHighestLabel e' = currentHighestLabel e
  /\ map_ e' = map_ e /\ parameters_ e' = parameters_ e
  /\ surfaceNormals_ e' = surfaceNormals_ e
  /\ cv.rows (labeledImage (segmentedPlanesMap_ e')) = cv.rows (labeledImage (segmentedPlanesMap_ e))
  /\ cv.cols (labeledImage (segmentedPlanesMap_ e')) = cv.cols (labeledImage (segmentedPlanesMap_ e)).
Proof. simpl. repeat split; reflexivity. Qed.

Lemma labelAt_relabel e point newLabel row col :
  labelAt (relabel e point newLabel) row col =
  if ((row =? fst (cellOf e point)) && (col =? snd (cellOf e point)))%Z
  then newLabel else labelAt e row col.
Proof. reflexivity. Qed.

Lemma cellOf_same_map e e' point : map_ e' = map_ e -> cellOf e' point = cellOf e point.
Proof. unfold cellOf. intros ->. reflexivity. Qed.

Lemma relabelPoints_keeps pointsWithNormal newLabel indices e :
  let e' := relabelPoints pointsWithNormal newLabel indices e in
  emittedLabels e' = emittedLabels e
  /\ currentHighestLabel e' = currentHighestLabel e
  /\ map_ e' = map_ e /\ parameters_ e' = parameters_ e
  /\ surfaceNormals_ e' = surfaceNormals_ e
  /\ cv.rows (labeledImage (segmentedPlanesMap_ e')) = cv.rows (labeledImage (segmentedPlanesMap_ e))
  /\ cv.cols (labeledImage (segmentedPlanesMap_ e')) = cv.cols (labeledImage (segmentedPlanesMap_ e)).
Proof.
  unfold relabelPoints. revert e.
  induction indices as [|index indices IH]; intro e; simpl.
  - repeat split; reflexivity.
  - specialize (IH (relabel e (fst (pointAt pointsWithNormal index)) newLabel)).
    simpl in IH. exact IH.
Qed.

(** After the writes, the cell of every point written carries the label. *)
Lemma relabelPoints_written pointsWithNormal newLabel indices e index :
  In index indices ->
  let cell := cellOf e (fst (pointAt pointsWithNormal index)) in
  labelAt (relabelPoints pointsWithNormal newLabel indices e) (fst cell) (snd cell) = newLabel.
Proof.
  unfold relabelPoints. intros Hin. simpl.
  revert e Hin.
  induction indices as [|i indices IH] using rev_ind; intros e Hin; [destruct Hin|].
  rewrite fold_left_app. simpl.
  pose proof (relabelPoints_keeps pointsWithNormal newLabel indices e) as Hk.
  unfold relabelPoints in Hk. simpl in Hk.
  destruct Hk as (_ & _ & Hmap & _).
  rewrite labelAt_relabel, (cellOf_same_map _ _ _ Hmap).
  apply in_app_or in Hin. destruct Hin as [Hin|[->|[]]].
  - destruct (_ && _)%bool; [reflexivity|]. apply IH. assumption.
  - rewrite !Z.eqb_refl. reflexivity.
Qed.

(** The writes leave every other cell as it was. *)
Lemma relabelPoints_elsewhere pointsWithNormal newLabel indices e row col :
  (forall index, In index indices ->
                 cellOf e (fst (pointAt pointsWithNormal index)) <> (row, col)) ->
  labelAt (relabelPoints pointsWithNormal newLabel indices e) row col = labelAt e row col.
Proof.
  unfold relabelPoints. revert e.
  induction indices as [|i indices IH] using rev_ind; intros e H; [reflexivity|].
  rewrite fold_left_app. simpl.
  pose proof (relabelPoints_keeps pointsWithNormal newLabel indices e) as Hk.
  unfold relabelPoints in Hk. simpl in Hk.
  destruct Hk as (_ & _ & Hmap & _).
  rewrite labelAt_relabel, (cellOf_same_map _ _ _ Hmap).
  assert (Hi : cellOf e (fst (pointAt pointsWithNormal i)) <> (row, col))
    by (apply H, in_or_app; right; left; reflexivity).
  destruct (Z.eqb_spec row (fst (cellOf e (fst (pointAt pointsWithNormal i)))));
    destruct (Z.eqb_spec col (snd (cellOf e (fst (pointAt pointsWithNormal i))))); simpl;
      try (apply IH; intros; apply H, in_or_app; left; assumption).
  exfalso. apply Hi. subst. destruct (cellOf e _); reflexivity.
Qed.


(** A cell after the writes of a label holds that label or what it held. *)
Lemma relabelPoints_value pointsWithNormal newLabel indices e row col :
  labelAt (relabelPoints pointsWithNormal newLabel indices e) row col = newLabel
  \/ labelAt (relabelPoints pointsWithNormal newLabel indices e) row col = labelAt e row col.
Proof.
  unfold relabelPoints.
  apply (fold_left_invariant
           (fun e' => labelAt e' row col = newLabel \/ labelAt e' row col = labelAt e row col)).
  - right. reflexivity.
  - intros e' index _ H. rewrite labelAt_relabel. destruct (_ && _)%bool; [left; reflexivity|exact H].
Qed.


Lemma assignPoint_fold label newLabel pointsWithNormal plane sum sumSquared e :
  fold_left (assignPoint label newLabel pointsWithNormal) plane (sum, sumSquared, e) =
  (fold_left
     (fun acc index =>
        let point := fst (pointAt pointsWithNormal index) in
        (vadd (fst acc) point, madd (snd acc) (outer point point)))
     plane (sum, sumSquared),
   if negb (newLabel =? label)%Z
   then relabelPoints pointsWithNormal newLabel plane e else e).
Proof.
  revert sum sumSquared e.
  induction plane as [|index plane IH]; intros sum sumSquared e; simpl.
  - destruct (negb _); reflexivity.
  - rewrite IH. destruct (negb (newLabel =? label)%Z); reflexivity.
Qed.

(** One iteration of the loop over the detected planes. *)
Lemma processPlane_eq label pointsWithNormal reuseLabel e plane :
  processPlane label pointsWithNormal (reuseLabel, e) plane =
  (false,
   emitPlane (fst (nextLabel reuseLabel label e)) (Z.of_nat (length plane))
             (fst (sumsOfPlane pointsWithNormal plane))
             (snd (sumsOfPlane pointsWithNormal plane))
             (if negb (fst (nextLabel reuseLabel label e) =? label)%Z
              then relabelPoints pointsWithNormal (fst (nextLabel reuseLabel label e)) plane
                                 (snd (nextLabel reuseLabel label e))
              else snd (nextLabel reuseLabel label e))).
Proof.
  unfold processPlane.
  destruct (nextLabel reuseLabel label e) as [newLabel e1]. simpl.
  rewrite assignPoint_fold. unfold sumsOfPlane.
  destruct (fold_left _ plane (Zero3, ZeroM)) as [sum sumSquared]. reflexivity.
Qed.

Lemma nextLabel_keeps reuseLabel label e :
  let e' := snd (nextLabel reuseLabel label e) in
  emittedLabels e' = emittedLabels e
  /\ map_ e' = map_ e /\ parameters_ e' = parameters_ e
  /\ surfaceNormals_ e' = surfaceNormals_ e
  /\ labeledImage (segmentedPlanesMap_ e') = labeledImage (segmentedPlanesMap_ e)
  /\ currentHighestLabel e' =
     (if reuseLabel then currentHighestLabel e else currentHighestLabel e + 1)%Z
  /\ fst (nextLabel reuseLabel label e) =
     (if reuseLabel then label else currentHighestLabel e + 1)%Z.
Proof. destruct reuseLabel; simpl; repeat split; reflexivity. Qed.

Lemma withinInclination_same_parameters e e' normalVector :
  parameters_ e' = parameters_ e ->
  withinInclination e' normalVector = withinInclination e normalVector.
Proof. unfold withinInclination. intros ->. reflexivity. Qed.

(** What one iteration does to the counter, the list of planes and the
    raster. *)
Lemma processPlane_step label pointsWithNormal reuseLabel e plane :
  let newLabel := fst (nextLabel reuseLabel label e) in
  let st' := processPlane label pointsWithNormal (reuseLabel, e) plane in
  fst st' = false
  /\ map_ (snd st') = map_ e /\ parameters_ (snd st') = parameters_ e
  /\ surfaceNormals_ (snd st') = surfaceNormals_ e
  /\ currentHighestLabel (snd st') =
     (if reuseLabel then currentHighestLabel e else currentHighestLabel e + 1)%Z
  /\ emittedLabels (snd st') =
     emittedLabels e
     ++ (if planeWithinInclination e pointsWithNormal plane then [newLabel] else [])
  /\ (forall row col,
         labelAt (snd st') row col =
         labelAt (if negb (newLabel =? label)%Z
                  then relabelPoints pointsWithNormal newLabel plane e else e) row col).
Proof.
  intros newLabel st'. subst st'. rewrite processPlane_eq. fold newLabel. simpl.
  destruct (nextLabel_keeps reuseLabel label e) as (Hl & Hm & Hp & Hn & Hi & Hh & _).
  set (e1 := snd (nextLabel reuseLabel label e)) in *.
  set (e2 := if negb (newLabel =? label)%Z
             then relabelPoints pointsWithNormal newLabel plane e1 else e1).
  assert (H2 : emittedLabels e2 = emittedLabels e1
               /\ currentHighestLabel e2 = currentHighestLabel e1
               /\ map_ e2 = map_ e1 /\ parameters_ e2 = parameters_ e1
               /\ surfaceNormals_ e2 = surfaceNormals_ e1).
  { subst e2. destruct (negb _).
    - destruct (relabelPoints_keeps pointsWithNormal newLabel plane e1)
        as (? & ? & ? & ? & ? & _). repeat split; assumption.
    - repeat split; reflexivity. }
  destruct H2 as (H2l & H2h & H2m & H2p & H2n).
  destruct (emitPlane_keeps newLabel (Z.of_nat (length plane))
                            (fst (sumsOfPlane pointsWithNormal plane))
                            (snd (sumsOfPlane pointsWithNormal plane)) e2)
    as (Ei & Eh & Em & Ep & En).
  split; [reflexivity|].
  split; [congruence|]. split; [congruence|]. split; [congruence|].
  split; [congruence|].
  split.
  - rewrite emittedLabels_emitPlane, H2l, Hl. f_equal.
    unfold planeWithinInclination.
    destruct (sumsOfPlane pointsWithNormal plane) as [sum sumSquared]. simpl.
    rewrite (withinInclination_same_parameters e e2) by congruence. reflexivity.
  - intros row col. unfold labelAt at 1. rewrite Ei. fold (labelAt e2 row col).
    subst e2. destruct (negb (newLabel =? label)%Z).
    + unfold relabelPoints.
      assert (Hgen : forall l ea eb,
                 map_ ea = map_ eb ->
                 (forall r c, labelAt ea r c = labelAt eb r c) ->
                 forall r c,
                   labelAt (fold_left (fun e index =>
                              relabel e (fst (pointAt pointsWithNormal index)) newLabel) l ea) r c
                   = labelAt (fold_left (fun e index =>
                              relabel e (fst (pointAt pointsWithNormal index)) newLabel) l eb) r c).
      { induction l as [|i l IH]; intros ea eb Hmap Hsame r c; simpl; [apply Hsame|].
        apply IH; [simpl; assumption|].
        intros r' c'. rewrite !labelAt_relabel, (cellOf_same_map _ _ _ Hmap), Hsame.
        reflexivity. }
      apply Hgen; [assumption|]. intros r c. unfold labelAt. rewrite Hi. reflexivity.
    + unfold labelAt. rewrite Hi. reflexivity.
Qed.


(** The loop over the detected planes, after any number of planes. *)
Lemma planeLoop_invariant label pointsWithNormal (l : list (list nat)) e :
  let st := fold_left (processPlane label pointsWithNormal) l (true, e) in
  map_ (snd st) = map_ e /\ parameters_ (snd st) = parameters_ e
  /\ surfaceNormals_ (snd st) = surfaceNormals_ e
  /\ fst st = match l with [] => true | _ => false end
  /\ currentHighestLabel (snd st) = (currentHighestLabel e + Z.of_nat (pred (length l)))%Z.
Proof.
  induction l as [|plane l IH] using rev_ind; simpl.
  - repeat split; try reflexivity. lia.
  - rewrite fold_left_app. cbn [fold_left].
    destruct IH as (Hm & Hp & Hn & Hr & Hh).
    destruct (fold_left (processPlane label pointsWithNormal) l (true, e)) as [reuse e1].
    cbn [fst snd] in Hm, Hp, Hn, Hr, Hh.
    destruct (processPlane_step label pointsWithNormal reuse e1 plane)
      as (Sr & Sm & Sp & Sn & Sh & _).
    split; [congruence|]. split; [congruence|]. split; [congruence|].
    split; [rewrite Sr; destruct l; reflexivity|].
    rewrite Sh, Hh, Hr, length_app. cbn [length].
    destruct l; cbn [length]; lia.
Qed.


Lemma claimsCell_same_map e e' pointsWithNormal indices row col :
  map_ e' = map_ e ->
  claimsCell e' pointsWithNormal indices row col ->
  claimsCell e pointsWithNormal indices row col.
Proof.
  intros Hm (index & Hin & Heq). exists index. split; [exact Hin|].
  rewrite <- (cellOf_same_map e e' _ Hm). exact Heq.
Qed.

Lemma planeWithinInclination_same_parameters e e' pointsWithNormal plane :
  parameters_ e' = parameters_ e ->
  planeWithinInclination e' pointsWithNormal plane
  = planeWithinInclination e pointsWithNormal plane.
Proof.
  intro Hp. unfold planeWithinInclination.
  destruct (sumsOfPlane pointsWithNormal plane) as [sum sumSquared].
  apply withinInclination_same_parameters, Hp.
Qed.

Lemma entriesOfPlanes_same_parameters e e' pointsWithNormal label h j planes :
  parameters_ e' = parameters_ e ->
  entriesOfPlanes e' pointsWithNormal label h j planes
  = entriesOfPlanes e pointsWithNormal label h j planes.
Proof.
  intro Hp. revert j. induction planes as [|plane planes IH]; intro j; [reflexivity|].
  cbn [entriesOfPlanes].
  rewrite IH, (planeWithinInclination_same_parameters e e' pointsWithNormal plane Hp).
  reflexivity.
Qed.

Lemma relabelPoints_claimed pointsWithNormal newLabel indices e row col :
  claimsCell e pointsWithNormal indices row col ->
  labelAt (relabelPoints pointsWithNormal newLabel indices e) row col = newLabel.
Proof.
  intros (index & Hin & Heq).
  pose proof (relabelPoints_written pointsWithNormal newLabel indices e index Hin) as H.
  cbv zeta in H. rewrite Heq in H. exact H.
Qed.

Lemma relabelPoints_unclaimed pointsWithNormal newLabel indices e row col :
  ~ claimsCell e pointsWithNormal indices row col ->
  labelAt (relabelPoints pointsWithNormal newLabel indices e) row col = labelAt e row col.
Proof.
  intro H. apply relabelPoints_elsewhere. intros index Hin Heq.
  apply H. exists index. split; assumption.
Qed.

(** The planes after the first one, from the counter [h + j] on: their
    entries and the raster they leave; the last plane that claims a cell
    decides its label. *)
Lemma planeLoop_later_planes label pointsWithNormal (l : list (list nat)) :
  forall e1 h (j : nat),
    (label <= h)%Z ->
    currentHighestLabel e1 = (h + Z.of_nat j)%Z ->
    let e' := snd (fold_left (processPlane label pointsWithNormal) l (false, e1)) in
    emittedLabels e' = emittedLabels e1 ++ entriesOfPlanes e1 pointsWithNormal label h (S j) l
    /\ currentHighestLabel e' = (h + Z.of_nat (j + length l))%Z
    /\ map_ e' = map_ e1 /\ parameters_ e' = parameters_ e1
    /\ forall row col,
        (forall i plane,
            nth_error l i = Some plane ->
            claimsCell e1 pointsWithNormal plane row col ->
            (forall i' plane',
                (i < i')%nat -> nth_error l i' = Some plane' ->
                ~ claimsCell e1 pointsWithNormal plane' row col) ->
            labelAt e' row col = labelOfPlane label h (S j + i))
        /\ ((forall i plane,
                nth_error l i = Some plane -> ~ claimsCell e1 pointsWithNormal plane row col) ->
            labelAt e' row col = labelAt e1 row col).
Proof.
  induction l as [|plane l IH]; intros e1 h j Hlabel Hc; cbn [fold_left].
  - cbn [snd entriesOfPlanes length]. rewrite app_nil_r, Nat.add_0_r.
    split; [reflexivity|]. split; [exact Hc|]. split; [reflexivity|]. split; [reflexivity|].
    intros row col. split.
    + intros i plane Hnth. destruct i; discriminate Hnth.
    + reflexivity.
  - destruct (processPlane_step label pointsWithNormal false e1 plane)
      as (Sr & Sm & Sp & _ & Sh & Sl & Si).
    destruct (nextLabel_keeps false label e1) as (_ & _ & _ & _ & _ & _ & Hn).
    destruct (processPlane label pointsWithNormal (false, e1) plane) as [reuse e2].
    cbn [fst snd] in Sr, Sm, Sp, Sh, Sl, Si. subst reuse.
    assert (Hc2 : currentHighestLabel e2 = (h + Z.of_nat (S j))%Z) by lia.
    destruct (IH e2 h (S j) Hlabel Hc2) as (Il & Ih & Im & Ip & Ir).
    assert (Hnew : fst (nextLabel false label e1) = labelOfPlane label h (S j))
      by (rewrite Hn, Hc; cbn [labelOfPlane]; lia).
    assert (Hne : negb (fst (nextLabel false label e1) =? label)%Z = true).
    { apply negb_true_iff, Z.eqb_neq. rewrite Hn. lia. }
    rewrite Hne, Hnew in Si. rewrite Hnew in Sl.
    split.
    { rewrite Il, Sl, <- app_assoc. f_equal. cbn [entriesOfPlanes].
      rewrite (entriesOfPlanes_same_parameters e1 e2 pointsWithNormal label h (S (S j)) l Sp).
      reflexivity. }
    split; [rewrite Ih; cbn [length]; f_equal; lia|].
    split; [congruence|]. split; [congruence|].
    intros row col. destruct (Ir row col) as [IA IB]. split.
    + intros i plane' Hnth Hcl Hlater. destruct i as [|i].
      * injection Hnth as <-. rewrite IB.
        -- rewrite Si, Nat.add_0_r. apply relabelPoints_claimed, Hcl.
        -- intros i plane' Hnth' Hcl'.
           apply (claimsCell_same_map e1 e2 pointsWithNormal plane' row col Sm) in Hcl'.
           exact (Hlater (S i) plane' (Nat.lt_0_succ i) Hnth' Hcl').
      * cbn [nth_error] in Hnth. replace (S j + S i)%nat with (S (S j) + i)%nat by lia.
        apply (IA i plane' Hnth).
        -- destruct Hcl as (index & Hin & Heq). exists index. split; [exact Hin|].
           rewrite (cellOf_same_map e1 e2 _ Sm). exact Heq.
        -- intros i' plane'' Hlt Hnth' Hcl'.
           apply (claimsCell_same_map e1 e2 pointsWithNormal plane'' row col Sm) in Hcl'.
           apply (Hlater (S i') plane''); [lia|exact Hnth'|exact Hcl'].
    + intros Hnone. rewrite IB.
      * rewrite Si. apply relabelPoints_unclaimed. apply (Hnone 0%nat plane). reflexivity.
      * intros i plane' Hnth Hcl.
        apply (claimsCell_same_map e1 e2 pointsWithNormal plane' row col Sm) in Hcl.
        exact (Hnone (S i) plane' Hnth Hcl).
Qed.

(** The whole loop over the detected planes (lines 225-259). *)
Lemma planeLoop_all_planes label pointsWithNormal (planes : list (list nat)) e :
  (label <= currentHighestLabel e)%Z ->
  let h := currentHighestLabel e in
  let e1 := snd (fold_left (processPlane label pointsWithNormal) planes (true, e)) in
  emittedLabels e1 = emittedLabels e ++ entriesOfPlanes e pointsWithNormal label h 0 planes
  /\ currentHighestLabel e1 = (h + Z.of_nat (pred (length planes)))%Z
  /\ map_ e1 = map_ e
  /\ forall row col,
      (forall j plane,
          (0 < j)%nat -> nth_error planes j = Some plane ->
          claimsCell e pointsWithNormal plane row col ->
          (forall j' plane',
              (j < j')%nat -> nth_error planes j' = Some plane' ->
              ~ claimsCell e pointsWithNormal plane' row col) ->
          labelAt e1 row col = labelOfPlane label h j)
      /\ ((forall j plane,
              (0 < j)%nat -> nth_error planes j = Some plane ->
              ~ claimsCell e pointsWithNormal plane row col) ->
          labelAt e1 row col = labelAt e row col).
Proof.
  intros Hlabel h e1. subst e1. destruct planes as [|first rest]; cbn [fold_left].
  - cbn [snd entriesOfPlanes length pred]. rewrite app_nil_r.
    split; [reflexivity|]. split; [subst h; lia|]. split; [reflexivity|].
    intros row col. split.
    + intros j plane _ Hnth. destruct j; discriminate Hnth.
    + reflexivity.
  - destruct (processPlane_step label pointsWithNormal true e first)
      as (Sr & Sm & Sp & _ & Sh & Sl & Si).
    destruct (nextLabel_keeps true label e) as (_ & _ & _ & _ & _ & _ & Hn).
    destruct (processPlane label pointsWithNormal (true, e) first) as [reuse e0].
    cbn [fst snd] in Sr, Sm, Sp, Sh, Sl, Si. subst reuse.
    rewrite Hn, Z.eqb_refl in Si. cbn [negb] in Si. rewrite Hn in Sl.
    assert (Hc : currentHighestLabel e0 = (h + Z.of_nat 0)%Z) by (subst h; lia).
    destruct (planeLoop_later_planes label pointsWithNormal rest e0 h 0 Hlabel Hc)
      as (Il & Ih & Im & Ip & Ir).
    split.
    { rewrite Il, Sl, <- app_assoc. f_equal. cbn [entriesOfPlanes labelOfPlane].
      rewrite (entriesOfPlanes_same_parameters e e0 pointsWithNormal label h 1 rest Sp).
      reflexivity. }
    split; [rewrite Ih; cbn [length pred]; f_equal|].
    split; [congruence|].
    intros row col. destruct (Ir row col) as [IA IB]. split.
    + intros j plane Hj Hnth Hcl Hlater. destruct j as [|i]; [lia|].
      cbn [nth_error] in Hnth. rewrite (IA i plane Hnth); [reflexivity| |].
      * destruct Hcl as (index & Hin & Heq). exists index. split; [exact Hin|].
        rewrite (cellOf_same_map e e0 _ Sm). exact Heq.
      * intros i' plane' Hlt Hnth' Hcl'.
        apply (claimsCell_same_map e e0 pointsWithNormal plane' row col Sm) in Hcl'.
        apply (Hlater (S i') plane'); [lia|exact Hnth'|exact Hcl'].
    + intros Hnone. rewrite IB; [apply Si|].
      intros i plane Hnth Hcl.
      apply (claimsCell_same_map e e0 pointsWithNormal plane row col Sm) in Hcl.
      exact (Hnone (S i) plane (Nat.lt_0_succ i) Hnth Hcl).
Qed.

(** C1 (as amended). The state [refineLabelWithRansac] leaves for a region
    of label [label], a label the counter [h] has reached, whatever planes
    the detector returns.  The entries appended to [labelPlaneParameters]
    are those of the planes whose normal passes the inclination check, in
    the order of the planes: under [label] for the first plane, under
    [h + j] for plane number [j] after it.  [highestLabel] has gone up by
    one for every plane after the first.  In the raster, the cell of every
    unassigned point has label 0; the cell of a point of a plane after the
    first has the label [h + j] of that plane (the plane claiming it last,
    should several claim it); and every other cell, the cells of the points
    of the first plane among them, has the label it had. *)
Theorem refineLabelWithRansac_bookkeeping
        (label : Z) (points : list PointWithNormal) (e : SlidingWindowPlaneExtractor) :
  (label <= currentHighestLabel e)%Z ->
  let ransac := detectPlanes points in
  let pts := reorderedPoints ransac in
  let planes := getDetectedPlanes ransac in
  let unassigned := getUnassignedPointIndices ransac in
  let h := currentHighestLabel e in
  let e' := refineLabelWithRansac label points e in
  emittedLabels e' = emittedLabels e ++ entriesOfPlanes e pts label h 0 planes
  /\ currentHighestLabel e' = (h + Z.of_nat (pred (length planes)))%Z
  /\ forall row col,
      (claimsCell e pts unassigned row col -> labelAt e' row col = 0%Z)
      /\ (forall j plane,
             (0 < j)%nat -> nth_error planes j = Some plane ->
             claimsCell e pts plane row col ->
             ~ claimsCell e pts unassigned row col ->
             (forall j' plane',
                 (j < j')%nat -> nth_error planes j' = Some plane' ->
                 ~ claimsCell e pts plane' row col) ->
             labelAt e' row col = labelOfPlane label h j)
      /\ (~ claimsCell e pts unassigned row col ->
          (forall j plane,
              (0 < j)%nat -> nth_error planes j = Some plane ->
              ~ claimsCell e pts plane row col) ->
          labelAt e' row col = labelAt e row col).
Proof.
  intros Hlabel ransac pts planes unassigned h e'.
  assert (He' : e' = relabelPoints pts 0 unassigned
                       (snd (fold_left (processPlane label pts) planes (true, e))))
    by reflexivity.
  destruct (planeLoop_all_planes label pts planes e Hlabel) as (Ll & Lh & Lm & Lr).
  fold h in Ll, Lh, Lr.
  set (e1 := snd (fold_left (processPlane label pts) planes (true, e))) in *.
  destruct (relabelPoints_keeps pts 0 unassigned e1) as (Rl & Rh & _).
  rewrite <- He' in Rl, Rh.
  split; [rewrite Rl; exact Ll|]. split; [rewrite Rh; exact Lh|].
  intros row col. destruct (Lr row col) as [LA LB].
  assert (Hun : ~ claimsCell e pts unassigned row col ->
                labelAt e' row col = labelAt e1 row col).
  { intro Hno. rewrite He'. apply relabelPoints_unclaimed. intro Hcl. apply Hno.
    apply (claimsCell_same_map e e1 pts unassigned row col Lm), Hcl. }
  split; [|split].
  - intros (index & Hin & Heq). rewrite He'. apply relabelPoints_claimed.
    exists index. split; [exact Hin|]. rewrite (cellOf_same_map e e1 _ Lm). exact Heq.
  - intros j plane Hj Hnth Hcl Hno Hlater. rewrite (Hun Hno).
    exact (LA j plane Hj Hnth Hcl Hlater).
  - intros Hno Hnone. rewrite (Hun Hno). exact (LB Hnone).
Qed.


(** ** The labels of a whole run *)

Lemma increasingAbove_lower h labels :
  increasingAbove h labels -> Forall (fun l => (h < l)%Z) labels.
Proof.
  revert h. induction labels as [|a labels IH]; intros h H; constructor.
  - apply H.
  - destruct H as [Ha H]. apply IH in H.
    eapply Forall_impl; [|exact H]. simpl. intros; lia.
Qed.

Lemma increasingAbove_NoDup h labels : increasingAbove h labels -> NoDup labels.
Proof.
  revert h. induction labels as [|a labels IH]; intros h H; constructor.
  - destruct H as [_ H]. apply increasingAbove_lower in H.
    intro Hin. rewrite Forall_forall in H. apply H in Hin. lia.
  - destruct H as [_ H]. eapply IH, H.
Qed.

Lemma increasingAbove_weaken h h' labels :
  (h' <= h)%Z -> increasingAbove h labels -> increasingAbove h' labels.
Proof. destruct labels; simpl; [trivial|]. intros ? [? ?]. split; [lia|assumption]. Qed.

(** The planes after the first one: their entries carry increasing labels
    above the counter, up to the counter the loop leaves. *)
Lemma planeLoop_fresh label pointsWithNormal (l : list (list nat)) e :
  let e' := snd (fold_left (processPlane label pointsWithNormal) l (false, e)) in
  (currentHighestLabel e <= currentHighestLabel e')%Z
  /\ exists extra,
      emittedLabels e' = emittedLabels e ++ extra
      /\ increasingAbove (currentHighestLabel e) extra
      /\ Forall (fun a => (a <= currentHighestLabel e')%Z) extra.
Proof.
  revert e. induction l as [|plane l IH]; intro e; cbn [fold_left snd].
  - split; [lia|]. exists []. rewrite app_nil_r. repeat split; constructor.
  - destruct (processPlane_step label pointsWithNormal false e plane)
      as (Sr & _ & _ & _ & Sh & Sl & _).
    destruct (nextLabel_keeps false label e) as (_ & _ & _ & _ & _ & _ & Hn).
    destruct (processPlane label pointsWithNormal (false, e) plane) as [reuse e1].
    cbn [fst snd] in Sr, Sh, Sl. subst reuse.
    destruct (IH e1) as (Hle & extra & He & Hinc & Hup).
    split; [lia|].
    exists ((if planeWithinInclination e pointsWithNormal plane
             then [fst (nextLabel false label e)] else []) ++ extra).
    split; [rewrite He, Sl, app_assoc; reflexivity|].
    rewrite Hn, Sh in *.
    destruct (planeWithinInclination e pointsWithNormal plane); cbn [app].
    + split; [split; [lia|assumption]|]. constructor; [lia|assumption].
    + split; [|assumption]. apply increasingAbove_weaken with (2 := Hinc). lia.
Qed.

(** The entries of a refinement: at most one under the label of the
    region, then increasing labels above the counter. *)
Lemma refineLabelWithRansac_labels label pointsWithNormal e :
  let e' := refineLabelWithRansac label pointsWithNormal e in
  (currentHighestLabel e <= currentHighestLabel e')%Z
  /\ exists own extra,
      emittedLabels e' = emittedLabels e ++ own ++ extra
      /\ (own = [] \/ own = [label])
      /\ increasingAbove (currentHighestLabel e) extra
      /\ Forall (fun a => (a <= currentHighestLabel e')%Z) extra.
Proof.
  unfold refineLabelWithRansac.
  set (pts := reorderedPoints (detectPlanes pointsWithNormal)).
  set (planes := getDetectedPlanes (detectPlanes pointsWithNormal)).
  set (unassigned := getUnassignedPointIndices (detectPlanes pointsWithNormal)).
  change (resetUnassigned pts unassigned) with (relabelPoints pts 0 unassigned).
  cbv zeta.
  destruct (relabelPoints_keeps pts 0 unassigned
              (snd (fold_left (processPlane label pts) planes (true, e))))
    as (Rl & Rh & _).
  rewrite Rl, Rh. clear Rl Rh.
  destruct planes as [|plane planes]; cbn [fold_left snd].
  - split; [lia|]. exists [], []. rewrite app_nil_r.
    split; [reflexivity|]. split; [left; reflexivity|]. split; [exact I|constructor].
  - destruct (processPlane_step label pts true e plane)
      as (Sr & _ & _ & _ & Sh & Sl & _).
    destruct (nextLabel_keeps true label e) as (_ & _ & _ & _ & _ & _ & Hn).
    destruct (processPlane label pts (true, e) plane) as [reuse e1].
    cbn [fst snd] in Sr, Sh, Sl. subst reuse.
    destruct (planeLoop_fresh label pts planes e1) as (Hle & extra & He & Hinc & Hup).
    rewrite Sh in *. split; [assumption|].
    exists (if planeWithinInclination e pts plane then [fst (nextLabel true label e)] else []),
           extra.
    split; [rewrite He, Sl, app_assoc; reflexivity|].
    split; [|split; assumption].
    rewrite Hn. destruct (planeWithinInclination e pts plane); [right|left]; reflexivity.
Qed.

(** The entries of one region. *)
Lemma computePlaneParametersForLabel_labels label e :
  let e' := computePlaneParametersForLabel label e in
  (currentHighestLabel e <= currentHighestLabel e')%Z
  /\ exists own extra,
      emittedLabels e' = emittedLabels e ++ own ++ extra
      /\ (own = [] \/ own = [label])
      /\ increasingAbove (currentHighestLabel e) extra
      /\ Forall (fun a => (a <= currentHighestLabel e')%Z) extra.
Proof.
  unfold computePlaneParametersForLabel.
  destruct (collectLabel label e) as [[[numPoints sum] sumSquared] pointsWithNormal].
  destruct (_ || _).
  { split; [lia|]. exists [], []. rewrite app_nil_r.
    split; [reflexivity|]. split; [left; reflexivity|]. split; [exact I|constructor]. }
  destruct (_ && _).
  { apply refineLabelWithRansac_labels. }
  destruct (emitPlane_keeps label numPoints sum sumSquared e) as (_ & Eh & _).
  cbv zeta. rewrite Eh. split; [lia|].
  exists (if withinInclination e (fittedNormal numPoints sum sumSquared) then [label] else []),
         [].
  rewrite emittedLabels_emitPlane, app_nil_r.
  split; [reflexivity|]. split; [|split; constructor].
  destruct (withinInclination _ _); [right|left]; reflexivity.
Qed.

(** One more region keeps the invariant of the loop. *)
Lemma runInvariant_step n0 k e :
  (0 <= k < n0)%Z ->
  runInvariant n0 k e ->
  runInvariant n0 (k + 1) (computePlaneParametersForLabel (k + 1) e).
Proof.
  intros Hk (Hnd & Hn0 & Hall).
  destruct (computePlaneParametersForLabel_labels (k + 1) e)
    as (Hle & own & extra & He & Hown & Hinc & Hup).
  cbv zeta in *. unfold runInvariant. rewrite He.
  pose proof (increasingAbove_lower _ _ Hinc) as Hlow.
  rewrite Forall_forall in Hall, Hlow, Hup.
  split; [|split; [lia|]].
  - apply NoDup_app; [assumption| |].
    + apply NoDup_app.
      * destruct Hown as [-> | ->]; repeat constructor. intros [].
      * eapply increasingAbove_NoDup, Hinc.
      * intros a Ha Hin. apply Hlow in Hin.
        destruct Hown as [-> | ->]; [destruct Ha|]. destruct Ha as [<-|[]]. lia.
    + intros a Ha Hin. apply Hall in Ha. apply in_app_or in Hin.
      destruct Hin as [Hin|Hin].
      * destruct Hown as [-> | ->]; [destruct Hin|]. destruct Hin as [<-|[]]. lia.
      * apply Hlow in Hin. lia.
  - rewrite Forall_forall. intros a Ha.
    apply in_app_or in Ha. destruct Ha as [Ha|Ha].
    + apply Hall in Ha. lia.
    + apply in_app_or in Ha. destruct Ha as [Ha|Ha].
      * destruct Hown as [-> | ->]; [destruct Ha|]. destruct Ha as [<-|[]]. lia.
      * pose proof (Hlow _ Ha). pose proof (Hup _ Ha). lia.
Qed.


Lemma labelsUpTo_succ (k : nat) :
  labelsUpTo (Z.of_nat (S k)) = labelsUpTo (Z.of_nat k) ++ [(Z.of_nat k + 1)%Z].
Proof.
  unfold labelsUpTo, range. rewrite !Nat2Z.id, seq_S, !map_app. reflexivity.
Qed.

Lemma In_labelsUpTo n l : In l (labelsUpTo n) <-> (1 <= l <= n)%Z.
Proof.
  unfold labelsUpTo, range. rewrite map_map, in_map_iff. split.
  - intros (i & <- & Hi). apply in_seq in Hi. lia.
  - intros H. exists (Z.to_nat (l - 1)). split; [lia|]. apply in_seq. lia.
Qed.

Lemma firstn_seq_min (k start len : nat) :
  firstn k (seq start len) = seq start (Nat.min k len).
Proof.
  revert start len. induction k as [|k IH]; intros start [|len]; simpl; try reflexivity.
  f_equal. apply IH.
Qed.

Lemma firstn_labelsUpTo (k : nat) n :
  (Z.of_nat k <= n)%Z -> firstn k (labelsUpTo n) = labelsUpTo (Z.of_nat k).
Proof.
  intro H. unfold labelsUpTo, range.
  rewrite !firstn_map, firstn_seq_min, Nat2Z.id. do 3 f_equal. lia.
Qed.

Lemma processLabels_app l1 l2 e :
  processLabels (l1 ++ l2) e = processLabels l2 (processLabels l1 e).
Proof. apply fold_left_app. Qed.

(** The loop over the labels never lowers the counter. *)
Lemma processLabels_monotone labels e :
  (currentHighestLabel e <= currentHighestLabel (processLabels labels e))%Z.
Proof.
  unfold processLabels.
  apply (fold_left_invariant
           (fun e' => (currentHighestLabel e <= currentHighestLabel e')%Z)); [lia|].
  intros e' label _ H.
  pose proof (computePlaneParametersForLabel_labels label e') as [Hle _].
  cbv zeta in Hle. lia.
Qed.

(** The invariant holds when the loop has gone through the labels
    [1 .. k]. *)
Lemma runInvariant_prefix n0 e0 (k : nat) :
  (Z.of_nat k <= Z.max 0 n0)%Z ->
  runInvariant n0 0 e0 ->
  runInvariant n0 (Z.of_nat k) (processLabels (labelsUpTo (Z.of_nat k)) e0).
Proof.
  intros Hk H0. induction k as [|k IH].
  - exact H0.
  - rewrite labelsUpTo_succ, processLabels_app.
    replace (Z.of_nat (S k)) with (Z.of_nat k + 1)%Z by lia.
    apply runInvariant_step; [lia|]. apply IH. lia.
Qed.

(** The invariant of the loop holds when [extractPlaneParametersFromLabeledImage]
    returns, if it started without planes. *)
Lemma extract_runInvariant e0 :
  emittedLabels e0 = [] ->
  runInvariant (currentHighestLabel e0) (Z.max 0 (currentHighestLabel e0))
               (extractPlaneParametersFromLabeledImage e0).
Proof.
  intro Hnil. unfold extractPlaneParametersFromLabeledImage.
  set (n0 := currentHighestLabel e0).
  fold n0.
  assert (Hl : labelsUpTo n0 = labelsUpTo (Z.of_nat (Z.to_nat n0))).
  { unfold labelsUpTo, range. rewrite Nat2Z.id. reflexivity. }
  change (highestLabel (segmentedPlanesMap_ e0)) with n0.
  rewrite Hl. replace (Z.max 0 n0) with (Z.of_nat (Z.to_nat n0)) by lia.
  apply runInvariant_prefix; [lia|].
  unfold runInvariant. rewrite Hnil. fold n0.
  split; [constructor|]. split; [lia|constructor].
Qed.


(** ** The stages before the loop *)

Lemma update_length l i value : length (StdVector.update l i value) = length l.
Proof.
  revert i. induction l as [|a l IH]; intros [|i]; simpl; try reflexivity.
  f_equal. apply IH.
Qed.

Lemma detectAt_keeps e index :
  let e' := detectAt e index in
  segmentedPlanesMap_ e' = segmentedPlanesMap_ e
  /\ parameters_ e' = parameters_ e /\ map_ e' = map_ e
  /\ StdVector.size (surfaceNormals_ e') = StdVector.size (surfaceNormals_ e)
  /\ StdVector.capacity (surfaceNormals_ e') = StdVector.capacity (surfaceNormals_ e)
  /\ cv.rows (binaryImagePatch_ e') = cv.rows (binaryImagePatch_ e)
  /\ cv.cols (binaryImagePatch_ e') = cv.cols (binaryImagePatch_ e).
Proof.
  unfold detectAt. cbv zeta.
  destruct (negb _); [repeat split; reflexivity|].
  destruct (computeNormalAndErrorForWindow e _) as [n mean_error]. cbn.
  repeat split; try reflexivity. unfold StdVector.capacity. cbn. apply update_length.
Qed.

Lemma scan_keeps indices e :
  let e' := fold_left detectAt indices e in
  segmentedPlanesMap_ e' = segmentedPlanesMap_ e
  /\ parameters_ e' = parameters_ e /\ map_ e' = map_ e
  /\ StdVector.size (surfaceNormals_ e') = StdVector.size (surfaceNormals_ e)
  /\ StdVector.capacity (surfaceNormals_ e') = StdVector.capacity (surfaceNormals_ e)
  /\ cv.rows (binaryImagePatch_ e') = cv.rows (binaryImagePatch_ e)
  /\ cv.cols (binaryImagePatch_ e') = cv.cols (binaryImagePatch_ e).
Proof.
  cbv zeta. apply fold_left_invariant; [repeat split; reflexivity|].
  intros e' index _ (H1 & H2 & H3 & H4 & H5 & H6 & H7).
  destruct (detectAt_keeps e' index) as (D1 & D2 & D3 & D4 & D5 & D6 & D7).
  repeat split; congruence.
Qed.

Lemma runSlidingWindowDetector_keeps e :
  let e' := runSlidingWindowDetector e in
  segmentedPlanesMap_ e' = segmentedPlanesMap_ e
  /\ parameters_ e' = parameters_ e /\ map_ e' = map_ e
  /\ surfaceNormals_ e' = surfaceNormals_ (slidingWindowScan e).
Proof.
  unfold runSlidingWindowDetector. cbv zeta.
  destruct (scan_keeps (SlidingWindowIterator.indices (map_ e) (kernel_size (parameters_ e))) e)
    as (H1 & H2 & H3 & _).
  fold (slidingWindowScan e) in H1, H2, H3.
  destruct (_ <? _)%Z; cbn; repeat split; assumption.
Qed.

Lemma runSegmentation_keeps e :
  let e' := runSegmentation e in
  emittedLabels e' = emittedLabels e
  /\ labelPlaneParameters (segmentedPlanesMap_ e') = labelPlaneParameters (segmentedPlanesMap_ e)
  /\ parameters_ e' = parameters_ e /\ map_ e' = map_ e
  /\ surfaceNormals_ e' = surfaceNormals_ e
  /\ binaryImagePatch_ e' = binaryImagePatch_ e.
Proof.
  unfold runSegmentation. cbv zeta.
  destruct (connectedComponents _ _) as [numberOfLabel labeled]. cbn.
  repeat split; reflexivity.
Qed.

(** The loop over the labels starts without planes. *)
Lemma no_planes_before_loop map e :
  emittedLabels (runSegmentation (runSlidingWindowDetector (initialize map e))) = [].
Proof.
  destruct (runSegmentation_keeps (runSlidingWindowDetector (initialize map e))) as (-> & _).
  destruct (runSlidingWindowDetector_keeps (initialize map e)) as (H & _).
  unfold emittedLabels. rewrite H. reflexivity.
Qed.

(** C4. After [runExtraction] no label has two entries in
    [labelPlaneParameters]: the loop over the regions emits at most one
    entry under the label of each region, and a refinement emits its entries
    under that label for its first plane and under a label it has just
    allocated for every later plane. *)
Theorem runExtraction_one_plane_per_label (map : GridMap) (e : SlidingWindowPlaneExtractor) :
  NoDup (List.map fst (labelPlaneParameters (segmentedPlanesMap_ (runExtraction map e)))).
Proof.
  unfold runExtraction.
  destruct (extract_runInvariant _ (no_planes_before_loop map e)) as (H & _).
  exact H.
Qed.

(** C10. Every entry [runExtraction] leaves in [labelPlaneParameters] has a
    label of at least 1: the background label 0 never receives a plane. *)
Theorem runExtraction_labels_positive (map : GridMap) (e : SlidingWindowPlaneExtractor) :
  Forall (fun entry => (1 <= fst entry)%Z)
         (labelPlaneParameters (segmentedPlanesMap_ (runExtraction map e))).
Proof.
  unfold runExtraction.
  destruct (extract_runInvariant _ (no_planes_before_loop map e)) as (_ & _ & H).
  unfold emittedLabels in H. rewrite Forall_map in H.
  eapply Forall_impl; [|exact H]. cbv beta. intros entry [H1 _]. exact H1.
Qed.


(** The counter in the loop over the detected planes. *)
Lemma planeLoopState_counter label pointsWithNormal planes e j :
  let st := planeLoopState label pointsWithNormal planes e j in
  fst st = match Nat.min j (length planes) with O => true | _ => false end
  /\ currentHighestLabel (snd st) =
     (currentHighestLabel e + Z.of_nat (pred (Nat.min j (length planes))))%Z.
Proof.
  unfold planeLoopState.
  destruct (planeLoop_invariant label pointsWithNormal (firstn j planes) e)
    as (_ & _ & _ & Hr & Hh).
  rewrite length_firstn in Hh. split; [|exact Hh].
  rewrite Hr. destruct j, planes; reflexivity.
Qed.

(** The branch of line 206 that refines the region. *)
Lemma computePlaneParametersForLabel_refined label e :
  regionHasEnoughPoints label e = true ->
  include_ransac_refinement (parameters_ e) = true ->
  regionFailsGlobalPlanarity label e = true ->
  computePlaneParametersForLabel label e
  = refineLabelWithRansac label (snd (collectLabel label e)) e.
Proof.
  unfold regionHasEnoughPoints, regionFailsGlobalPlanarity, regionNormal, regionSupport,
    fittedNormal, computePlaneParametersForLabel.
  destruct (collectLabel label e) as [[[numPoints sum] sumSquared] pointsWithNormal].
  cbn [snd]. intros Henough Hinclude Hfails.
  apply negb_true_iff in Henough. rewrite Henough, Hinclude, Hfails. reflexivity.
Qed.

(** The other branches leave the counter alone. *)
Lemma computePlaneParametersForLabel_not_refined label e :
  regionHasEnoughPoints label e = false
  \/ include_ransac_refinement (parameters_ e) = false
  \/ regionFailsGlobalPlanarity label e = false ->
  currentHighestLabel (computePlaneParametersForLabel label e) = currentHighestLabel e.
Proof.
  unfold regionHasEnoughPoints, regionFailsGlobalPlanarity, regionNormal, regionSupport,
    fittedNormal, computePlaneParametersForLabel.
  destruct (collectLabel label e) as [[[numPoints sum] sumSquared] pointsWithNormal].
  cbn [snd]. intros H.
  destruct (_ || _); [reflexivity|].
  assert (Hcond : include_ransac_refinement (parameters_ e)
                  && negb (isGloballyPlanar
                             e (fst (normalAndErrorFromCovariance
                                       numPoints (vdiv sum (Z2double numPoints)) sumSquared))
                             (vdiv sum (Z2double numPoints)) pointsWithNormal) = false).
  { destruct H as [H|[H|H]]; [discriminate H|rewrite H; reflexivity|].
    rewrite H. apply andb_false_r. }
  rewrite Hcond.
  destruct (emitPlane_keeps label numPoints sum sumSquared e) as (_ & Eh & _). exact Eh.
Qed.

(** In the loop over the planes a cell keeps its label or gets a label
    above the counter the loop started with. *)
Lemma planeLoop_raster_fresh label pointsWithNormal (l : list (list nat)) :
  forall reuseLabel e,
    let e' := snd (fold_left (processPlane label pointsWithNormal) l (reuseLabel, e)) in
    (currentHighestLabel e <= currentHighestLabel e')%Z
    /\ forall row col,
        labelAt e' row col = labelAt e row col
        \/ (currentHighestLabel e < labelAt e' row col <= currentHighestLabel e')%Z.
Proof.
  induction l as [|plane l IH]; intros reuseLabel e; cbn [fold_left].
  - cbn [snd]. split; [lia|]. intros row col. left. reflexivity.
  - destruct (processPlane_step label pointsWithNormal reuseLabel e plane)
      as (_ & _ & _ & _ & Sh & _ & Si).
    destruct (nextLabel_keeps reuseLabel label e) as (_ & _ & _ & _ & _ & _ & Hn).
    destruct (processPlane label pointsWithNormal (reuseLabel, e) plane) as [reuse e2].
    cbn [snd] in Sh, Si.
    destruct (IH reuse e2) as [Hle Hr].
    assert (Hstep : (currentHighestLabel e <= currentHighestLabel e2)%Z)
      by (rewrite Sh; destruct reuseLabel; lia).
    split; [lia|].
    intros row col.
    assert (H2 : labelAt e2 row col = labelAt e row col
                 \/ (currentHighestLabel e < labelAt e2 row col <= currentHighestLabel e2)%Z).
    { rewrite Si.
      destruct (Z.eqb_spec (fst (nextLabel reuseLabel label e)) label) as [Heq|Hne];
        cbn [negb]; [left; reflexivity|].
      destruct (relabelPoints_value pointsWithNormal (fst (nextLabel reuseLabel label e))
                                    plane e row col) as [-> | ->]; [|left; reflexivity].
      right. rewrite Hn in *. destruct reuseLabel; [congruence|lia]. }
    destruct (Hr row col) as [->|Hnew]; [|right; lia].
    destruct H2 as [->|H2]; [left; reflexivity|right; lia].
Qed.

(** A region leaves a cell with its label, with label 0, or with a label
    the counter has reached while the region was processed. *)
Lemma computePlaneParametersForLabel_raster_fresh label e row col :
  let e' := computePlaneParametersForLabel label e in
  labelAt e' row col = labelAt e row col
  \/ labelAt e' row col = 0%Z
  \/ (currentHighestLabel e < labelAt e' row col <= currentHighestLabel e')%Z.
Proof.
  unfold computePlaneParametersForLabel.
  destruct (collectLabel label e) as [[[numPoints sum] sumSquared] pointsWithNormal].
  destruct (_ || _); [left; reflexivity|].
  destruct (_ && _).
  - unfold refineLabelWithRansac. cbv zeta.
    set (pts := reorderedPoints (detectPlanes pointsWithNormal)).
    set (planes := getDetectedPlanes (detectPlanes pointsWithNormal)).
    set (unassigned := getUnassignedPointIndices (detectPlanes pointsWithNormal)).
    change (resetUnassigned pts unassigned) with (relabelPoints pts 0 unassigned).
    destruct (planeLoop_raster_fresh label pts planes true e) as [_ Hr].
    set (e1 := snd (fold_left (processPlane label pts) planes (true, e))) in *.
    destruct (relabelPoints_keeps pts 0 unassigned e1) as (_ & -> & _).
    destruct (relabelPoints_value pts 0 unassigned e1 row col) as [-> | ->];
      [right; left; reflexivity|].
    destruct (Hr row col) as [->|Hnew]; [left; reflexivity|right; right; exact Hnew].
  - cbv zeta. destruct (emitPlane_keeps label numPoints sum sumSquared e) as (Hi & _).
    left. unfold labelAt. rewrite Hi. reflexivity.
Qed.

(** C5. In a run, from the state segmentation leaves, with [n0] its
    [highestLabel], when the loop over the regions has processed [k] of them
    and processes the next one, of label [k + 1].  The counter is at least
    [n0] before the region, does not go down in it, nor from there to the end
    of the run.  Every label of an entry so far is at most the counter.  The
    entries the region appends are at most one under its own label, and then
    entries under strictly increasing labels that are above the counter as
    it was before the region and at most the counter after it: none is an
    original label, and none is the label of an earlier entry.  A cell of
    the raster keeps its label, gets label 0, or gets such a new label.  The
    counter changes in a refinement only; and when the region is refined,
    the state it leaves is the one the loop over the detected planes
    reaches, followed by the reset of the unassigned points: the counter
    never goes down from plane to plane, it ends where the region leaves it,
    [n - 1] above where it was for [n] planes, and plane number [j] after
    the first gets the label one above the counter, which becomes the
    counter, is [j] above the counter before the region, above [n0], and
    none of the original labels. *)
Theorem highestLabel_monotone_new_labels_fresh
        (map : GridMap) (e : SlidingWindowPlaneExtractor) (k : nat) :
  let e1 := runSegmentation (runSlidingWindowDetector (initialize map e)) in
  let n0 := currentHighestLabel e1 in
  let labels := labelsUpTo n0 in
  let ek := processLabels (firstn k labels) e1 in
  let ek' := processLabels (firstn (S k) labels) e1 in
  let label := (Z.of_nat k + 1)%Z in
  (Z.of_nat k < n0)%Z ->
  ek' = computePlaneParametersForLabel label ek
  /\ (n0 <= currentHighestLabel ek <= currentHighestLabel ek')%Z
  /\ (currentHighestLabel ek' <= currentHighestLabel (runExtraction map e))%Z
  /\ Forall (fun l => (l <= currentHighestLabel ek)%Z) (emittedLabels ek)
  /\ (exists own fresh,
         emittedLabels ek' = emittedLabels ek ++ own ++ fresh
         /\ (own = [] \/ own = [label])
         /\ increasingAbove (currentHighestLabel ek) fresh
         /\ Forall (fun l => (l <= currentHighestLabel ek')%Z
                             /\ ~ In l labels /\ ~ In l (emittedLabels ek)) fresh)
  /\ (forall row col,
         labelAt ek' row col = labelAt ek row col
         \/ labelAt ek' row col = 0%Z
         \/ (currentHighestLabel ek < labelAt ek' row col <= currentHighestLabel ek')%Z)
  /\ (regionHasEnoughPoints label ek = false
      \/ include_ransac_refinement (parameters_ ek) = false
      \/ regionFailsGlobalPlanarity label ek = false ->
      currentHighestLabel ek' = currentHighestLabel ek)
  /\ (regionHasEnoughPoints label ek = true ->
      include_ransac_refinement (parameters_ ek) = true ->
      regionFailsGlobalPlanarity label ek = true ->
      let ransac := detectPlanes (snd (collectLabel label ek)) in
      let pts := reorderedPoints ransac in
      let planes := getDetectedPlanes ransac in
      let counter j := currentHighestLabel (snd (planeLoopState label pts planes ek j)) in
      ek' = resetUnassigned pts (getUnassignedPointIndices ransac)
                            (snd (planeLoopState label pts planes ek (length planes)))
      /\ currentHighestLabel ek' = counter (length planes)
      /\ currentHighestLabel ek'
         = (currentHighestLabel ek + Z.of_nat (pred (length planes)))%Z
      /\ forall j,
          (j < length planes)%nat ->
          (currentHighestLabel ek <= counter j <= counter (S j))%Z
          /\ (counter (S j) <= currentHighestLabel ek')%Z
          /\ ((0 < j)%nat ->
              let newLabel := newLabelOfPlane label pts planes ek j in
              newLabel = (counter j + 1)%Z
              /\ counter (S j) = newLabel
              /\ newLabel = (currentHighestLabel ek + Z.of_nat j)%Z
              /\ (n0 < newLabel)%Z
              /\ ~ In newLabel labels)).
Proof.
  intros e1 n0 labels ek ek' label Hk.
  assert (Hek : ek = processLabels (labelsUpTo (Z.of_nat k)) e1).
  { subst ek labels. rewrite firstn_labelsUpTo by lia. reflexivity. }
  assert (Hstep : ek' = computePlaneParametersForLabel label ek).
  { subst ek' labels. rewrite firstn_labelsUpTo by lia.
    rewrite labelsUpTo_succ, processLabels_app, <- Hek. reflexivity. }
  assert (Hinv : runInvariant n0 (Z.of_nat k) ek).
  { rewrite Hek. apply runInvariant_prefix; [lia|].
    unfold runInvariant. subst e1. rewrite no_planes_before_loop.
    split; [constructor|]. split; [subst n0; lia|constructor]. }
  destruct Hinv as (_ & Hn0 & Hall).
  destruct (computePlaneParametersForLabel_labels label ek)
    as (Hle & own & fresh & He & Hown & Hinc & Hup).
  rewrite <- Hstep in Hle, He, Hup.
  assert (Hbelow : Forall (fun l => (l <= currentHighestLabel ek)%Z) (emittedLabels ek)).
  { eapply Forall_impl; [|exact Hall]. cbv beta. intros l [_ H]. lia. }
  split; [exact Hstep|]. split; [lia|].
  split.
  { unfold runExtraction, extractPlaneParametersFromLabeledImage. fold e1.
    change (highestLabel (segmentedPlanesMap_ e1)) with n0. fold labels.
    rewrite <- (firstn_skipn (S k) labels) at 1. rewrite processLabels_app.
    apply processLabels_monotone. }
  split; [exact Hbelow|].
  split.
  { exists own, fresh. split; [exact He|]. split; [exact Hown|]. split; [exact Hinc|].
    pose proof (increasingAbove_lower _ _ Hinc) as Hlow.
    rewrite Forall_forall in Hlow, Hup, Hbelow |- *.
    intros l Hl. split; [exact (Hup l Hl)|].
    pose proof (Hlow l Hl). split.
    - intro Hin. apply In_labelsUpTo in Hin. lia.
    - intro Hin. apply Hbelow in Hin. lia. }
  split; [intros row col; rewrite Hstep; apply computePlaneParametersForLabel_raster_fresh|].
  split; [intro Hnot; rewrite Hstep; apply computePlaneParametersForLabel_not_refined, Hnot|].
  intros Henough Hinclude Hfails ransac pts planes counter.
  assert (Hrefined : ek' = resetUnassigned pts (getUnassignedPointIndices ransac)
                             (snd (planeLoopState label pts planes ek (length planes)))).
  { rewrite Hstep, (computePlaneParametersForLabel_refined label ek Henough Hinclude Hfails).
    unfold refineLabelWithRansac, planeLoopState. rewrite firstn_all. reflexivity. }
  assert (Hend : currentHighestLabel ek' = counter (length planes)).
  { rewrite Hrefined.
    change (resetUnassigned pts (getUnassignedPointIndices ransac))
      with (relabelPoints pts 0 (getUnassignedPointIndices ransac)).
    destruct (relabelPoints_keeps pts 0 (getUnassignedPointIndices ransac)
                (snd (planeLoopState label pts planes ek (length planes))))
      as (_ & Rh & _).
    exact Rh. }
  assert (Hcounter : forall j,
             counter j
             = (currentHighestLabel ek + Z.of_nat (pred (Nat.min j (length planes))))%Z).
  { intro j. apply (planeLoopState_counter label pts planes ek j). }
  split; [exact Hrefined|]. split; [exact Hend|].
  split; [rewrite Hend, Hcounter, Nat.min_id; reflexivity|].
  intros j Hj. rewrite Hend, !Hcounter, Nat.min_id.
  rewrite (Nat.min_l j) by lia. rewrite (Nat.min_l (S j)) by lia.
  split; [lia|]. split; [lia|].
  intros Hpos newLabel. subst newLabel. unfold newLabelOfPlane.
  destruct (planeLoopState_counter label pts planes ek j) as (Hr & Hh).
  rewrite Nat.min_l in Hr, Hh by lia.
  destruct (nextLabel_keeps (fst (planeLoopState label pts planes ek j)) label
                            (snd (planeLoopState label pts planes ek j)))
    as (_ & _ & _ & _ & _ & _ & Hn).
  rewrite Hn, Hr, Hh. destruct j as [|j']; [lia|]. cbn [pred].
  split; [reflexivity|]. split; [lia|]. split; [lia|]. split; [lia|].
  intro Hin. apply In_labelsUpTo in Hin. lia.
Qed.

End LabelProperties.

(** ** Regions without refinement *)

Section RegionProperties.

Context {ext : External}.

(** C2 (as amended). With RANSAC refinement disabled the global planarity
    test plays no part: a region with the points a plane needs gets its
    entry exactly when its fitted normal passes the inclination check,
    whether it fails the global planarity test or not; the raster and the
    counter are left as they are. *)
Theorem computePlaneParametersForLabel_without_refinement
        (label : Z) (e : SlidingWindowPlaneExtractor) :
  include_ransac_refinement (parameters_ e) = false ->
  let e' := computePlaneParametersForLabel label e in
  labelPlaneParameters (segmentedPlanesMap_ e') =
  labelPlaneParameters (segmentedPlanesMap_ e)
  ++ (if regionHasEnoughPoints label e && withinInclination e (regionNormal label e)
      then [(label, regionPlane label e)] else [])
  /\ labeledImage (segmentedPlanesMap_ e') = labeledImage (segmentedPlanesMap_ e)
  /\ currentHighestLabel e' = currentHighestLabel e.
Proof.
  intro Hoff. unfold computePlaneParametersForLabel, regionHasEnoughPoints, regionNormal,
              regionPlane, regionSupport, regionNormal.
  destruct (collectLabel label e) as [[[numPoints sum] sumSquared] pointsWithNormal].
  rewrite Hoff. cbn [andb].
  destruct (_ || _); cbn [negb andb].
  - rewrite app_nil_r. repeat split; reflexivity.
  - unfold emitPlane, withinInclination, fittedNormal.
    destruct (_ <? _)%float; cbn.
    + repeat split; reflexivity.
    + rewrite app_nil_r. repeat split; reflexivity.
Qed.

End RegionProperties.

(** ** The sliding-window scan and the buffer of normals *)

Section ScanProperties.

Context {ext : External}.

Lemma In_range n i : In i (range n) <-> (0 <= i < n)%Z.
Proof.
  unfold range. rewrite in_map_iff. split.
  - intros (k & <- & Hk). apply in_seq in Hk. lia.
  - intro H. exists (Z.to_nat i). split; [lia|]. apply in_seq. lia.
Qed.

Lemma In_allIndices map row col :
  In (row, col) (SlidingWindowIterator.allIndices map) <-> cellOfMap map row col.
Proof.
  unfold SlidingWindowIterator.allIndices, cellOfMap. rewrite in_flat_map. split.
  - intros (c & Hc & Hin). apply in_map_iff in Hin. destruct Hin as (r & Heq & Hr).
    injection Heq as -> ->. apply In_range in Hc, Hr. lia.
  - intros [Hr Hc]. exists col. split; [apply In_range; lia|].
    apply in_map_iff. exists row. split; [reflexivity|apply In_range; lia].
Qed.

(** The iterator stops exactly at the cells whose window is inside the map. *)
Lemma In_indices map windowSize row col :
  In (row, col) (SlidingWindowIterator.indices map windowSize)
  <-> cellOfMap map row col /\ windowInsideMap map windowSize row col.
Proof.
  unfold SlidingWindowIterator.indices. rewrite filter_In, In_allIndices.
  unfold SlidingWindowIterator.dataInsideMap, SlidingWindowIterator.checkIfIndexInRange,
    windowInsideMap.
  cbn [fst snd].
  rewrite !andb_true_iff, !Z.leb_le, !Z.ltb_lt. unfold cellOfMap. lia.
Qed.

Lemma nth_update l i j value d :
  nth i (StdVector.update l j value) d =
  if (i =? j)%nat && (j <? length l)%nat then value else nth i l d.
Proof.
  revert i j. induction l as [|a l IH]; intros i j.
  - simpl. rewrite andb_false_r. destruct i; reflexivity.
  - destruct j as [|j], i as [|i]; simpl; try reflexivity.
    rewrite IH. reflexivity.
Qed.

Lemma computeNormalAndErrorForWindow_same e e' windowData :
  parameters_ e' = parameters_ e -> segmentedPlanesMap_ e' = segmentedPlanesMap_ e ->
  computeNormalAndErrorForWindow e' windowData = computeNormalAndErrorForWindow e windowData.
Proof.
  intros Hp Hs. unfold computeNormalAndErrorForWindow, gatherWindow. rewrite Hp, Hs.
  reflexivity.
Qed.

Lemma isLocallyPlanar_same e e' n err :
  parameters_ e' = parameters_ e -> isLocallyPlanar e' n err = isLocallyPlanar e n err.
Proof. intro Hp. unfold isLocallyPlanar. rewrite Hp. reflexivity. Qed.

(** The height the detector tests is the height of the cell. *)
Lemma middleValue_is_height e index :
  windowOf e index (Z.quot (kernel_size (parameters_ e) - 1) 2)
           (Z.quot (kernel_size (parameters_ e) - 1) 2)
  = elevationData (map_ e) (fst index) (snd index).
Proof.
  unfold windowOf, SlidingWindowIterator.getData, SlidingWindowIterator.windowMargin.
  f_equal; lia.
Qed.

(** What the detector does at one index, to the mask and to the buffer. *)
Lemma detectAt_effect e index :
  let result := computeNormalAndErrorForWindow e (windowOf e index) in
  let finite := isfinite (elevationData (map_ e) (fst index) (snd index)) in
  (forall row col,
      cv.at_ (binaryImagePatch_ (detectAt e index)) row col =
      if ((row =? fst index) && (col =? snd index))%Z
      then finite && isLocallyPlanar e (fst result) (snd result)
      else cv.at_ (binaryImagePatch_ e) row col)
  /\ (forall i,
         StdVector.get (surfaceNormals_ (detectAt e index)) i =
         if finite
            && ((i =? getLinearIndex (map_ e) (fst index) (snd index))%nat
                && (getLinearIndex (map_ e) (fst index) (snd index)
                    <? StdVector.capacity (surfaceNormals_ e))%nat)
         then fst result
         else StdVector.get (surfaceNormals_ e) i).
Proof.
  cbv zeta. unfold detectAt. cbv zeta.
  fold (windowOf e index). rewrite middleValue_is_height.
  destruct (isfinite (elevationData (map_ e) (fst index) (snd index))); cbn [negb andb].
  - destruct (computeNormalAndErrorForWindow e (windowOf e index)) as [n mean_error].
    cbn [fst snd]. split.
    + intros row col. cbn. destruct (_ && _)%bool; reflexivity.
    + intro i. cbn. unfold StdVector.get, StdVector.capacity. cbn.
      apply nth_update.
  - split; [|reflexivity]. intros row col. cbn. destruct (_ && _)%bool; reflexivity.
Qed.


Lemma visited_In indices row col : visited indices row col = true <-> In (row, col) indices.
Proof.
  unfold visited. rewrite existsb_exists. split.
  - intros ([r c] & Hin & H). cbn in H.
    apply andb_true_iff in H. destruct H as [Hr Hc].
    apply Z.eqb_eq in Hr, Hc. subst. assumption.
  - intro H. exists (row, col). split; [assumption|]. cbn. rewrite !Z.eqb_refl. reflexivity.
Qed.

Lemma windowOf_same e e' index :
  parameters_ e' = parameters_ e -> map_ e' = map_ e -> windowOf e' index = windowOf e index.
Proof. unfold windowOf. intros -> ->. reflexivity. Qed.

(** The mask and the buffer after the detector has gone through a list of
    cells of the map. *)
Lemma scan_cells (indices : list Index) e0 :
  (forall index, In index indices -> cellOfMap (map_ e0) (fst index) (snd index)) ->
  linearIndexOfCells (map_ e0) ->
  (linearMapSize (map_ e0) <= Z.of_nat (StdVector.capacity (surfaceNormals_ e0)))%Z ->
  forall row col,
    cellOfMap (map_ e0) row col ->
    let e1 := fold_left detectAt indices e0 in
    let result := computeNormalAndErrorForWindow e0 (windowOf e0 (row, col)) in
    let finite := isfinite (elevationData (map_ e0) row col) in
    cv.at_ (binaryImagePatch_ e1) row col =
    (if visited indices row col
     then finite && isLocallyPlanar e0 (fst result) (snd result)
     else cv.at_ (binaryImagePatch_ e0) row col)
    /\ StdVector.get (surfaceNormals_ e1) (getLinearIndex (map_ e0) row col) =
       (if visited indices row col && finite
        then fst result
        else StdVector.get (surfaceNormals_ e0) (getLinearIndex (map_ e0) row col)).
Proof.
  intros Hcells Hlin Hcap row col Hcell. cbv zeta.
  induction indices as [|index indices IH] using rev_ind.
  - split; reflexivity.
  - rewrite fold_left_app. cbn [fold_left].
    assert (Hcells' : forall i, In i indices -> cellOfMap (map_ e0) (fst i) (snd i))
      by (intros; apply Hcells, in_or_app; left; assumption).
    specialize (IH Hcells'). destruct IH as [IHm IHn].
    destruct (scan_keeps indices e0) as (Ks & Kp & Km & _ & Kc & _).
    set (e' := fold_left detectAt indices e0) in *.
    destruct (detectAt_effect e' index) as [Em En]. cbv zeta in Em, En.
    rewrite Em, (En (getLinearIndex (map_ e0) row col)). clear Em En.
    rewrite Km, Kc, (windowOf_same e0 e' index Kp Km),
      (computeNormalAndErrorForWindow_same e0 e' _ Kp Ks),
      (isLocallyPlanar_same e0 e' _ _ Kp).
    unfold visited. rewrite existsb_app. fold (visited indices row col). cbn [existsb].
    rewrite orb_false_r.
    assert (Hidx : cellOfMap (map_ e0) (fst index) (snd index))
      by (apply Hcells, in_or_app; right; left; reflexivity).
    destruct (Hlin _ _ Hidx) as [Hbound Hinj].
    destruct ((row =? fst index) && (col =? snd index))%Z eqn:Hhere.
    + apply andb_true_iff in Hhere. destruct Hhere as [Hr Hc].
      apply Z.eqb_eq in Hr, Hc. subst row col.
      rewrite !Z.eqb_refl, Nat.eqb_refl. cbn [andb]. rewrite orb_true_r. cbn [andb].
      destruct index as [r c]. cbn [fst snd] in *.
      replace (getLinearIndex (map_ e0) r c <? StdVector.capacity (surfaceNormals_ e0))%nat
        with true
        by (symmetry; apply Nat.ltb_lt; unfold linearMapSize in Hcap; lia).
      rewrite andb_true_r. split; [reflexivity|].
      destruct (isfinite (elevationData (map_ e0) r c)); [reflexivity|].
      rewrite IHn, andb_false_r. reflexivity.
    + assert (Hother : (fst index =? row)%Z && (snd index =? col)%Z = false).
      { rewrite (Z.eqb_sym (fst index)), (Z.eqb_sym (snd index)). exact Hhere. }
      rewrite Hother, orb_false_r. split; [exact IHm|].
      assert (Hne : (getLinearIndex (map_ e0) row col
                     =? getLinearIndex (map_ e0) (fst index) (snd index))%nat = false).
      { apply Nat.eqb_neq. intro Heq. apply Hinj in Heq; [|assumption].
        injection Heq as -> ->. rewrite !Z.eqb_refl in Hhere. discriminate. }
      rewrite Hne, andb_false_l, andb_false_r. exact IHn.
Qed.


(** [reserve] and [std::fill_n] leave the size of the vector as it was. *)
Lemma initialize_size map e :
  StdVector.size (surfaceNormals_ (initialize map e)) = StdVector.size (surfaceNormals_ e).
Proof.
  unfold initialize. cbn [surfaceNormals_]. destruct (_ <? _)%Z; [|reflexivity].
  unfold StdVector.fill_n, StdVector.reserve. cbn [StdVector.size].
  destruct (_ <? _)%nat; reflexivity.
Qed.

Lemma initialize_keeps map e :
  let e0 := initialize map e in
  map_ e0 = map /\ parameters_ e0 = parameters_ e
  /\ binaryImagePatch_ e0 = cv.mkMat (fst (getSize map)) (snd (getSize map)) (fun _ _ => false).
Proof. repeat split; reflexivity. Qed.

(** After the initialisation the storage has room for every cell, and is
    cleared when the vector was shorter than the map. *)
Lemma initialize_buffer map e :
  (StdVector.size (surfaceNormals_ e) <= StdVector.capacity (surfaceNormals_ e))%nat ->
  let v := surfaceNormals_ (initialize map e) in
  (linearMapSize map <= Z.of_nat (StdVector.capacity v))%Z
  /\ ((Z.of_nat (StdVector.size (surfaceNormals_ e)) < linearMapSize map)%Z ->
      forall i, (Z.of_nat i < linearMapSize map)%Z -> StdVector.get v i = Zero3).
Proof.
  intro Hwf. unfold initialize, linearMapSize. cbn [surfaceNormals_].
  set (n := (fst (getSize map) * snd (getSize map))%Z).
  destruct (Z.ltb_spec (Z.of_nat (StdVector.size (surfaceNormals_ e))) n) as [Hlt|Hge].
  - assert (Hcap : (Z.to_nat n
                    <= StdVector.capacity
                         (StdVector.reserve uninitialized (Z.to_nat n) (surfaceNormals_ e)))%nat).
    { unfold StdVector.reserve, StdVector.capacity in *.
      destruct (Nat.ltb_spec (length (StdVector.storage (surfaceNormals_ e))) (Z.to_nat n)).
      - cbn. rewrite length_app, length_firstn, repeat_length. lia.
      - lia. }
    set (v1 := StdVector.reserve uninitialized (Z.to_nat n) (surfaceNormals_ e)) in *.
    unfold StdVector.fill_n, StdVector.capacity, StdVector.get in *. cbn.
    rewrite Nat.min_l by assumption. split.
    + rewrite length_app, repeat_length, length_skipn. lia.
    + intros _ i Hi. rewrite app_nth1 by (rewrite repeat_length; lia).
      apply nth_repeat_lt. lia.
  - split; [lia|]. intro; lia.
Qed.

(** The normal [computeNormalAndErrorForWindow] returns. *)
Lemma computeNormalAndErrorForWindow_normal e windowData :
  let n := col0 (eigenvectors (computeDirect (windowCovariance e windowData))) in
  let v := fst (computeNormalAndErrorForWindow e windowData) in
  v = UnitZ \/ v = n \/ v = vneg n.
Proof.
  cbv zeta. unfold computeNormalAndErrorForWindow, windowCovariance.
  destruct (gatherWindow e windowData) as [[nPoints sum] sumSquared].
  destruct (_ <? 3)%Z; [left; reflexivity|].
  unfold normalAndErrorFromCovariance.
  destruct (_ <? _)%float; [|left; reflexivity].
  destruct (_ <? 0)%float; cbn [fst]; right; [right|left]; reflexivity.
Qed.


(** C3 (as amended). For a cell of finite height whose whole window lies
    inside the raster, the scan writes the normal computed from its window
    into the buffer and the outcome of the planarity test into the mask.  A
    cell whose window runs outside the raster is not visited: its slot of
    the buffer stays as the initialisation left it and its mask entry stays
    unset. *)
Theorem slidingWindowScan_cells
        (map : GridMap) (e : SlidingWindowPlaneExtractor) (row col : Z) :
  linearIndexOfCells map ->
  (StdVector.size (surfaceNormals_ e) <= StdVector.capacity (surfaceNormals_ e))%nat ->
  cellOfMap map row col ->
  isfinite (elevationData map row col) = true ->
  let e0 := initialize map e in
  let e1 := slidingWindowScan e0 in
  let result := computeNormalAndErrorForWindow e0 (windowOf e0 (row, col)) in
  (windowInsideMap map (kernel_size (parameters_ e)) row col ->
   StdVector.get (surfaceNormals_ e1) (getLinearIndex map row col) = fst result
   /\ cv.at_ (binaryImagePatch_ e1) row col = isLocallyPlanar e0 (fst result) (snd result))
  /\ (~ windowInsideMap map (kernel_size (parameters_ e)) row col ->
      StdVector.get (surfaceNormals_ e1) (getLinearIndex map row col)
      = StdVector.get (surfaceNormals_ e0) (getLinearIndex map row col)
      /\ cv.at_ (binaryImagePatch_ e1) row col = false).
Proof.
  intros Hlin Hwf Hcell Hfinite e0 e1 result.
  destruct (initialize_buffer map e Hwf) as [Hcap _].
  assert (Hscan := scan_cells
                     (SlidingWindowIterator.indices (map_ e0) (kernel_size (parameters_ e0)))
                     e0).
  cbv zeta in Hscan. change (map_ e0) with map in Hscan.
  change (parameters_ e0) with (parameters_ e) in Hscan.
  specialize (Hscan (fun index Hin =>
                       proj1 (proj1 (In_indices map _ (fst index) (snd index))
                                    (eq_ind _ (fun i => In i _) Hin _
                                            (surjective_pairing index))))
                    Hlin Hcap row col Hcell).
  rewrite Hfinite in Hscan. destruct Hscan as [Hm Hn].
  subst e1 result. unfold slidingWindowScan.
  change (map_ e0) with map. change (parameters_ e0) with (parameters_ e).
  rewrite Hm, Hn. cbn [andb]. rewrite andb_true_r.
  split; intro Hin.
  - replace (visited _ row col) with true; [split; reflexivity|].
    symmetry. apply visited_In, In_indices. split; assumption.
  - replace (visited _ row col) with false; [split; reflexivity|].
    symmetry. apply not_true_is_false. intro Hv.
    apply visited_In, In_indices in Hv. apply Hin, Hv.
Qed.

(** The loop over the regions does not touch the buffer. *)
Lemma computePlaneParametersForLabel_normals label e :
  surfaceNormals_ (computePlaneParametersForLabel label e) = surfaceNormals_ e.
Proof.
  unfold computePlaneParametersForLabel.
  destruct (collectLabel label e) as [[[numPoints sum] sumSquared] pointsWithNormal].
  destruct (_ || _); [reflexivity|].
  destruct (_ && _).
  - unfold refineLabelWithRansac. cbv zeta.
    set (pts := reorderedPoints (detectPlanes pointsWithNormal)).
    change (resetUnassigned pts) with (relabelPoints pts 0).
    destruct (relabelPoints_keeps pts 0
                (getUnassignedPointIndices (detectPlanes pointsWithNormal))
                (snd (fold_left (processPlane label pts)
                                (getDetectedPlanes (detectPlanes pointsWithNormal)) (true, e))))
      as (_ & _ & _ & _ & -> & _).
    apply planeLoop_invariant.
  - apply emitPlane_keeps.
Qed.

Lemma runExtraction_normals map e :
  surfaceNormals_ (runExtraction map e) = surfaceNormals_ (slidingWindowScan (initialize map e)).
Proof.
  unfold runExtraction, extractPlaneParametersFromLabeledImage, processLabels.
  transitivity (surfaceNormals_ (runSegmentation (runSlidingWindowDetector (initialize map e)))).
  - apply (fold_left_invariant
             (fun e' => surfaceNormals_ e' =
                        surfaceNormals_ (runSegmentation
                                           (runSlidingWindowDetector (initialize map e)))));
      [reflexivity|].
    intros e' label _ <-. apply computePlaneParametersForLabel_normals.
  - destruct (runSegmentation_keeps (runSlidingWindowDetector (initialize map e)))
      as (_ & _ & _ & _ & -> & _).
    apply runSlidingWindowDetector_keeps.
Qed.

Lemma runExtraction_size map e :
  StdVector.size (surfaceNormals_ (runExtraction map e)) = StdVector.size (surfaceNormals_ e).
Proof.
  rewrite runExtraction_normals. unfold slidingWindowScan.
  destruct (scan_keeps
              (SlidingWindowIterator.indices (map_ (initialize map e))
                                             (kernel_size (parameters_ (initialize map e))))
              (initialize map e)) as (_ & _ & _ & -> & _).
  apply initialize_size.
Qed.

(** C9 (as amended). In a run whose initialisation clears the buffer (the
    size of the vector is below the number of cells of the raster): at every
    moment of the scan, every entry of the buffer among the first
    [rows * cols] is the zero vector (0,0,0), which the initialisation puts
    there, or a normal the detector has written: (0,0,1), or the first
    eigenvector of the covariance of a window, as the solver returns it or
    negated.  The stages after the scan leave the buffer as it is, and the
    slot of a cell the detector does not write (its window runs outside the
    raster, or its height is not finite) holds (0,0,0). *)
Theorem surfaceNormals_entries (map : GridMap) (e : SlidingWindowPlaneExtractor) :
  (StdVector.size (surfaceNormals_ e) <= StdVector.capacity (surfaceNormals_ e))%nat ->
  (Z.of_nat (StdVector.size (surfaceNormals_ e)) < linearMapSize map)%Z ->
  let e0 := initialize map e in
  let indices := SlidingWindowIterator.indices map (kernel_size (parameters_ e)) in
  (forall (k i : nat),
      (Z.of_nat i < linearMapSize map)%Z ->
      let v := StdVector.get (surfaceNormals_ (fold_left detectAt (firstn k indices) e0)) i in
      v = Zero3 \/ writtenNormal e0 v)
  /\ surfaceNormals_ (runExtraction map e) = surfaceNormals_ (slidingWindowScan e0)
  /\ (linearIndexOfCells map ->
      forall row col,
        cellOfMap map row col ->
        ~ windowInsideMap map (kernel_size (parameters_ e)) row col
        \/ isfinite (elevationData map row col) = false ->
        StdVector.get (surfaceNormals_ (runExtraction map e)) (getLinearIndex map row col)
        = Zero3).
Proof.
  intros Hwf Hshort e0 indices.
  destruct (initialize_buffer map e Hwf) as [Hcap Hzero]. fold e0 in Hcap, Hzero.
  assert (Hclear : forall i, (Z.of_nat i < linearMapSize map)%Z ->
                             StdVector.get (surfaceNormals_ e0) i = Zero3).
  { intros i Hi. apply Hzero; assumption. }
  split; [|split].
  - intros k i Hi. cbv zeta.
    apply (fold_left_invariant
             (fun e' =>
                (parameters_ e' = parameters_ e0 /\ map_ e' = map_ e0
                 /\ segmentedPlanesMap_ e' = segmentedPlanesMap_ e0)
                /\ (StdVector.get (surfaceNormals_ e') i = Zero3
                    \/ writtenNormal e0 (StdVector.get (surfaceNormals_ e') i)))).
    + split; [repeat split; reflexivity|]. left. apply Hclear, Hi.
    + intros e' index Hin [(Kp & Km & Ks) Hshape].
      destruct (detectAt_keeps e' index) as (Ds & Dp & Dm & _).
      split; [repeat split; congruence|].
      destruct (detectAt_effect e' index) as [_ En]. cbv zeta in En. rewrite En.
      destruct (_ && _)%bool; [|exact Hshape].
      right. rewrite (windowOf_same e0 e' index Kp Km),
               (computeNormalAndErrorForWindow_same e0 e' _ Kp Ks).
      destruct (computeNormalAndErrorForWindow_normal e0 (windowOf e0 index))
        as [H|H]; [left; exact H|].
      right. exists index. split; [|exact H].
      apply In_firstn in Hin. exact Hin.
  - apply runExtraction_normals.
  - intros Hlin row col Hcell Hnot. rewrite runExtraction_normals.
    assert (Hscan := scan_cells
                       (SlidingWindowIterator.indices (map_ e0) (kernel_size (parameters_ e0)))
                       e0).
    cbv zeta in Hscan. change (map_ e0) with map in Hscan.
    change (parameters_ e0) with (parameters_ e) in Hscan.
    specialize (Hscan (fun index Hin =>
                         proj1 (proj1 (In_indices map _ (fst index) (snd index))
                                      (eq_ind _ (fun i => In i _) Hin _
                                              (surjective_pairing index))))
                      Hlin Hcap row col Hcell).
    destruct Hscan as [_ Hn]. unfold slidingWindowScan. fold e0.
    change (map_ e0) with map. change (parameters_ e0) with (parameters_ e).
    rewrite Hn.
    assert (Hoff : visited (SlidingWindowIterator.indices map (kernel_size (parameters_ e)))
                           row col
                   && isfinite (elevationData map row col) = false).
    { destruct Hnot as [Hout| ->]; [|apply andb_false_r].
      apply andb_false_intro1, not_true_is_false. intro Hv.
      apply visited_In, In_indices in Hv. apply Hout, Hv. }
    rewrite Hoff. apply Hclear.
    destruct (Hlin row col Hcell) as [Hb _]. exact Hb.
Qed.

End ScanProperties.

(** ** Background stability *)

Section BackgroundProperties.

Context {ext : External}.

Lemma sameFrame_refl e : sameFrame e e.
Proof. repeat split; reflexivity. Qed.

Lemma sameFrame_trans e1 e2 e3 : sameFrame e1 e2 -> sameFrame e2 e3 -> sameFrame e1 e3.
Proof.
  intros (A1 & A2 & A3 & A4 & A5 & A6) (B1 & B2 & B3 & B4 & B5 & B6).
  repeat split; congruence.
Qed.

Lemma sameFrame_relabel e point newLabel : sameFrame e (relabel e point newLabel).
Proof. repeat split; reflexivity. Qed.

Lemma sameFrame_relabelPoints pointsWithNormal newLabel indices e :
  sameFrame e (relabelPoints pointsWithNormal newLabel indices e).
Proof.
  unfold relabelPoints.
  apply (fold_left_invariant (sameFrame e)); [apply sameFrame_refl|].
  intros e' index _ H. eapply sameFrame_trans; [exact H|apply sameFrame_relabel].
Qed.

Lemma sameFrame_nextLabel reuseLabel label e : sameFrame e (snd (nextLabel reuseLabel label e)).
Proof. destruct reuseLabel; repeat split; reflexivity. Qed.

Lemma sameFrame_emitPlane newLabel numPoints sum sumSquared e :
  sameFrame e (emitPlane newLabel numPoints sum sumSquared e).
Proof. unfold emitPlane. destruct (_ <? _)%float; repeat split; reflexivity. Qed.

Lemma sameFrame_processPlane label pointsWithNormal reuseLabel e plane :
  sameFrame e (snd (processPlane label pointsWithNormal (reuseLabel, e) plane)).
Proof.
  rewrite processPlane_eq. cbn [snd].
  eapply sameFrame_trans; [|apply sameFrame_emitPlane].
  destruct (negb _).
  - eapply sameFrame_trans; [apply sameFrame_nextLabel|apply sameFrame_relabelPoints].
  - apply sameFrame_nextLabel.
Qed.

Lemma backgroundStable_same_raster e e' :
  map_ e' = map_ e ->
  (forall row col, labelAt e' row col = labelAt e row col) ->
  backgroundStable e -> backgroundStable e'.
Proof.
  intros Hm Hl H row col Hcell Hinf. rewrite Hm in Hcell, Hinf. rewrite Hl.
  apply H; assumption.
Qed.

Lemma finitePoint_same_map e e' point :
  map_ e' = map_ e -> finitePoint e point -> finitePoint e' point.
Proof.
  intros Hm (row & col & Hc & Hf & Hcell). exists row, col.
  unfold cellOf in *. rewrite Hm. split; [|split]; assumption.
Qed.

(** A write into the cell of a point of finite height leaves the
    background as it is. *)
Lemma relabel_background e point newLabel :
  finitePoint e point -> backgroundStable e -> backgroundStable (relabel e point newLabel).
Proof.
  intros (r & c & _ & Hfin & Hcell) H row col Hmap Hinf.
  rewrite labelAt_relabel, Hcell. cbn [fst snd].
  destruct (Z.eqb_spec row r); destruct (Z.eqb_spec col c); cbn [andb];
    try (apply H; assumption).
  subst. cbn in Hinf. congruence.
Qed.

Lemma relabelPoints_background pointsWithNormal newLabel indices e :
  (forall index, In index indices -> finitePoint e (fst (pointAt pointsWithNormal index))) ->
  backgroundStable e ->
  backgroundStable (relabelPoints pointsWithNormal newLabel indices e).
Proof.
  intros Hpts Hb. unfold relabelPoints.
  apply (fold_left_invariant (fun e' => map_ e' = map_ e /\ backgroundStable e')).
  - split; [reflexivity|assumption].
  - intros e' index Hin [Hm Hb']. split; [exact Hm|].
    apply relabel_background; [|assumption].
    apply (finitePoint_same_map e e' _ Hm), Hpts, Hin.
Qed.

Lemma processPlane_background label pointsWithNormal reuseLabel e plane :
  (forall index, In index plane -> finitePoint e (fst (pointAt pointsWithNormal index))) ->
  backgroundStable e ->
  backgroundStable (snd (processPlane label pointsWithNormal (reuseLabel, e) plane)).
Proof.
  intros Hpts Hb.
  destruct (processPlane_step label pointsWithNormal reuseLabel e plane)
    as (_ & Hm & _ & _ & _ & _ & Hl).
  destruct (negb _) in Hl.
  - eapply backgroundStable_same_raster; [| exact Hl |].
    + rewrite Hm. symmetry.
      apply (sameFrame_relabelPoints pointsWithNormal _ plane e).
    + apply relabelPoints_background; assumption.
  - eapply backgroundStable_same_raster; [exact Hm | exact Hl | exact Hb].
Qed.


Lemma sameFrame_planeLoop label pointsWithNormal planes reuseLabel e :
  sameFrame e (snd (fold_left (processPlane label pointsWithNormal) planes (reuseLabel, e))).
Proof.
  apply (fold_left_invariant (fun st => sameFrame e (snd st))); [apply sameFrame_refl|].
  intros [reuse e'] plane _ H. cbn [snd] in H.
  eapply sameFrame_trans; [exact H|apply sameFrame_processPlane].
Qed.

Lemma sameFrame_computePlaneParametersForLabel label e :
  sameFrame e (computePlaneParametersForLabel label e).
Proof.
  unfold computePlaneParametersForLabel.
  destruct (collectLabel label e) as [[[numPoints sum] sumSquared] pointsWithNormal].
  destruct (_ || _); [apply sameFrame_refl|].
  destruct (_ && _); [|apply sameFrame_emitPlane].
  unfold refineLabelWithRansac. cbv zeta.
  set (pts := reorderedPoints (detectPlanes pointsWithNormal)).
  change (resetUnassigned pts) with (relabelPoints pts 0).
  eapply sameFrame_trans; [apply sameFrame_planeLoop|apply sameFrame_relabelPoints].
Qed.

Lemma framedOn_sameFrame map e e' : sameFrame e e' -> framedOn map e -> framedOn map e'.
Proof.
  intros (A1 & A2 & A3 & A4 & A5 & A6) (B1 & B2 & B3 & B4 & B5).
  repeat split; congruence.
Qed.

(** The points collected for a label come from cells of the labeled image
    that have a finite height. *)
Lemma collectLabel_points label e p :
  In p (snd (collectLabel label e)) ->
  exists row col,
    (0 <= row < cv.rows (labeledImage (segmentedPlanesMap_ e)))%Z
    /\ (0 <= col < cv.cols (labeledImage (segmentedPlanesMap_ e)))%Z
    /\ isfinite (elevationData (map_ e) row col) = true
    /\ fst p = point3dOf e row col.
Proof.
  unfold collectLabel.
  apply (fold_left_invariant
           (fun acc : Z * Vector3d * Matrix3d * list PointWithNormal =>
              In p (snd acc) ->
              exists row col,
                (0 <= row < cv.rows (labeledImage (segmentedPlanesMap_ e)))%Z
                /\ (0 <= col < cv.cols (labeledImage (segmentedPlanesMap_ e)))%Z
                /\ isfinite (elevationData (map_ e) row col) = true
                /\ fst p = point3dOf e row col)).
  - intros [].
  - intros acc col Hcol Hacc.
    apply fold_left_invariant; [exact Hacc|].
    intros acc' row Hrow Hacc'. unfold collectCell.
    destruct (_ =? label)%Z; [|exact Hacc'].
    destruct (isfinite (elevationData (map_ e) row col)) eqn:Hfin; [|exact Hacc'].
    cbn [snd]. intro Hin. apply in_app_or in Hin. destruct Hin as [Hin|[<-|[]]].
    + apply Hacc', Hin.
    + exists row, col. apply In_range in Hcol, Hrow. repeat split; try lia; assumption.
Qed.

Lemma collectLabel_finitePoints map label e p :
  indexOfPosition map -> framedOn map e ->
  In p (snd (collectLabel label e)) -> finitePoint e (fst p).
Proof.
  intros Hidx (Fm & Fr & Fo & Frows & Fcols) Hin.
  destruct (collectLabel_points label e p Hin) as (row & col & Hr & Hc & Hfin & ->).
  exists row, col.
  assert (Hcell : cellOfMap (map_ e) row col).
  { rewrite Fm. split; [rewrite <- Frows|rewrite <- Fcols]; assumption. }
  split; [exact Hcell|]. split; [exact Hfin|].
  unfold cellOf, point3dOf. cbn [x y]. rewrite Fr, Fo, Fm. apply Hidx.
  rewrite <- Fm. exact Hcell.
Qed.

(** Every raster a refinement goes through has a stable background. *)
Lemma refineLabelWithRansac_background label points e :
  detectorKeepsPoints ->
  (forall p, In p points -> finitePoint e (fst p)) ->
  backgroundStable e ->
  let ransac := detectPlanes points in
  let pts := reorderedPoints ransac in
  let planes := getDetectedPlanes ransac in
  let unassigned := getUnassignedPointIndices ransac in
  (forall j,
      let ej := snd (planeLoopState label pts planes e j) in
      backgroundStable ej
      /\ forall plane newLabel i,
          nth_error planes j = Some plane ->
          backgroundStable (relabelPoints pts newLabel (firstn i plane) ej))
  /\ (forall u,
         backgroundStable
           (relabelPoints pts 0 (firstn u unassigned)
                          (snd (planeLoopState label pts planes e (length planes)))))
  /\ backgroundStable (refineLabelWithRansac label points e).
Proof.
  intros Hdet Hpts Hb ransac pts planes unassigned.
  destruct (Hdet points) as (Hsub & Hplanes & Hun).
  fold ransac in Hsub, Hplanes, Hun. fold pts in Hsub, Hplanes, Hun.
  fold planes in Hplanes. fold unassigned in Hun.
  assert (Hfin : forall index, (index < length pts)%nat ->
                               finitePoint e (fst (pointAt pts index))).
  { intros index Hi. apply Hpts, Hsub. unfold pointAt. apply nth_In, Hi. }
  assert (Hloop : forall l,
             (forall plane, In plane l -> In plane planes) ->
             map_ (snd (fold_left (processPlane label pts) l (true, e))) = map_ e
             /\ backgroundStable (snd (fold_left (processPlane label pts) l (true, e)))).
  { intros l Hl.
    apply (fold_left_invariant
             (fun st => map_ (snd st) = map_ e /\ backgroundStable (snd st)));
      [split; [reflexivity|exact Hb]|].
    intros [reuse e'] plane Hin [Hm Hb']. cbn [snd] in Hm, Hb'.
    split.
    - rewrite <- Hm. apply sameFrame_processPlane.
    - apply processPlane_background; [|exact Hb'].
      intros index Hindex. apply (finitePoint_same_map e e' _ Hm), Hfin.
      eapply Hplanes; [apply Hl, Hin|exact Hindex]. }
  assert (Hstate : forall j,
             map_ (snd (planeLoopState label pts planes e j)) = map_ e
             /\ backgroundStable (snd (planeLoopState label pts planes e j))).
  { intro j. apply Hloop. intros plane. apply In_firstn. }
  split; [|split].
  - intros j ej. destruct (Hstate j) as [Hm Hbj]. fold ej in Hm, Hbj.
    split; [exact Hbj|].
    intros plane newLabel i Hnth. apply relabelPoints_background; [|exact Hbj].
    intros index Hindex. apply (finitePoint_same_map e ej _ Hm), Hfin.
    eapply Hplanes; [eapply nth_error_In, Hnth|eapply In_firstn, Hindex].
  - intro u. destruct (Hstate (length planes)) as [Hm Hbj].
    apply relabelPoints_background; [|exact Hbj].
    intros index Hindex. apply (finitePoint_same_map e _ _ Hm), Hfin, Hun.
    eapply In_firstn, Hindex.
  - unfold refineLabelWithRansac. cbv zeta. fold ransac. fold pts. fold planes.
    fold unassigned. change (resetUnassigned pts) with (relabelPoints pts 0).
    destruct (Hloop planes (fun plane H => H)) as [Hm Hbj].
    apply relabelPoints_background; [|exact Hbj].
    intros index Hindex. apply (finitePoint_same_map e _ _ Hm), Hfin, Hun, Hindex.
Qed.

(** A region leaves the background stable. *)
Lemma computePlaneParametersForLabel_background map label e :
  detectorKeepsPoints -> indexOfPosition map ->
  framedOn map e -> backgroundStable e ->
  framedOn map (computePlaneParametersForLabel label e)
  /\ backgroundStable (computePlaneParametersForLabel label e).
Proof.
  intros Hdet Hidx Hframe Hb.
  split; [eapply framedOn_sameFrame;
          [apply sameFrame_computePlaneParametersForLabel|exact Hframe]|].
  pose proof (collectLabel_finitePoints map label e) as Hpts.
  unfold computePlaneParametersForLabel.
  destruct (collectLabel label e) as [[[numPoints sum] sumSquared] pointsWithNormal].
  cbn [snd] in Hpts.
  destruct (_ || _); [exact Hb|].
  destruct (_ && _).
  - apply refineLabelWithRansac_background; try assumption.
    intros p Hin. apply Hpts; assumption.
  - destruct (emitPlane_keeps label numPoints sum sumSquared e) as (Hi & _ & Hm & _).
    eapply backgroundStable_same_raster; [exact Hm| |exact Hb].
    intros row col. unfold labelAt. rewrite Hi. reflexivity.
Qed.


(** The scan sets the mask at cells of finite height only. *)
Lemma scan_mask_finite indices e0 :
  (forall row col, cv.at_ (binaryImagePatch_ e0) row col = true ->
                   isfinite (elevationData (map_ e0) row col) = true) ->
  forall row col,
    cv.at_ (binaryImagePatch_ (fold_left detectAt indices e0)) row col = true ->
    isfinite (elevationData (map_ e0) row col) = true.
Proof.
  intro H0.
  apply (fold_left_invariant
           (fun e' =>
              map_ e' = map_ e0
              /\ forall row col, cv.at_ (binaryImagePatch_ e') row col = true ->
                                 isfinite (elevationData (map_ e0) row col) = true)).
  - split; [reflexivity|exact H0].
  - intros e' index _ [Hm H]. destruct (detectAt_keeps e' index) as (_ & _ & Dm & _).
    split; [congruence|].
    intros row col. destruct (detectAt_effect e' index) as [Em _]. cbv zeta in Em.
    rewrite Em, Hm.
    destruct (Z.eqb_spec row (fst index)); destruct (Z.eqb_spec col (snd index));
      cbn [andb]; try apply H.
    subst. intro Ht. apply andb_true_iff in Ht. apply Ht.
Qed.

(** The state the loop over the regions starts from. *)
Lemma segmentation_background map e :
  erodeShrinks -> componentsWithinMask ->
  let e1 := runSegmentation (runSlidingWindowDetector (initialize map e)) in
  framedOn map e1 /\ backgroundStable e1.
Proof.
  intros Herode Hcc e1. subst e1.
  set (e0 := initialize map e).
  pose proof (scan_keeps (SlidingWindowIterator.indices (map_ e0) (kernel_size (parameters_ e0)))
                         e0) as Hk.
  cbv zeta in Hk. fold (slidingWindowScan e0) in Hk.
  destruct Hk as (Ks & _ & Km & _ & _ & Krows & Kcols).
  change (cv.rows (binaryImagePatch_ e0)) with (fst (getSize map)) in Krows.
  change (cv.cols (binaryImagePatch_ e0)) with (snd (getSize map)) in Kcols.
  pose proof (scan_mask_finite
                (SlidingWindowIterator.indices (map_ e0) (kernel_size (parameters_ e0))) e0)
    as Hmask.
  fold (slidingWindowScan e0) in Hmask.
  assert (Hmask' : forall row col,
             cv.at_ (binaryImagePatch_ (slidingWindowScan e0)) row col = true ->
             isfinite (elevationData map row col) = true).
  { apply Hmask. intros row col H. discriminate H. }
  clear Hmask.
  assert (Hdet : segmentedPlanesMap_ (runSlidingWindowDetector e0) = segmentedPlanesMap_ e0
                 /\ map_ (runSlidingWindowDetector e0) = map
                 /\ cv.rows (binaryImagePatch_ (runSlidingWindowDetector e0)) = fst (getSize map)
                 /\ cv.cols (binaryImagePatch_ (runSlidingWindowDetector e0)) = snd (getSize map)
                 /\ forall row col,
                     cellOfMap map row col ->
                     cv.at_ (binaryImagePatch_ (runSlidingWindowDetector e0)) row col = true ->
                     isfinite (elevationData map row col) = true).
  { unfold runSlidingWindowDetector. cbv zeta.
    destruct (Z.ltb_spec 0 (planarity_erosion (parameters_ (slidingWindowScan e0)))).
    - destruct (Herode (binaryImagePatch_ (slidingWindowScan e0))
                       (2 * planarity_erosion (parameters_ (slidingWindowScan e0)) + 1)%Z)
        as (Er & Ec & Es); [lia|].
      unfold with_binaryImagePatch. cbn [segmentedPlanesMap_ map_ binaryImagePatch_].
      rewrite Er, Ec, Krows, Kcols.
      repeat split; try assumption; try reflexivity.
      intros row col Hcell Ht. apply Hmask', Es; [|exact Ht].
      unfold cv.inside. rewrite Krows, Kcols. exact Hcell.
    - rewrite Krows, Kcols. repeat split; try assumption; try reflexivity.
      intros row col _. apply Hmask'. }
  destruct Hdet as (Ds & Dm & Drows & Dcols & Dmask).
  unfold runSegmentation.
  destruct (Hcc (binaryImagePatch_ (runSlidingWindowDetector e0))
                (connectivity (parameters_ (runSlidingWindowDetector e0))))
    as (Crows & Ccols & Czero).
  destruct (connectedComponents _ _) as [numberOfLabel labeled]. cbn [snd] in *.
  split.
  - unfold framedOn. cbn. rewrite Ds, Dm, Crows, Ccols, Drows, Dcols.
    repeat split; reflexivity.
  - intros row col Hcell Hinf. unfold labelAt. cbn. cbn in Hinf, Hcell.
    rewrite Dm in Hinf, Hcell.
    apply Czero; [unfold cv.inside; rewrite Drows, Dcols; exact Hcell|].
    apply not_true_is_false. intro Ht. apply Dmask in Ht; [congruence|exact Hcell].
Qed.

(** The invariant holds after any number of regions. *)
Lemma processLabels_background map labels e :
  detectorKeepsPoints -> indexOfPosition map ->
  framedOn map e -> backgroundStable e ->
  framedOn map (processLabels labels e) /\ backgroundStable (processLabels labels e).
Proof.
  intros Hdet Hidx Hf Hb. unfold processLabels.
  apply (fold_left_invariant (fun e' => framedOn map e' /\ backgroundStable e'));
    [split; assumption|].
  intros e' label _ [Hf' Hb']. apply computePlaneParametersForLabel_background; assumption.
Qed.

(** C7. With an erosion that only removes cells, connected components that
    label nothing outside the mask, a detector that hands back the points
    it was given, and a [getIndex] that finds the cell of a position: in
    the raster segmentation produces, in the raster after any number of
    regions, in every raster a refinement goes through (after any number of
    planes, of points of a plane, of unassigned points), and in the raster
    of the result, every cell of the map whose height is not finite has
    label 0. *)
Theorem background_stability (map : GridMap) (e : SlidingWindowPlaneExtractor) :
  erodeShrinks -> componentsWithinMask -> detectorKeepsPoints -> indexOfPosition map ->
  let e1 := runSegmentation (runSlidingWindowDetector (initialize map e)) in
  let labels := labelsUpTo (currentHighestLabel e1) in
  backgroundStable e1
  /\ (forall k,
         let ek := processLabels (firstn k labels) e1 in
         backgroundStable ek
         /\ forall label,
             let ransac := detectPlanes (snd (collectLabel label ek)) in
             let pts := reorderedPoints ransac in
             let planes := getDetectedPlanes ransac in
             let unassigned := getUnassignedPointIndices ransac in
             (forall j,
                 let ej := snd (planeLoopState label pts planes ek j) in
                 backgroundStable ej
                 /\ forall plane newLabel i,
                     nth_error planes j = Some plane ->
                     backgroundStable (relabelPoints pts newLabel (firstn i plane) ej))
             /\ (forall u,
                    backgroundStable
                      (relabelPoints pts 0 (firstn u unassigned)
                                     (snd (planeLoopState label pts planes ek (length planes))))))
  /\ backgroundStable (runExtraction map e).
Proof.
  intros Herode Hcc Hdet Hidx e1 labels.
  destruct (segmentation_background map e Herode Hcc) as [Hf1 Hb1]. fold e1 in Hf1, Hb1.
  split; [exact Hb1|]. split.
  - intros k ek.
    destruct (processLabels_background map (firstn k labels) e1 Hdet Hidx Hf1 Hb1)
      as [Hfk Hbk].
    fold ek in Hfk, Hbk. split; [exact Hbk|].
    intros label ransac pts planes unassigned.
    destruct (refineLabelWithRansac_background
                label (snd (collectLabel label ek)) ek Hdet
                (fun p Hin => collectLabel_finitePoints map label ek p Hidx Hfk Hin) Hbk)
      as (Hplanes & Hun & _).
    split; [exact Hplanes|exact Hun].
  - unfold runExtraction, extractPlaneParametersFromLabeledImage. fold e1.
    apply (processLabels_background map _ e1 Hdet Hidx Hf1 Hb1).
Qed.

End BackgroundProperties.

(** ** The properties on concrete inputs *)

Section OnExamples.

Import Examples.

(** The collaborators of the examples meet what the properties ask. *)

Lemma crossErode_shrinks detector : erodeShrinks (ext := external detector).
Proof.
  intros img erosionSize Hsize. split; [reflexivity|]. split; [reflexivity|].
  intros row col [Hr Hc] H. cbn in H.
  rewrite forallb_forall in H.
  specialize (H (Z.quot (erosionSize - 1) 2)).
  assert (Hin : In (Z.quot (erosionSize - 1) 2) (range erosionSize)).
  { apply In_range. split.
    - apply Z.quot_pos; lia.
    - apply Z.quot_lt_upper_bound; lia. }
  apply H in Hin. apply andb_true_iff in Hin. destruct Hin as [Hin _].
  replace (row + Z.quot (erosionSize - 1) 2 - Z.quot (erosionSize - 1) 2)%Z with row in Hin
    by lia.
  apply orb_true_iff in Hin. destruct Hin as [Hout|Hin]; [|exact Hin].
  apply negb_true_iff in Hout.
  replace ((0 <=? row)%Z) with true in Hout by (symmetry; apply Z.leb_le; lia).
  replace ((row <? cv.rows img)%Z) with true in Hout by (symmetry; apply Z.ltb_lt; lia).
  replace ((0 <=? col)%Z) with true in Hout by (symmetry; apply Z.leb_le; lia).
  replace ((col <? cv.cols img)%Z) with true in Hout by (symmetry; apply Z.ltb_lt; lia).
  discriminate Hout.
Qed.

Lemma singleComponent_within_mask detector : componentsWithinMask (ext := external detector).
Proof.
  intros img connectivity. split; [reflexivity|]. split; [reflexivity|].
  intros row col _ H. cbn. rewrite H. reflexivity.
Qed.

Lemma claimThirds_keeps_points : detectorKeepsPoints (ext := external claimThirds).
Proof.
  intro points. cbv zeta. change (detectPlanes points) with (claimThirds points).
  unfold claimThirds. cbn [reorderedPoints getDetectedPlanes getUnassignedPointIndices].
  pose proof (Nat.Div0.mul_div_le (length points) 3) as Hk.
  set (k := Nat.div (length points) 3) in *.
  split; [intros p H; exact H|]. split.
  - intros plane index [<-|[<-|[]]] Hin; apply in_seq in Hin; lia.
  - intros index Hin. apply in_seq in Hin. lia.
Qed.

Lemma claimAll_keeps_points : detectorKeepsPoints (ext := external claimAll).
Proof.
  intro points. cbn. split; [intros p H; exact H|]. split.
  - intros plane index [<-|[]] Hin. apply in_seq in Hin. lia.
  - intros index [].
Qed.

Lemma cells_of_3x3 (rows : list (list double)) row col :
  cellOfMap (gridMap 3 3 rows) row col ->
  In (row, col) [(0, 0); (0, 1); (0, 2); (1, 0); (1, 1); (1, 2); (2, 0); (2, 1); (2, 2)]%Z.
Proof.
  intros [Hr Hc]. cbn in Hr, Hc.
  assert (Hrow : (row = 0 \/ row = 1 \/ row = 2)%Z) by lia.
  assert (Hcol : (col = 0 \/ col = 1 \/ col = 2)%Z) by lia.
  destruct Hrow as [->|[->| ->]], Hcol as [->|[->| ->]]; cbn; tauto.
Qed.

Lemma indexOfPosition_3x3 (rows : list (list double)) : indexOfPosition (gridMap 3 3 rows).
Proof.
  intros row col Hcell. apply cells_of_3x3 in Hcell.
  repeat (destruct Hcell as [Heq|Hcell]; [injection Heq as <- <-; vm_compute; reflexivity|]).
  destruct Hcell.
Qed.

Lemma columnMajor_cells detector (rows cols : nat) (heights : list (list double)) :
  linearIndexOfCells (ext := external detector)
                     (gridMap (Z.of_nat rows) (Z.of_nat cols) heights).
Proof.
  intros row col [Hr Hc]. cbn in Hr, Hc |- *. unfold columnMajor. cbn [getSize gridMap fst].
  split; [nia|].
  intros row' col' [Hr' Hc'] Heq. cbn in Hr', Hc'.
  assert (Hz : (row' + col' * Z.of_nat rows = row + col * Z.of_nat rows)%Z) by nia.
  assert (col' = col) by nia. subst col'. f_equal. lia.
Qed.


(** A run on the flat 5x5 map: the inner 3x3 cells form region 1, which
    gets the one plane of the result. *)
Example runExtraction_flat5 :
  let e := runExtraction (ext := external claimAll) flat5 (constructed (parameters false)) in
  emittedLabels e = [1%Z] /\ currentHighestLabel e = 1%Z
  /\ List.map (fun r => List.map (labelAt e r) (range 5)) (range 5)
     = [[0; 0; 0; 0; 0]; [0; 1; 1; 1; 0]; [0; 1; 1; 1; 0]; [0; 1; 1; 1; 0]; [0; 0; 0; 0; 0]]%Z.
Proof. vm_compute. repeat split; reflexivity. Qed.

(** A refinement of the flat 3x3 region into two planes of three points
    and three unassigned points. *)
Example refineLabelWithRansac_flatRegion :
  let points := snd (collectLabel (ext := external claimThirds) 1 flatRegion) in
  let e := refineLabelWithRansac (ext := external claimThirds) 1 points flatRegion in
  emittedLabels e = [1%Z; 2%Z] /\ currentHighestLabel e = 2%Z
  /\ List.map (fun r => List.map (labelAt e r) (range 3)) (range 3)
     = [[1; 2; 0]; [1; 2; 0]; [1; 2; 0]]%Z.
Proof. vm_compute. repeat split; reflexivity. Qed.

(** C1, as stated, fails: the region of [wallRegion] fails the global
    planarity test and is refined; the detector finds one plane, through
    its three points; that first plane is vertical, so it does not pass the
    inclination check and no entry is emitted for it. *)
Lemma steep_first_plane_not_emitted :
  snd (collectLabel (ext := external claimAll) 1 wallRegion) = wallPoints
  /\ regionFailsGlobalPlanarity (ext := external claimAll) 1 wallRegion = true
  /\ getDetectedPlanes (detectPlanes (External := external claimAll) wallPoints) = [[0; 1; 2]%nat]
  /\ labelPlaneParameters
       (segmentedPlanesMap_
          (refineLabelWithRansac (ext := external claimAll) 1 wallPoints wallRegion)) = []
  /\ labelPlaneParameters
       (segmentedPlanesMap_
          (computePlaneParametersForLabel (ext := external claimAll) 1 wallRegion)) = [].
Proof. vm_compute. repeat split; reflexivity. Qed.

(** The amended C1 on the refinement of the flat 3x3 region: the detector
    returns the planes of the points 0-2 (the cells of column 0) and 3-5
    (column 1) and leaves the points 6-8 (column 2) unassigned. *)
Lemma refineLabelWithRansac_bookkeeping_on_flatRegion :
  let points := snd (collectLabel (ext := external claimThirds) 1 flatRegion) in
  let e' := refineLabelWithRansac (ext := external claimThirds) 1 points flatRegion in
  (1 <= currentHighestLabel flatRegion)%Z
  /\ emittedLabels e' = [1; 2]%Z
  /\ currentHighestLabel e' = 2%Z
  /\ labelAt e' 0 0 = 1%Z /\ labelAt e' 0 1 = 2%Z /\ labelAt e' 0 2 = 0%Z.
Proof.
  intros points e'.
  assert (H : (1 <= currentHighestLabel flatRegion)%Z) by (vm_compute; discriminate).
  split; [exact H|].
  destruct (refineLabelWithRansac_bookkeeping (ext := external claimThirds)
              1 points flatRegion H) as (Hl & Hh & Hr).
  fold e' in Hl, Hh, Hr.
  set (pts := reorderedPoints (detectPlanes (External := external claimThirds) points)) in *.
  assert (Hplanes : getDetectedPlanes (detectPlanes (External := external claimThirds) points)
                    = [[0; 1; 2]; [3; 4; 5]]%nat) by reflexivity.
  assert (Hunassigned : getUnassignedPointIndices
                          (detectPlanes (External := external claimThirds) points)
                        = [6; 7; 8]%nat) by reflexivity.
  rewrite Hplanes, Hunassigned in Hr. clear Hplanes Hunassigned.
  assert (Hlast : forall j' plane',
             (1 < j')%nat -> nth_error [[0; 1; 2]; [3; 4; 5]]%nat j' = Some plane' -> False).
  { intros [|[|[|j']]] plane' Hlt Hnth; try lia; discriminate Hnth. }
  split; [rewrite Hl; reflexivity|]. split; [rewrite Hh; reflexivity|].
  split; [|split].
  - destruct (Hr 0%Z 0%Z) as (_ & _ & Hkept). rewrite Hkept; [reflexivity| |].
    + intros (index & [<-|[<-|[<-|[]]]] & Heq); vm_compute in Heq; discriminate Heq.
    + intros [|[|[|j]]] plane Hj Hnth (index & Hin & Heq); try lia; try discriminate Hnth.
      injection Hnth as <-. destruct Hin as [<-|[<-|[<-|[]]]]; vm_compute in Heq; discriminate Heq.
  - destruct (Hr 0%Z 1%Z) as (_ & Hnew & _).
    rewrite (Hnew 1%nat [3; 4; 5]%nat); [reflexivity|lia|reflexivity| | |].
    + exists 3%nat. split; [left; reflexivity|vm_compute; reflexivity].
    + intros (index & [<-|[<-|[<-|[]]]] & Heq); vm_compute in Heq; discriminate Heq.
    + intros j' plane' Hlt Hnth _. exact (Hlast j' plane' Hlt Hnth).
  - destruct (Hr 0%Z 2%Z) as (Hzero & _). apply Hzero.
    exists 6%nat. split; [left; reflexivity|vm_compute; reflexivity].
Defined.

(** C2, as stated, fails: with refinement disabled, the region of
    [bumpRegion] fails the global planarity test (its corner lies 1/9 off
    the fitted plane, the threshold is 1/32) and its plane is emitted. *)
Lemma failing_region_emitted_without_refinement :
  include_ransac_refinement (parameters_ bumpRegion) = false
  /\ regionFailsGlobalPlanarity (ext := external claimAll) 1 bumpRegion = true
  /\ emittedLabels (computePlaneParametersForLabel (ext := external claimAll) 1 bumpRegion)
     = [1%Z].
Proof. vm_compute. repeat split; reflexivity. Qed.

(** The amended C2 on [bumpRegion]. *)
Lemma computePlaneParametersForLabel_without_refinement_on_bumpRegion :
  include_ransac_refinement (parameters_ bumpRegion) = false
  /\ currentHighestLabel (computePlaneParametersForLabel (ext := external claimAll) 1 bumpRegion)
     = currentHighestLabel bumpRegion.
Proof.
  split; [reflexivity|].
  apply (computePlaneParametersForLabel_without_refinement (ext := external claimAll)
           1 bumpRegion eq_refl).
Defined.

(** C3, as stated, fails: the corner (0,0) of the flat 5x5 map has a
    finite height, and the window around it, without the cells outside the
    raster, has four samples whose best-fit normal is (0,0,1); the iterator
    does not stop there, the slot of the cell in the buffer holds (0,0,0)
    after the scan, and its mask entry is unset. *)
Lemma corner_cell_not_visited :
  let e0 := initialize (ext := external claimAll) flat5 (constructed (parameters false)) in
  let e1 := slidingWindowScan (ext := external claimAll) e0 in
  isfinite (elevationData flat5 0 0) = true
  /\ fst (computeNormalAndErrorForWindow (ext := external claimAll) e0 (windowOf e0 (0, 0)%Z))
     = UnitZ
  /\ visited (SlidingWindowIterator.indices flat5 3) 0 0 = false
  /\ StdVector.get (surfaceNormals_ e1)
                   (getLinearIndex (External := external claimAll) flat5 0 0) = Zero3
  /\ cv.at_ (binaryImagePatch_ e1) 0 0 = false.
Proof. vm_compute. repeat split; reflexivity. Qed.

(** The amended C3 on the centre of the flat 5x5 map. *)
Lemma slidingWindowScan_cells_on_flat5 :
  let e := constructed (parameters false) in
  let e0 := initialize (ext := external claimAll) flat5 e in
  let e1 := slidingWindowScan (ext := external claimAll) e0 in
  let result := computeNormalAndErrorForWindow (ext := external claimAll) e0
                                               (windowOf e0 (2, 2)%Z) in
  cellOfMap flat5 2 2
  /\ isfinite (elevationData flat5 2 2) = true
  /\ windowInsideMap flat5 3 2 2
  /\ cv.at_ (binaryImagePatch_ e1) 2 2
     = isLocallyPlanar (ext := external claimAll) e0 (fst result) (snd result).
Proof.
  intros e e0 e1 result.
  assert (Hcell : cellOfMap flat5 2 2) by (vm_compute; repeat split; discriminate).
  assert (Hin : windowInsideMap flat5 3 2 2)
    by (vm_compute; repeat split; try discriminate; reflexivity).
  split; [exact Hcell|]. split; [reflexivity|]. split; [exact Hin|].
  apply (proj1 (slidingWindowScan_cells (ext := external claimAll) flat5 e 2 2
                  (columnMajor_cells claimAll 5 5 (repeat (repeat 1%float 5) 5))
                  (le_n 0) Hcell eq_refl)).
  exact Hin.
Defined.

(** C5 on a run over the two plateaus: segmentation leaves one region,
    label 1, of twelve cells at two heights; it fails the global planarity
    test and is refined into two planes, of which the second gets label 2. *)
Lemma highestLabel_monotone_new_labels_fresh_on_plateaus :
  let e := constructed (parameters true) in
  let e1 := runSegmentation (ext := external claimThirds)
              (runSlidingWindowDetector (ext := external claimThirds)
                 (initialize (ext := external claimThirds) plateaus e)) in
  let labels := labelsUpTo (currentHighestLabel e1) in
  let ek := processLabels (ext := external claimThirds) (firstn 0 labels) e1 in
  let ek' := processLabels (ext := external claimThirds) (firstn 1 labels) e1 in
  let ransac := detectPlanes (External := external claimThirds)
                  (snd (collectLabel (ext := external claimThirds) 1 ek)) in
  (Z.of_nat 0 < currentHighestLabel e1)%Z
  /\ regionHasEnoughPoints (ext := external claimThirds) 1 ek = true
  /\ include_ransac_refinement (parameters_ ek) = true
  /\ regionFailsGlobalPlanarity (ext := external claimThirds) 1 ek = true
  /\ (1 < length (getDetectedPlanes ransac))%nat
  /\ (currentHighestLabel e1 <= currentHighestLabel ek <= currentHighestLabel ek')%Z
  /\ (currentHighestLabel ek'
      <= currentHighestLabel (runExtraction (ext := external claimThirds) plateaus e))%Z
  /\ currentHighestLabel ek'
     = (currentHighestLabel ek + Z.of_nat (pred (length (getDetectedPlanes ransac))))%Z
  /\ (currentHighestLabel e1
      < newLabelOfPlane (ext := external claimThirds) 1 (reorderedPoints ransac)
                        (getDetectedPlanes ransac) ek 1)%Z.
Proof.
  intros e e1 labels ek ek' ransac.
  assert (Hk : (Z.of_nat 0 < currentHighestLabel e1)%Z) by (vm_compute; reflexivity).
  assert (Henough : regionHasEnoughPoints (ext := external claimThirds) 1 ek = true)
    by (vm_compute; reflexivity).
  assert (Hinclude : include_ransac_refinement (parameters_ ek) = true)
    by (vm_compute; reflexivity).
  assert (Hfails : regionFailsGlobalPlanarity (ext := external claimThirds) 1 ek = true)
    by (vm_compute; reflexivity).
  assert (Hplanes : (1 < length (getDetectedPlanes ransac))%nat)
    by (vm_compute; repeat constructor).
  split; [exact Hk|]. split; [exact Henough|]. split; [exact Hinclude|].
  split; [exact Hfails|]. split; [exact Hplanes|].
  destruct (highestLabel_monotone_new_labels_fresh (ext := external claimThirds)
              plateaus e 0 Hk) as (_ & Hmono & Hend & _ & _ & _ & _ & Hrefined).
  split; [exact Hmono|]. split; [exact Hend|].
  destruct (Hrefined Henough Hinclude Hfails) as (_ & _ & Hgrowth & Hloop).
  split; [exact Hgrowth|].
  destruct (Hloop 1%nat Hplanes) as (_ & _ & Hnew).
  destruct (Hnew (Nat.lt_0_succ 0)) as (_ & _ & _ & Habove & _).
  exact Habove.
Defined.

(** C6 on a window with two samples of finite height. *)
Lemma computeNormalAndErrorForWindow_two_samples :
  let e := constructed (parameters false) in
  finiteSamples e twoSamples = 2%nat
  /\ computeNormalAndErrorForWindow (ext := external claimAll) e twoSamples
     = (mkVector3d 0 0 1, d_1e30)%float.
Proof.
  intro e. split; [reflexivity|].
  apply (computeNormalAndErrorForWindow_undefined (ext := external claimAll)).
  left. vm_compute. repeat constructor.
Defined.

(** C7 on a run over the 3x3 map whose corner has no height. *)
Lemma background_stability_on_hole3 :
  isfinite (elevationData hole3 0 0) = false
  /\ backgroundStable
       (runExtraction (ext := external claimThirds) hole3 (constructed (parameters true))).
Proof.
  split; [reflexivity|].
  apply (background_stability (ext := external claimThirds)
           hole3 (constructed (parameters true))
           (crossErode_shrinks claimThirds) (singleComponent_within_mask claimThirds)
           claimThirds_keeps_points
           (indexOfPosition_3x3 [[nan; 1; 1]; [1; 1; 1]; [1; 1; 1]]%float)).
Defined.

(** C8: the code departs from the claim.  On an extractor fresh from its
    constructor and the flat 5x5 map, the initialisation reserves storage
    for the 25 cells and fills it, but the size of the vector stays 0, below
    the number of cells; the first cell the scan stops at, (1,1), has a
    finite height, and the detector writes its normal at index 6, past the
    end of a vector of size 0. *)
Theorem surfaceNormals_size_after_initialize :
  let e0 := initialize (ext := external claimAll) flat5 (constructed (parameters false)) in
  linearMapSize flat5 = 25%Z
  /\ StdVector.size (surfaceNormals_ e0) = 0%nat
  /\ StdVector.capacity (surfaceNormals_ e0) = 25%nat
  /\ hd_error (SlidingWindowIterator.indices flat5 3) = Some (1, 1)%Z
  /\ isfinite (elevationData flat5 1 1) = true
  /\ getLinearIndex (External := external claimAll) flat5 1 1 = 6%nat
  /\ StdVector.size
       (surfaceNormals_
          (runExtraction (ext := external claimAll) flat5 (constructed (parameters false))))
     = 0%nat.
Proof. vm_compute. repeat split; reflexivity. Qed.

(** C9, as stated, fails: after a run on the flat 5x5 map the entry of the
    corner (0,0), which the detector does not write, is (0,0,0): not (0,0,1)
    and not of length 1. *)
Lemma unwritten_normal_is_zero :
  let e := runExtraction (ext := external claimAll) flat5 (constructed (parameters false)) in
  StdVector.get (surfaceNormals_ e) 0 = mkVector3d 0%float 0%float 0%float
  /\ isUnitLength (StdVector.get (surfaceNormals_ e) 0) = false
  /\ isUnitLength (mkVector3d 0%float 0%float 1%float) = true.
Proof. vm_compute. repeat split; reflexivity. Qed.

(** The amended C9 on the flat 5x5 map. *)
Lemma surfaceNormals_entries_on_flat5 :
  let e := constructed (parameters false) in
  let e0 := initialize (ext := external claimAll) flat5 e in
  let v := StdVector.get
             (surfaceNormals_
                (fold_left (detectAt (ext := external claimAll))
                           (firstn 9 (SlidingWindowIterator.indices flat5 3)) e0)) 6 in
  (Z.of_nat (StdVector.size (surfaceNormals_ e)) < linearMapSize flat5)%Z
  /\ (Z.of_nat 6 < linearMapSize flat5)%Z
  /\ (v = Zero3 \/ writtenNormal (ext := external claimAll) e0 v).
Proof.
  intros e e0 v.
  assert (Hshort : (Z.of_nat (StdVector.size (surfaceNormals_ e)) < linearMapSize flat5)%Z)
    by (vm_compute; reflexivity).
  assert (Hi : (Z.of_nat 6 < linearMapSize flat5)%Z) by (vm_compute; reflexivity).
  split; [exact Hshort|]. split; [exact Hi|].
  apply (proj1 (surfaceNormals_entries (ext := external claimAll) flat5 e (le_n 0) Hshort)
               9%nat 6%nat Hi).
Defined.

End OnExamples.

(** * Further properties of the code *)

(** ** Floating-point facts *)

Lemma abs_not_negative (a : double) : (abs a <? 0)%float = false.
Proof.
  rewrite FloatAxioms.ltb_spec, FloatAxioms.abs_spec.
  change (Prim2SF 0%float) with (S754_zero false).
  destruct (Prim2SF a) as [s|s| |s m e]; reflexivity.
Qed.

Lemma opp_of_negative (a : double) : (a <? 0)%float = true -> (- a <? 0)%float = false.
Proof.
  rewrite !FloatAxioms.ltb_spec, FloatAxioms.opp_spec.
  change (Prim2SF 0%float) with (S754_zero false).
  destruct (Prim2SF a) as [s|s| |s m e]; try destruct s; cbn; congruence.
Qed.

Lemma SFmul_comm prec emax (a b : spec_float) : SFmul prec emax a b = SFmul prec emax b a.
Proof.
  destruct a as [sa|sa| |sa ma ea], b as [sb|sb| |sb mb eb]; cbn;
    rewrite ?(xorb_comm sa sb); try reflexivity.
  rewrite (Pos.mul_comm ma mb), (Z.add_comm ea eb). reflexivity.
Qed.

(** The product of two doubles does not depend on their order. *)
Lemma mul_comm (a b : double) : (a * b)%float = (b * a)%float.
Proof.
  apply FloatAxioms.Prim2SF_inj. rewrite !FloatAxioms.mul_spec. apply SFmul_comm.
Qed.

Section GeometryProperties.

Context {ext : External}.

(** X1. [angleBetweenNormalizedVectorsInDegrees] calls [std::acos] on the
    dot product of the two vectors, on -1 or on 1, and in every case on a
    value that is neither below -1 nor above 1; the angle it returns is not
    negative. *)
Theorem angleBetweenNormalizedVectorsInDegrees_guarded (v1 v2 : Vector3d) :
  (angleBetweenNormalizedVectorsInDegrees v1 v2 <? 0)%float = false
  /\ exists c,
      angleBetweenNormalizedVectorsInDegrees v1 v2 = abs (acos c * d_180 / M_PI)%float
      /\ (c <? -1)%float = false /\ (1 <? c)%float = false
      /\ (c = dot v1 v2 \/ c = (-1)%float \/ c = 1%float).
Proof.
  unfold angleBetweenNormalizedVectorsInDegrees. split; [apply abs_not_negative|].
  destruct (dot v1 v2 <? -1)%float eqn:Hlow.
  - exists (-1)%float. repeat split; try reflexivity. right; left; reflexivity.
  - destruct (1 <? dot v1 v2)%float eqn:Hhigh.
    + exists 1%float. repeat split; try reflexivity. right; right; reflexivity.
    + exists (dot v1 v2). repeat split; try assumption. left; reflexivity.
Qed.

(** X2. The angle between two vectors does not depend on their order. *)
Theorem angleBetweenNormalizedVectorsInDegrees_symmetric (v1 v2 : Vector3d) :
  angleBetweenNormalizedVectorsInDegrees v1 v2 = angleBetweenNormalizedVectorsInDegrees v2 v1.
Proof.
  unfold angleBetweenNormalizedVectorsInDegrees, dot.
  rewrite (mul_comm (x v1) (x v2)), (mul_comm (y v1) (y v2)), (mul_comm (z v1) (z v2)).
  reflexivity.
Qed.

(** The normal of [normalAndErrorFromCovariance] points up. *)
Lemma normalAndErrorFromCovariance_z numPoint mean sumSquared :
  (z (fst (normalAndErrorFromCovariance numPoint mean sumSquared)) <? 0)%float = false.
Proof.
  unfold normalAndErrorFromCovariance.
  destruct (d_1e_8 <? _)%float; [|reflexivity].
  destruct (z (col0 (eigenvectors (computeDirect _))) <? 0)%float eqn:Hz; cbn [fst].
  - apply opp_of_negative, Hz.
  - exact Hz.
Qed.

(** X3. The normal [normalAndErrorFromCovariance] returns never has a
    negative z, whatever the eigen solver returns: it is (0,0,1), or the
    first eigenvector, negated when its z is negative.  The error it returns
    is 1e30 with the normal (0,0,1) of the degenerate case, and otherwise 0
    or the square root of a positive first eigenvalue. *)
Theorem normalAndErrorFromCovariance_upward
        (numPoint : Z) (mean : Vector3d) (sumSquared : Matrix3d) :
  let solver := computeDirect (covarianceMatrix numPoint mean sumSquared) in
  let result := normalAndErrorFromCovariance numPoint mean sumSquared in
  (z (fst result) <? 0)%float = false
  /\ (result = (UnitZ, d_1e30)
      \/ ((d_1e_8 <? y (eigenvalues solver))%float = true
          /\ (fst result = col0 (eigenvectors solver)
              \/ fst result = vneg (col0 (eigenvectors solver)))
          /\ (snd result = 0%float
              \/ ((0 <? x (eigenvalues solver))%float = true
                  /\ snd result = sqrt (x (eigenvalues solver)))))).
Proof.
  cbv zeta. split; [apply normalAndErrorFromCovariance_z|].
  unfold normalAndErrorFromCovariance.
  destruct (d_1e_8 <? _)%float; [right|left; reflexivity].
  split; [reflexivity|]. cbn [fst snd]. split.
  - destruct (_ <? 0)%float; [right|left]; reflexivity.
  - destruct (0 <? _)%float; [right; split|left]; reflexivity.
Qed.

(** X4. The normal [computeNormalAndErrorForWindow] returns never has a
    negative z, for every window and every eigen solver. *)
Theorem computeNormalAndErrorForWindow_upward
        (e : SlidingWindowPlaneExtractor) (windowData : Z -> Z -> double) :
  (z (fst (computeNormalAndErrorForWindow e windowData)) <? 0)%float = false.
Proof.
  unfold computeNormalAndErrorForWindow.
  destruct (gatherWindow e windowData) as [[nPoints sum] sumSquared].
  destruct (_ <? 3)%Z; [reflexivity|]. apply normalAndErrorFromCovariance_z.
Qed.

(** X5. A window with fewer than 3 samples of finite height, or whose
    covariance has a second eigenvalue of at most 1e-8, is never locally
    planar when the error threshold is at most 1e30: the error 1e30 it is
    given is not below the threshold. *)
Theorem degenerate_window_not_planar
        (e : SlidingWindowPlaneExtractor) (windowData : Z -> Z -> double) :
  (plane_patch_error_threshold (parameters_ e) <=? d_1e30)%float = true ->
  (finiteSamples e windowData < 3)%nat
  \/ (y (eigenvalues (computeDirect (windowCovariance e windowData))) <=? d_1e_8)%float = true ->
  let result := computeNormalAndErrorForWindow e windowData in
  isLocallyPlanar e (fst result) (snd result) = false.
Proof.
  intros Hthr H result.
  assert (Hr : result = (UnitZ, d_1e30)).
  { subst result. unfold computeNormalAndErrorForWindow.
    pose proof (gatherWindow_count e windowData) as Hcount.
    unfold windowCovariance in H.
    destruct (gatherWindow e windowData) as [[nPoints sum] sumSquared]; cbn [fst] in Hcount.
    destruct (Z.ltb_spec nPoints 3) as [Hlt|Hge]; [reflexivity|].
    destruct H as [H|H]; [lia|].
    unfold normalAndErrorFromCovariance. rewrite (leb_not_gt _ _ H). reflexivity. }
  rewrite Hr. unfold isLocallyPlanar. cbn [fst snd].
  rewrite (leb_not_gt _ _ Hthr). reflexivity.
Qed.

(** The loop of [isGloballyPlanar] is the test of every point. *)
Lemma isGloballyPlanar_forallb e normalVectorPlane supportVectorPlane pointsWithNormal :
  isGloballyPlanar e normalVectorPlane supportVectorPlane pointsWithNormal =
  forallb (pointFitsPlane e normalVectorPlane supportVectorPlane) pointsWithNormal.
Proof.
  induction pointsWithNormal as [|p rest IH]; [reflexivity|].
  cbn [isGloballyPlanar forallb]. unfold pointFitsPlane at 1. cbv zeta.
  destruct (_ <? _)%float; [reflexivity|]. cbn [negb andb].
  destruct (_ <? _)%float; [reflexivity|]. exact IH.
Qed.

(** X6. [isGloballyPlanar] returns true exactly when no point lies farther
    from the plane than the distance threshold and no point's normal makes
    a larger angle with the normal of the plane than the angle threshold; a
    region without points passes. *)
Theorem isGloballyPlanar_iff
        (e : SlidingWindowPlaneExtractor) (normalVectorPlane supportVectorPlane : Vector3d)
        (pointsWithNormal : list PointWithNormal) :
  isGloballyPlanar e normalVectorPlane supportVectorPlane pointsWithNormal = true
  <-> forall p,
      In p pointsWithNormal ->
      (global_plane_fit_distance_error_threshold (parameters_ e)
       <? abs (x normalVectorPlane * x (fst p) + y normalVectorPlane * y (fst p)
               + z normalVectorPlane * z (fst p)
               - dot normalVectorPlane supportVectorPlane))%float = false
      /\ (global_plane_fit_angle_error_threshold_degrees (parameters_ e)
          <? angleBetweenNormalizedVectorsInDegrees (snd p) normalVectorPlane)%float = false.
Proof.
  rewrite isGloballyPlanar_forallb, forallb_forall.
  split; intros H p Hin; specialize (H p Hin); unfold pointFitsPlane in *; cbv zeta in *.
  - apply andb_true_iff in H. destruct H as [Hd Ha].
    apply negb_true_iff in Hd, Ha. split; assumption.
  - destruct H as [Hd Ha]. rewrite Hd, Ha. reflexivity.
Qed.

(** X7. The outcome of [isGloballyPlanar] does not depend on the order of
    the points. *)
Theorem isGloballyPlanar_permutation
        (e : SlidingWindowPlaneExtractor) (normalVectorPlane supportVectorPlane : Vector3d)
        (points points' : list PointWithNormal) :
  Permutation points points' ->
  isGloballyPlanar e normalVectorPlane supportVectorPlane points
  = isGloballyPlanar e normalVectorPlane supportVectorPlane points'.
Proof.
  intro Hperm. rewrite !isGloballyPlanar_forallb.
  induction Hperm as [|p l l' _ IH|p q l|l l' l'' _ IH1 _ IH2]; cbn [forallb].
  - reflexivity.
  - rewrite IH. reflexivity.
  - destruct (pointFitsPlane _ _ _ q), (pointFitsPlane _ _ _ p); reflexivity.
  - rewrite IH1. exact IH2.
Qed.

End GeometryProperties.

(** ** The mask and the buffer after the scan *)

Section DetectorProperties.

Context {ext : External}.

(** The mask after the detector has gone through a list of indices. *)
Lemma scan_mask (indices : list Index) e0 row col :
  let result := computeNormalAndErrorForWindow e0 (windowOf e0 (row, col)) in
  cv.at_ (binaryImagePatch_ (fold_left detectAt indices e0)) row col =
  if visited indices row col
  then isfinite (elevationData (map_ e0) row col)
       && isLocallyPlanar e0 (fst result) (snd result)
  else cv.at_ (binaryImagePatch_ e0) row col.
Proof.
  cbv zeta. induction indices as [|index indices IH] using rev_ind; [reflexivity|].
  rewrite fold_left_app. cbn [fold_left].
  destruct (scan_keeps indices e0) as (Ks & Kp & Km & _).
  set (e' := fold_left detectAt indices e0) in *.
  destruct (detectAt_effect e' index) as [Em _]. cbv zeta in Em. rewrite Em. clear Em.
  rewrite Km, (windowOf_same e0 e' index Kp Km),
    (computeNormalAndErrorForWindow_same e0 e' _ Kp Ks), (isLocallyPlanar_same e0 e' _ _ Kp).
  unfold visited. rewrite existsb_app. fold (visited indices row col). cbn [existsb].
  rewrite orb_false_r.
  destruct ((row =? fst index) && (col =? snd index))%Z eqn:Hhere.
  - apply andb_true_iff in Hhere. destruct Hhere as [Hr Hc].
    apply Z.eqb_eq in Hr, Hc. subst row col.
    rewrite !Z.eqb_refl. cbn [andb]. rewrite orb_true_r.
    destruct index as [r c]. reflexivity.
  - rewrite (Z.eqb_sym (fst index)), (Z.eqb_sym (snd index)), Hhere, orb_false_r.
    exact IH.
Qed.

(** X8. After the scan of a run, the mask is set at a position exactly when
    it is a cell of the map whose whole window lies inside the map, whose
    height is finite, and whose window passes the local planarity test;
    everywhere else, in particular on the margin of the raster, it is
    unset. *)
Theorem slidingWindowScan_mask
        (map : GridMap) (e : SlidingWindowPlaneExtractor) (row col : Z) :
  let e0 := initialize map e in
  let result := computeNormalAndErrorForWindow e0 (windowOf e0 (row, col)) in
  cv.at_ (binaryImagePatch_ (slidingWindowScan e0)) row col = true
  <-> cellOfMap map row col
      /\ windowInsideMap map (kernel_size (parameters_ e)) row col
      /\ isfinite (elevationData map row col) = true
      /\ isLocallyPlanar e0 (fst result) (snd result) = true.
Proof.
  intros e0 result. unfold slidingWindowScan.
  rewrite (scan_mask _ e0 row col). fold result.
  change (map_ e0) with map. change (parameters_ e0) with (parameters_ e).
  change (cv.at_ (binaryImagePatch_ e0) row col) with false.
  destruct (visited (SlidingWindowIterator.indices map (kernel_size (parameters_ e))) row col)
           eqn:Hv.
  - apply visited_In, In_indices in Hv. rewrite andb_true_iff. tauto.
  - split; [discriminate|]. intros (Hc & Hw & _).
    assert (Hin : visited (SlidingWindowIterator.indices map (kernel_size (parameters_ e)))
                          row col = true)
      by (apply visited_In, In_indices; split; assumption).
    congruence.
Qed.

(** X9. After [runSlidingWindowDetector], with an erosion that only removes
    cells, a cell of the map that is set in the mask has a finite height, its
    whole window inside the map, and a window that passes the local planarity
    test. *)
Theorem runSlidingWindowDetector_mask
        (map : GridMap) (e : SlidingWindowPlaneExtractor) (row col : Z) :
  erodeShrinks ->
  cellOfMap map row col ->
  let e0 := initialize map e in
  let result := computeNormalAndErrorForWindow e0 (windowOf e0 (row, col)) in
  cv.at_ (binaryImagePatch_ (runSlidingWindowDetector e0)) row col = true ->
  windowInsideMap map (kernel_size (parameters_ e)) row col
  /\ isfinite (elevationData map row col) = true
  /\ isLocallyPlanar e0 (fst result) (snd result) = true.
Proof.
  intros Herode Hcell e0 result Hmask.
  assert (Hscan : cv.at_ (binaryImagePatch_ (slidingWindowScan e0)) row col = true).
  { unfold runSlidingWindowDetector in Hmask. cbv zeta in Hmask.
    destruct (Z.ltb_spec 0 (planarity_erosion (parameters_ (slidingWindowScan e0))));
      [|exact Hmask].
    destruct (Herode (binaryImagePatch_ (slidingWindowScan e0))
                     (2 * planarity_erosion (parameters_ (slidingWindowScan e0)) + 1)%Z)
      as (_ & _ & Es); [lia|].
    apply Es; [|exact Hmask].
    destruct (scan_keeps (SlidingWindowIterator.indices (map_ e0) (kernel_size (parameters_ e0)))
                         e0) as (_ & _ & _ & _ & _ & Krows & Kcols).
    fold (slidingWindowScan e0) in Krows, Kcols.
    unfold cv.inside. rewrite Krows, Kcols. exact Hcell. }
  unfold slidingWindowScan in Hscan. rewrite (scan_mask _ e0 row col) in Hscan.
  fold result in Hscan.
  change (map_ e0) with map in Hscan. change (parameters_ e0) with (parameters_ e) in Hscan.
  change (cv.at_ (binaryImagePatch_ e0) row col) with false in Hscan.
  destruct (visited (SlidingWindowIterator.indices map (kernel_size (parameters_ e))) row col)
           eqn:Hv; [|discriminate].
  apply visited_In, In_indices in Hv. apply andb_true_iff in Hscan. tauto.
Qed.

Lemma no_member_nil {A} (l : list A) : (forall a, ~ In a l) -> l = [].
Proof. destruct l as [|a l]; [reflexivity|]. intro H. destruct (H a). left. reflexivity. Qed.

(** X10. When the window does not fit into the raster (the raster has at
    most twice the margin of the window rows, or columns), the scan examines
    no cell: it leaves the state as the initialisation made it, mask unset
    everywhere. *)
Theorem slidingWindowScan_window_too_large (map : GridMap) (e : SlidingWindowPlaneExtractor) :
  (fst (getSize map) <= 2 * SlidingWindowIterator.windowMargin (kernel_size (parameters_ e))
   \/ snd (getSize map) <= 2 * SlidingWindowIterator.windowMargin (kernel_size (parameters_ e)))%Z ->
  slidingWindowScan (initialize map e) = initialize map e
  /\ forall row col,
      cv.at_ (binaryImagePatch_ (slidingWindowScan (initialize map e))) row col = false.
Proof.
  intro Hsmall.
  assert (Hnil : SlidingWindowIterator.indices map (kernel_size (parameters_ e)) = []).
  { apply no_member_nil. intros [row col] Hin. apply In_indices in Hin.
    destruct Hin as [_ Hw]. unfold windowInsideMap in Hw. cbv zeta in Hw. lia. }
  assert (Hid : slidingWindowScan (initialize map e) = initialize map e).
  { unfold slidingWindowScan.
    change (map_ (initialize map e)) with map.
    change (parameters_ (initialize map e)) with (parameters_ e).
    rewrite Hnil. reflexivity. }
  split; [exact Hid|]. intros row col. rewrite Hid. reflexivity.
Qed.

(** X11. In a run whose initialisation clears the buffer, no entry of the
    buffer among the first [rows * cols] has a negative z when the run
    returns: the entries are (0,0,0) or normals the detector turned
    upwards. *)
Theorem runExtraction_normals_upward (map : GridMap) (e : SlidingWindowPlaneExtractor) (i : nat) :
  (StdVector.size (surfaceNormals_ e) <= StdVector.capacity (surfaceNormals_ e))%nat ->
  (Z.of_nat (StdVector.size (surfaceNormals_ e)) < linearMapSize map)%Z ->
  (Z.of_nat i < linearMapSize map)%Z ->
  (z (StdVector.get (surfaceNormals_ (runExtraction map e)) i) <? 0)%float = false.
Proof.
  intros Hwf Hshort Hi. rewrite runExtraction_normals.
  destruct (initialize_buffer map e Hwf) as [_ Hzero].
  unfold slidingWindowScan.
  apply (fold_left_invariant
           (fun e' => (z (StdVector.get (surfaceNormals_ e') i) <? 0)%float = false)).
  - rewrite (Hzero Hshort i Hi). reflexivity.
  - intros e' index _ H.
    destruct (detectAt_effect e' index) as [_ En]. cbv zeta in En. rewrite En.
    destruct (_ && _)%bool; [|exact H].
    unfold computeNormalAndErrorForWindow.
    destruct (gatherWindow e' (windowOf e' index)) as [[nPoints sum] sumSquared].
    destruct (_ <? 3)%Z; [reflexivity|]. apply normalAndErrorFromCovariance_z.
Qed.

End DetectorProperties.

(** ** Regions, refinement and the labels of a run *)

Section RegionLabelProperties.

Context {ext : External}.

Lemma collectCell_grows label e col acc row p :
  In p (snd acc) -> In p (snd (collectCell label e col acc row)).
Proof.
  intro H. unfold collectCell.
  destruct (_ =? label)%Z; [|exact H]. destruct (isfinite _); [|exact H].
  cbn [snd]. apply in_or_app. left. exact H.
Qed.

Lemma collectRows_grows label e col rows acc p :
  In p (snd acc) -> In p (snd (fold_left (collectCell label e col) rows acc)).
Proof.
  revert acc. induction rows as [|row rows IH]; intros acc H; [exact H|].
  cbn [fold_left]. apply IH, collectCell_grows, H.
Qed.

Lemma collectRows_adds label e col rows acc row :
  In row rows ->
  labelAt e row col = label -> isfinite (elevationData (map_ e) row col) = true ->
  In (cellPoint e row col) (snd (fold_left (collectCell label e col) rows acc)).
Proof.
  intros Hin Hl Hf. revert acc. induction rows as [|r rows IH]; intro acc; [destruct Hin|].
  cbn [fold_left]. destruct Hin as [->|Hin]; [|apply IH, Hin].
  apply collectRows_grows. unfold collectCell. unfold labelAt in Hl.
  rewrite Hl, Z.eqb_refl, Hf. cbn [snd]. apply in_or_app. right. left. reflexivity.
Qed.

Lemma collectCols_grows label e rows cols acc p :
  In p (snd acc) ->
  In p (snd (fold_left (fun acc col => fold_left (collectCell label e col) rows acc) cols acc)).
Proof.
  revert acc. induction cols as [|col cols IH]; intros acc H; [exact H|].
  cbn [fold_left]. apply IH, collectRows_grows, H.
Qed.

Lemma collectLabel_count label e :
  fst (fst (fst (collectLabel label e))) = Z.of_nat (length (snd (collectLabel label e))).
Proof.
  unfold collectLabel.
  apply (fold_left_invariant
           (fun acc : Z * Vector3d * Matrix3d * list PointWithNormal =>
              fst (fst (fst acc)) = Z.of_nat (length (snd acc)))); [reflexivity|].
  intros acc col _ Hacc. apply fold_left_invariant; [exact Hacc|].
  intros acc' row _ Hacc'. unfold collectCell.
  destruct (_ =? label)%Z; [|exact Hacc']. destruct (isfinite _); [|exact Hacc'].
  destruct acc' as [[[n sum] sumSquared] pts]. cbn in Hacc' |- *.
  rewrite length_app. cbn [length]. lia.
Qed.

Lemma collectLabel_carries label e p :
  In p (snd (collectLabel label e)) ->
  exists row col, carries e label row col /\ p = cellPoint e row col.
Proof.
  unfold collectLabel.
  apply (fold_left_invariant
           (fun acc : Z * Vector3d * Matrix3d * list PointWithNormal =>
              In p (snd acc) ->
              exists row col, carries e label row col /\ p = cellPoint e row col)).
  - intros [].
  - intros acc col Hcol Hacc. apply fold_left_invariant; [exact Hacc|].
    intros acc' row Hrow Hacc'. unfold collectCell.
    destruct (Z.eqb_spec (cv.at_ (labeledImage (segmentedPlanesMap_ e)) row col) label)
      as [Hl|]; [|exact Hacc'].
    destruct (isfinite (elevationData (map_ e) row col)) eqn:Hfin; [|exact Hacc'].
    cbn [snd]. intros Hin. apply in_app_or in Hin. destruct Hin as [Hin|[<-|[]]].
    + apply Hacc', Hin.
    + exists row, col. apply In_range in Hcol, Hrow.
      split; [|reflexivity]. split; [split; assumption|]. split; assumption.
Qed.

Lemma collectLabel_complete label e row col :
  carries e label row col -> In (cellPoint e row col) (snd (collectLabel label e)).
Proof.
  intros ([Hr Hc] & Hl & Hf). unfold collectLabel.
  apply In_range in Hc. apply In_range in Hr.
  apply in_split in Hc. destruct Hc as (before & after & Hcols). rewrite Hcols.
  rewrite fold_left_app. cbn [fold_left].
  apply collectCols_grows, collectRows_adds; assumption.
Qed.

(** X12. [computePlaneParametersForLabel] collects exactly the cells of the
    labeled image that carry the label and have a finite height: the count
    is the number of points collected, every point collected is the position
    and the stored normal of such a cell, and every such cell has its point
    in the list. *)
Theorem collectLabel_exact (label : Z) (e : SlidingWindowPlaneExtractor) :
  let numPoints := fst (fst (fst (collectLabel label e))) in
  let pointsWithNormal := snd (collectLabel label e) in
  numPoints = Z.of_nat (length pointsWithNormal)
  /\ (forall p, In p pointsWithNormal ->
                exists row col, carries e label row col /\ p = cellPoint e row col)
  /\ (forall row col, carries e label row col -> In (cellPoint e row col) pointsWithNormal).
Proof.
  cbv zeta. split; [apply collectLabel_count|]. split.
  - apply collectLabel_carries.
  - apply collectLabel_complete.
Qed.

(** The planes of a refinement add at most one entry each. *)
Lemma planeLoop_length label pointsWithNormal (l : list (list nat)) reuseLabel e :
  (length (emittedLabels (snd (fold_left (processPlane label pointsWithNormal) l (reuseLabel, e))))
   <= length (emittedLabels e) + length l)%nat.
Proof.
  revert reuseLabel e. induction l as [|plane l IH]; intros reuseLabel e; cbn [fold_left snd].
  - lia.
  - destruct (processPlane_step label pointsWithNormal reuseLabel e plane)
      as (_ & _ & _ & _ & _ & Sl & _).
    destruct (processPlane label pointsWithNormal (reuseLabel, e) plane) as [reuse e1].
    cbn [snd] in Sl. specialize (IH reuse e1). rewrite Sl, length_app in IH.
    destruct (planeWithinInclination e pointsWithNormal plane); cbn [length] in *; lia.
Qed.

(** X13. A refinement that detects [n] planes raises [highestLabel] by
    [n - 1] (by nothing when it detects none) and appends at most [n]
    entries to [labelPlaneParameters]; the entries already there stay in
    front. *)
Theorem refineLabelWithRansac_counts
        (label : Z) (points : list PointWithNormal) (e : SlidingWindowPlaneExtractor) :
  let planes := getDetectedPlanes (detectPlanes points) in
  let e' := refineLabelWithRansac label points e in
  currentHighestLabel e' = (currentHighestLabel e + Z.of_nat (pred (length planes)))%Z
  /\ (length (emittedLabels e') <= length (emittedLabels e) + length planes)%nat
  /\ exists added, emittedLabels e' = emittedLabels e ++ added.
Proof.
  intros planes e'.
  pose proof (refineLabelWithRansac_labels label points e) as Hlab. cbv zeta in Hlab.
  destruct Hlab as (_ & own & extra & He & _). fold e' in He.
  assert (H : currentHighestLabel e'
              = (currentHighestLabel e + Z.of_nat (pred (length planes)))%Z
              /\ (length (emittedLabels e') <= length (emittedLabels e) + length planes)%nat).
  { subst e'. unfold refineLabelWithRansac. cbv zeta. fold planes.
    set (pts := reorderedPoints (detectPlanes points)).
    change (resetUnassigned pts) with (relabelPoints pts 0).
    destruct (relabelPoints_keeps pts 0 (getUnassignedPointIndices (detectPlanes points))
                (snd (fold_left (processPlane label pts) planes (true, e))))
      as (Rl & Rh & _).
    rewrite Rl, Rh.
    destruct (planeLoop_invariant label pts planes e) as (_ & _ & _ & _ & Hh).
    split; [exact Hh|apply planeLoop_length]. }
  destruct H as [Hh Hlen]. split; [exact Hh|]. split; [exact Hlen|].
  exists (own ++ extra). exact He.
Qed.

(** The loop over the planes leaves a cell alone that is the cell of none of
    the points the planes claim. *)
Lemma planeLoop_elsewhere label pointsWithNormal (l : list (list nat)) reuseLabel e row col :
  (forall plane index, In plane l -> In index plane ->
                       cellOf e (fst (pointAt pointsWithNormal index)) <> (row, col)) ->
  labelAt (snd (fold_left (processPlane label pointsWithNormal) l (reuseLabel, e))) row col
  = labelAt e row col.
Proof.
  revert reuseLabel e. induction l as [|plane l IH]; intros reuseLabel e H; [reflexivity|].
  cbn [fold_left].
  destruct (processPlane_step label pointsWithNormal reuseLabel e plane)
    as (_ & Sm & _ & _ & _ & _ & Si).
  destruct (processPlane label pointsWithNormal (reuseLabel, e) plane) as [reuse e1].
  cbn [snd] in Sm, Si.
  rewrite IH.
  - rewrite Si. destruct (negb _); [|reflexivity].
    apply relabelPoints_elsewhere. intros index Hin. apply (H plane); [left; reflexivity|exact Hin].
  - intros plane' index Hp Hin. rewrite (cellOf_same_map e e1 _ Sm).
    apply (H plane'); [right; exact Hp|exact Hin].
Qed.

(** The cell of a collected point is the cell it was collected from. *)
Lemma cellOf_cellPoint map e label row col :
  indexOfPosition map -> framedOn map e -> carries e label row col ->
  cellOf e (fst (cellPoint e row col)) = (row, col).
Proof.
  intros Hidx (Fm & Fr & Fo & Frows & Fcols) ([Hr Hc] & _ & _).
  unfold cellOf, cellPoint, point3dOf. cbn [fst x y]. rewrite Fr, Fo, Fm. apply Hidx.
  split; [rewrite <- Frows|rewrite <- Fcols]; assumption.
Qed.

(** A refinement writes into cells of the region only. *)
Lemma refineLabelWithRansac_elsewhere map label e row col :
  detectorKeepsPoints -> indexOfPosition map -> framedOn map e ->
  labelAt e row col <> label ->
  labelAt (refineLabelWithRansac label (snd (collectLabel label e)) e) row col
  = labelAt e row col.
Proof.
  intros Hdet Hidx Hframe Hother.
  set (points := snd (collectLabel label e)).
  destruct (Hdet points) as (Hsub & Hplanes & Hun).
  assert (Hcells : forall index,
             (index < length (reorderedPoints (detectPlanes points)))%nat ->
             cellOf e (fst (pointAt (reorderedPoints (detectPlanes points)) index))
             <> (row, col)).
  { intros index Hi Hcell.
    assert (Hin : In (pointAt (reorderedPoints (detectPlanes points)) index) points)
      by (apply Hsub; unfold pointAt; apply nth_In, Hi).
    apply collectLabel_carries in Hin. destruct Hin as (r & c & Hcar & Hp).
    rewrite Hp, (cellOf_cellPoint map e label r c Hidx Hframe Hcar) in Hcell.
    injection Hcell as -> ->. destruct Hcar as (_ & Hl & _). exact (Hother Hl). }
  unfold refineLabelWithRansac. cbv zeta.
  set (pts := reorderedPoints (detectPlanes points)) in *.
  change (resetUnassigned pts) with (relabelPoints pts 0).
  destruct (planeLoop_invariant label pts (getDetectedPlanes (detectPlanes points)) e)
    as (Hm & _).
  rewrite relabelPoints_elsewhere.
  - apply planeLoop_elsewhere. intros plane index Hp Hin.
    apply Hcells. eapply Hplanes; eassumption.
  - intros index Hin. rewrite (cellOf_same_map e _ _ Hm). apply Hcells, Hun, Hin.
Qed.

(** X14. A region never touches the cells of another one: with a detector
    that hands back the points it was given and a [getIndex] that finds the
    cell of a position, [computePlaneParametersForLabel] leaves the label of
    every position that does not carry the label of the region as it is. *)
Theorem computePlaneParametersForLabel_other_cells
        (map : GridMap) (label : Z) (e : SlidingWindowPlaneExtractor) (row col : Z) :
  detectorKeepsPoints -> indexOfPosition map -> framedOn map e ->
  labelAt e row col <> label ->
  labelAt (computePlaneParametersForLabel label e) row col = labelAt e row col.
Proof.
  intros Hdet Hidx Hframe Hother.
  pose proof (refineLabelWithRansac_elsewhere map label e row col Hdet Hidx Hframe Hother)
    as Href.
  unfold computePlaneParametersForLabel.
  destruct (collectLabel label e) as [[[numPoints sum] sumSquared] pointsWithNormal].
  cbn [snd] in Href.
  destruct (_ || _); [reflexivity|].
  destruct (_ && _); [exact Href|].
  destruct (emitPlane_keeps label numPoints sum sumSquared e) as (Hi & _).
  unfold labelAt. rewrite Hi. reflexivity.
Qed.


(** ** Whole runs *)

(** X15. Every label of an entry of [labelPlaneParameters] is at most the
    [highestLabel] the run leaves: no plane is filed under a label the
    counter has not reached. *)
Theorem runExtraction_labels_bounded (map : GridMap) (e : SlidingWindowPlaneExtractor) :
  Forall (fun entry => (fst entry <= highestLabel (segmentedPlanesMap_ (runExtraction map e)))%Z)
         (labelPlaneParameters (segmentedPlanesMap_ (runExtraction map e))).
Proof.
  unfold runExtraction.
  destruct (extract_runInvariant _ (no_planes_before_loop map e)) as (_ & Hn0 & H).
  unfold emittedLabels in H. rewrite Forall_map in H.
  eapply Forall_impl; [|exact H]. cbv beta. unfold currentHighestLabel in *.
  intros entry [H1 H2]. lia.
Qed.

Lemma labelsUpTo_nil n : (n <= 0)%Z -> labelsUpTo n = [].
Proof.
  intro H. unfold labelsUpTo, range.
  replace (Z.to_nat n) with 0%nat by lia. reflexivity.
Qed.

(** X16. When connected components finds the background only (it returns at
    most 1 label), the loop over the regions does nothing: the run ends in
    the state segmentation leaves, without planes. *)
Theorem runExtraction_no_region (map : GridMap) (e : SlidingWindowPlaneExtractor) :
  let e1 := runSegmentation (runSlidingWindowDetector (initialize map e)) in
  (fst (connectedComponents (binaryImagePatch_ (runSlidingWindowDetector (initialize map e)))
                            (connectivity (parameters_ e))) <= 1)%Z ->
  runExtraction map e = e1
  /\ labelPlaneParameters (segmentedPlanesMap_ (runExtraction map e)) = [].
Proof.
  intros e1 Hcc.
  assert (Hh : (currentHighestLabel e1 <= 0)%Z).
  { subst e1. unfold runSegmentation.
    destruct (runSlidingWindowDetector_keeps (initialize map e)) as (_ & Hp & _).
    rewrite Hp. change (parameters_ (initialize map e)) with (parameters_ e).
    destruct (connectedComponents _ _) as [numberOfLabel labeled].
    cbn in Hcc |- *. lia. }
  assert (Hrun : runExtraction map e = e1).
  { unfold runExtraction, extractPlaneParametersFromLabeledImage. fold e1.
    change (highestLabel (segmentedPlanesMap_ e1)) with (currentHighestLabel e1).
    rewrite (labelsUpTo_nil _ Hh). reflexivity. }
  split; [exact Hrun|]. rewrite Hrun.
  pose proof (no_planes_before_loop map e) as Hnil. fold e1 in Hnil.
  unfold emittedLabels in Hnil. apply map_eq_nil in Hnil. exact Hnil.
Qed.

(** A region without refinement: the raster, the counter and the parameters
    stay, and at most the entry of the region is appended. *)
Lemma computePlaneParametersForLabel_plain label e :
  include_ransac_refinement (parameters_ e) = false ->
  let e' := computePlaneParametersForLabel label e in
  labeledImage (segmentedPlanesMap_ e') = labeledImage (segmentedPlanesMap_ e)
  /\ currentHighestLabel e' = currentHighestLabel e
  /\ parameters_ e' = parameters_ e
  /\ (emittedLabels e' = emittedLabels e \/ emittedLabels e' = emittedLabels e ++ [label]).
Proof.
  intro Hoff. unfold computePlaneParametersForLabel.
  destruct (collectLabel label e) as [[[numPoints sum] sumSquared] pointsWithNormal].
  rewrite Hoff. cbn [andb].
  destruct (_ || _); [repeat split; try reflexivity; left; reflexivity|].
  destruct (emitPlane_keeps label numPoints sum sumSquared e) as (Hi & Hh & _ & Hp & _).
  cbv zeta. split; [exact Hi|]. split; [exact Hh|]. split; [exact Hp|].
  rewrite emittedLabels_emitPlane. destruct (withinInclination _ _); [right|left].
  - reflexivity.
  - apply app_nil_r.
Qed.

Lemma increasingAbove_snoc a labels b :
  increasingAbove a labels -> (a < b)%Z -> Forall (fun l => (l < b)%Z) labels ->
  increasingAbove a (labels ++ [b]).
Proof.
  revert a. induction labels as [|c labels IH]; intros a Hinc Hab Hall; cbn.
  - split; [exact Hab|exact I].
  - destruct Hinc as [Hac Hinc]. inversion Hall; subst.
    split; [exact Hac|]. apply IH; assumption.
Qed.

(** X17. With RANSAC refinement disabled, a run leaves the labeled raster
    and [highestLabel] exactly as segmentation produced them, and the labels
    of [labelPlaneParameters] are original labels in strictly increasing
    order. *)
Theorem runExtraction_without_refinement (map : GridMap) (e : SlidingWindowPlaneExtractor) :
  include_ransac_refinement (parameters_ e) = false ->
  let e1 := runSegmentation (runSlidingWindowDetector (initialize map e)) in
  let e' := runExtraction map e in
  labeledImage (segmentedPlanesMap_ e') = labeledImage (segmentedPlanesMap_ e1)
  /\ currentHighestLabel e' = currentHighestLabel e1
  /\ increasingAbove 0 (emittedLabels e')
  /\ Forall (fun l => (l <= currentHighestLabel e1)%Z) (emittedLabels e').
Proof.
  intros Hoff e1 e'.
  assert (Hp1 : parameters_ e1 = parameters_ e).
  { subst e1.
    destruct (runSegmentation_keeps (runSlidingWindowDetector (initialize map e)))
      as (_ & _ & -> & _).
    destruct (runSlidingWindowDetector_keeps (initialize map e)) as (_ & -> & _).
    reflexivity. }
  assert (Hnil : emittedLabels e1 = []) by apply no_planes_before_loop.
  assert (Hk : forall k : nat,
             let ek := processLabels (labelsUpTo (Z.of_nat k)) e1 in
             labeledImage (segmentedPlanesMap_ ek) = labeledImage (segmentedPlanesMap_ e1)
             /\ currentHighestLabel ek = currentHighestLabel e1
             /\ parameters_ ek = parameters_ e1
             /\ increasingAbove 0 (emittedLabels ek)
             /\ Forall (fun l => (l <= Z.of_nat k)%Z) (emittedLabels ek)).
  { induction k as [|k IH].
    - cbn. rewrite Hnil. repeat split; constructor.
    - cbv zeta in IH |- *. rewrite labelsUpTo_succ, processLabels_app.
      destruct IH as (Ii & Ih & Ip & Iinc & Iall).
      set (ek := processLabels (labelsUpTo (Z.of_nat k)) e1) in *.
      change (processLabels [(Z.of_nat k + 1)%Z] ek)
        with (computePlaneParametersForLabel (Z.of_nat k + 1) ek).
      destruct (computePlaneParametersForLabel_plain (Z.of_nat k + 1) ek)
        as (Ci & Ch & Cp & Cl); [congruence|].
      split; [congruence|]. split; [congruence|]. split; [congruence|].
      destruct Cl as [-> | ->].
      + split; [exact Iinc|]. eapply Forall_impl; [|exact Iall]. cbv beta. intros; lia.
      + split.
        * apply increasingAbove_snoc; [exact Iinc|lia|].
          eapply Forall_impl; [|exact Iall]. cbv beta. intros; lia.
        * apply Forall_app. split.
          -- eapply Forall_impl; [|exact Iall]. cbv beta. intros; lia.
          -- constructor; [lia|constructor]. }
  subst e'. unfold runExtraction, extractPlaneParametersFromLabeledImage. fold e1.
  change (highestLabel (segmentedPlanesMap_ e1)) with (currentHighestLabel e1).
  destruct (Z.le_gt_cases (currentHighestLabel e1) 0) as [Hle|Hgt].
  - rewrite (labelsUpTo_nil _ Hle). cbn [processLabels fold_left]. rewrite Hnil.
    repeat split; constructor.
  - specialize (Hk (Z.to_nat (currentHighestLabel e1))). cbv zeta in Hk.
    rewrite Z2Nat.id in Hk by lia.
    destruct Hk as (Ii & Ih & _ & Iinc & Iall). repeat split; assumption.
Qed.


Lemma inside_sameFrame e e' row col :
  sameFrame e e' ->
  cv.inside (labeledImage (segmentedPlanesMap_ e')) row col ->
  cv.inside (labeledImage (segmentedPlanesMap_ e)) row col.
Proof. intros (_ & _ & _ & _ & Hr & Hc). unfold cv.inside. rewrite Hr, Hc. tauto. Qed.

Lemma processPlane_within label pointsWithNormal reuseLabel e plane :
  labelsWithinCounter e ->
  labelsWithinCounter (snd (processPlane label pointsWithNormal (reuseLabel, e) plane)).
Proof.
  intros H row col Hin.
  apply (inside_sameFrame e _ row col (sameFrame_processPlane _ _ _ _ _)) in Hin.
  specialize (H row col Hin).
  destruct (processPlane_step label pointsWithNormal reuseLabel e plane)
    as (_ & _ & _ & _ & Sh & _ & Si).
  destruct (nextLabel_keeps reuseLabel label e) as (_ & _ & _ & _ & _ & _ & Hn).
  rewrite Si, Sh.
  destruct (Z.eqb_spec (fst (nextLabel reuseLabel label e)) label) as [Heq|Hne]; cbn [negb].
  - destruct reuseLabel; lia.
  - destruct (relabelPoints_value pointsWithNormal (fst (nextLabel reuseLabel label e))
                                  plane e row col) as [-> | ->].
    + rewrite Hn. destruct reuseLabel; [congruence|lia].
    + destruct reuseLabel; lia.
Qed.

Lemma computePlaneParametersForLabel_within label e :
  labelsWithinCounter e -> labelsWithinCounter (computePlaneParametersForLabel label e).
Proof.
  intro H. unfold computePlaneParametersForLabel.
  destruct (collectLabel label e) as [[[numPoints sum] sumSquared] pointsWithNormal].
  destruct (_ || _); [exact H|].
  destruct (_ && _).
  - unfold refineLabelWithRansac. cbv zeta.
    set (pts := reorderedPoints (detectPlanes pointsWithNormal)).
    set (planes := getDetectedPlanes (detectPlanes pointsWithNormal)).
    change (resetUnassigned pts) with (relabelPoints pts 0).
    assert (Hloop : labelsWithinCounter (snd (fold_left (processPlane label pts) planes (true, e)))).
    { apply (fold_left_invariant (fun st => labelsWithinCounter (snd st))); [exact H|].
      intros [reuse e'] plane _ H'. apply processPlane_within, H'. }
    set (e1 := snd (fold_left (processPlane label pts) planes (true, e))) in *.
    intros row col Hin.
    apply (inside_sameFrame e1 _ row col (sameFrame_relabelPoints _ _ _ _)) in Hin.
    specialize (Hloop row col Hin).
    destruct (relabelPoints_keeps pts 0 (getUnassignedPointIndices (detectPlanes pointsWithNormal))
                                  e1) as (_ & -> & _).
    destruct (relabelPoints_value pts 0 (getUnassignedPointIndices (detectPlanes pointsWithNormal))
                                  e1 row col) as [-> | ->]; lia.
  - intros row col Hin.
    destruct (emitPlane_keeps label numPoints sum sumSquared e) as (Hi & Hh & _).
    unfold cv.inside in Hin. rewrite Hi in Hin. unfold labelAt. rewrite Hi, Hh.
    apply H, Hin.
Qed.

(** X18. With connected components whose labels are [0 .. numberOfLabel - 1],
    every cell of the labeled raster a run leaves carries a label between 0
    and the [highestLabel] it leaves. *)
Theorem runExtraction_labels_within_counter (map : GridMap) (e : SlidingWindowPlaneExtractor) :
  componentsLabelsInRange ->
  forall row col,
    cv.inside (labeledImage (segmentedPlanesMap_ (runExtraction map e))) row col ->
    (0 <= cv.at_ (labeledImage (segmentedPlanesMap_ (runExtraction map e))) row col
     <= highestLabel (segmentedPlanesMap_ (runExtraction map e)))%Z.
Proof.
  intro Hcc. change (labelsWithinCounter (runExtraction map e)).
  unfold runExtraction, extractPlaneParametersFromLabeledImage, processLabels.
  apply (fold_left_invariant labelsWithinCounter).
  - unfold runSegmentation.
    pose proof (Hcc (binaryImagePatch_ (runSlidingWindowDetector (initialize map e)))
                    (connectivity (parameters_ (runSlidingWindowDetector (initialize map e)))))
      as Hrange.
    destruct (connectedComponents _ _) as [numberOfLabel labeled]. cbn [fst snd] in Hrange.
    intros row col Hin. apply Hrange, Hin.
  - intros e' label _ H. apply computePlaneParametersForLabel_within, H.
Qed.

Lemma relabelPoints_planes pointsWithNormal newLabel indices e :
  labelPlaneParameters (segmentedPlanesMap_ (relabelPoints pointsWithNormal newLabel indices e))
  = labelPlaneParameters (segmentedPlanesMap_ e).
Proof.
  unfold relabelPoints.
  apply (fold_left_invariant
           (fun e' => labelPlaneParameters (segmentedPlanesMap_ e')
                      = labelPlaneParameters (segmentedPlanesMap_ e))); [reflexivity|].
  intros e' index _ H. exact H.
Qed.

(** X19. When the detector finds no plane in a region and reports every
    point unassigned, the region collapses to background: with a [getIndex]
    that finds the cell of a position, every cell that carried the label and
    has a finite height gets label 0; no entry is added and [highestLabel]
    stays. *)
Theorem refineLabelWithRansac_no_plane
        (map : GridMap) (label : Z) (e : SlidingWindowPlaneExtractor) :
  indexOfPosition map -> framedOn map e ->
  let points := snd (collectLabel label e) in
  let ransac := detectPlanes points in
  getDetectedPlanes ransac = [] ->
  (forall p, In p points ->
             exists index, In index (getUnassignedPointIndices ransac)
                           /\ pointAt (reorderedPoints ransac) index = p) ->
  let e' := refineLabelWithRansac label points e in
  labelPlaneParameters (segmentedPlanesMap_ e') = labelPlaneParameters (segmentedPlanesMap_ e)
  /\ currentHighestLabel e' = currentHighestLabel e
  /\ forall row col, carries e label row col -> labelAt e' row col = 0%Z.
Proof.
  intros Hidx Hframe points ransac Hnone Hall e'.
  assert (He' : e' = relabelPoints (reorderedPoints ransac) 0
                                   (getUnassignedPointIndices ransac) e).
  { subst e'. unfold refineLabelWithRansac. cbv zeta. fold ransac. rewrite Hnone. reflexivity. }
  rewrite He'. split; [apply relabelPoints_planes|]. split; [apply relabelPoints_keeps|].
  intros row col Hcar.
  destruct (Hall _ (collectLabel_complete label e row col Hcar)) as (index & Hin & Hp).
  pose proof (relabelPoints_written (reorderedPoints ransac) 0
                                    (getUnassignedPointIndices ransac) e index Hin) as Hw.
  cbv zeta in Hw. rewrite Hp, (cellOf_cellPoint map e label row col Hidx Hframe Hcar) in Hw.
  exact Hw.
Qed.


(** ** Running twice *)

Lemma computeNormalAndErrorForWindow_frame e e' windowData :
  parameters_ e' = parameters_ e ->
  resolution (segmentedPlanesMap_ e') = resolution (segmentedPlanesMap_ e) ->
  computeNormalAndErrorForWindow e' windowData = computeNormalAndErrorForWindow e windowData.
Proof.
  intros Hp Hr. unfold computeNormalAndErrorForWindow, gatherWindow. rewrite Hp, Hr.
  reflexivity.
Qed.

(** The detector does not look at the labeled image. *)
Lemma detectAt_withImage e img index :
  detectAt (withImage e img) index = withImage (detectAt e index) img.
Proof.
  unfold detectAt. cbv zeta.
  change (parameters_ (withImage e img)) with (parameters_ e).
  change (map_ (withImage e img)) with (map_ e).
  destruct (negb _); [reflexivity|].
  rewrite (computeNormalAndErrorForWindow_frame e (withImage e img) _ eq_refl eq_refl).
  destruct (computeNormalAndErrorForWindow e _) as [n mean_error].
  reflexivity.
Qed.

Lemma scan_withImage indices e img :
  fold_left detectAt indices (withImage e img) = withImage (fold_left detectAt indices e) img.
Proof.
  revert e. induction indices as [|index indices IH]; intro e; [reflexivity|].
  cbn [fold_left]. rewrite detectAt_withImage. apply IH.
Qed.

(** The state segmentation leaves does not depend on the labeled image the
    run started with. *)
Lemma segmentation_withImage e img :
  runSegmentation (runSlidingWindowDetector (withImage e img))
  = runSegmentation (runSlidingWindowDetector e).
Proof.
  assert (Hdet : runSlidingWindowDetector (withImage e img)
                 = withImage (runSlidingWindowDetector e) img).
  { unfold runSlidingWindowDetector, slidingWindowScan. cbv zeta.
    change (parameters_ (withImage e img)) with (parameters_ e).
    change (map_ (withImage e img)) with (map_ e).
    rewrite scan_withImage.
    set (e1 := fold_left detectAt _ e).
    change (parameters_ (withImage e1 img)) with (parameters_ e1).
    destruct (_ <? _)%Z; reflexivity. }
  rewrite Hdet. unfold runSegmentation.
  change (binaryImagePatch_ (withImage (runSlidingWindowDetector e) img))
    with (binaryImagePatch_ (runSlidingWindowDetector e)).
  change (parameters_ (withImage (runSlidingWindowDetector e) img))
    with (parameters_ (runSlidingWindowDetector e)).
  destruct (connectedComponents _ _) as [numberOfLabel labeled]. reflexivity.
Qed.

Lemma skipn_update l j value n :
  (j < n)%nat -> skipn n (StdVector.update l j value) = skipn n l.
Proof.
  revert j n. induction l as [|a l IH]; intros j n H.
  - destruct n; reflexivity.
  - destruct n as [|n]; [lia|]. destruct j as [|j]; cbn; [reflexivity|]. apply IH. lia.
Qed.

(** The scan writes below the number of cells only. *)
Lemma scan_tail map e0 :
  map_ e0 = map -> linearIndexOfCells map ->
  skipn (Z.to_nat (linearMapSize map))
        (StdVector.storage (surfaceNormals_ (slidingWindowScan e0)))
  = skipn (Z.to_nat (linearMapSize map)) (StdVector.storage (surfaceNormals_ e0)).
Proof.
  intros Hm Hlin. unfold slidingWindowScan.
  apply (fold_left_invariant
           (fun e' =>
              map_ e' = map_ e0
              /\ skipn (Z.to_nat (linearMapSize map)) (StdVector.storage (surfaceNormals_ e'))
                 = skipn (Z.to_nat (linearMapSize map))
                         (StdVector.storage (surfaceNormals_ e0)))).
  - split; reflexivity.
  - intros e' index Hin [Hm' Hs].
    destruct (detectAt_keeps e' index) as (_ & _ & Dm & _).
    split; [congruence|]. rewrite <- Hs. unfold detectAt. cbv zeta.
    destruct (negb _); [reflexivity|].
    destruct (computeNormalAndErrorForWindow e' _) as [n mean_error]. cbn.
    apply skipn_update.
    rewrite Hm in Hin. destruct index as [row col].
    apply In_indices in Hin. destruct Hin as [Hcell _].
    destruct (Hlin row col Hcell) as [Hb _]. rewrite Hm', Hm. cbn [fst snd].
    unfold linearMapSize. lia.
Qed.

Lemma processLabels_parameters labels e :
  parameters_ (processLabels labels e) = parameters_ e.
Proof.
  unfold processLabels.
  apply (fold_left_invariant (fun e' => parameters_ e' = parameters_ e)); [reflexivity|].
  intros e' label _ <-. apply sameFrame_computePlaneParametersForLabel.
Qed.

(** X20. A second run on the same map gives the state of the first again:
    when the initialisation clears the buffer (the size of the vector is
    below the number of cells) and [getLinearIndex] keeps the slots of the
    cells below that number, nothing of the first run (its normals, its
    labeled raster, its planes, its counter) shows in the second. *)
Theorem runExtraction_twice (map : GridMap) (e : SlidingWindowPlaneExtractor) :
  linearIndexOfCells map ->
  (StdVector.size (surfaceNormals_ e) <= StdVector.capacity (surfaceNormals_ e))%nat ->
  (Z.of_nat (StdVector.size (surfaceNormals_ e)) < linearMapSize map)%Z ->
  runExtraction map (runExtraction map e) = runExtraction map e.
Proof.
  intros Hlin Hwf Hshort.
  set (e2 := runExtraction map e).
  assert (Hp : parameters_ e2 = parameters_ e).
  { subst e2. unfold runExtraction, extractPlaneParametersFromLabeledImage.
    rewrite processLabels_parameters.
    destruct (runSegmentation_keeps (runSlidingWindowDetector (initialize map e)))
      as (_ & _ & -> & _).
    destruct (runSlidingWindowDetector_keeps (initialize map e)) as (_ & -> & _).
    reflexivity. }
  assert (Hn : surfaceNormals_ (initialize map e2) = surfaceNormals_ (initialize map e)).
  { pose proof (runExtraction_size map e) as Hsize. fold e2 in Hsize.
    pose proof (runExtraction_normals map e) as Hbuf. fold e2 in Hbuf.
    pose proof (scan_tail map (initialize map e) eq_refl Hlin) as Htail.
    rewrite <- Hbuf in Htail.
    destruct (initialize_buffer map e Hwf) as [Hcap _].
    assert (Hlen : length (StdVector.storage (surfaceNormals_ e2))
                   = length (StdVector.storage (surfaceNormals_ (initialize map e)))).
    { rewrite Hbuf.
      destruct (scan_keeps (SlidingWindowIterator.indices (map_ (initialize map e))
                                                          (kernel_size (parameters_ (initialize map e))))
                           (initialize map e)) as (_ & _ & _ & _ & Kc & _).
      exact Kc. }
    unfold StdVector.capacity in Hcap.
    set (n := Z.to_nat (linearMapSize map)) in *.
    assert (Hfirst : StdVector.storage (surfaceNormals_ (initialize map e))
                     = repeat Zero3 n
                       ++ skipn n (StdVector.storage (surfaceNormals_ (initialize map e)))).
    { unfold initialize. cbn [surfaceNormals_]. fold (linearMapSize map).
      replace (Z.of_nat (StdVector.size (surfaceNormals_ e)) <? linearMapSize map)%Z with true
        by (symmetry; apply Z.ltb_lt; exact Hshort).
      fold n. unfold StdVector.fill_n. cbn [StdVector.storage].
      set (v1 := StdVector.reserve uninitialized n (surfaceNormals_ e)).
      assert (Hv1 : (n <= StdVector.capacity v1)%nat).
      { subst v1. unfold StdVector.reserve, StdVector.capacity in *.
        destruct (Nat.ltb_spec (length (StdVector.storage (surfaceNormals_ e))) n).
        - cbn. rewrite length_app, length_firstn, repeat_length. lia.
        - lia. }
      rewrite Nat.min_l by exact Hv1.
      rewrite skipn_app, repeat_length, Nat.sub_diag.
      rewrite (skipn_all2 (repeat Zero3 n)) by (rewrite repeat_length; lia).
      reflexivity. }
    unfold initialize at 1. cbn [surfaceNormals_]. fold (linearMapSize map).
    rewrite Hsize.
    replace (Z.of_nat (StdVector.size (surfaceNormals_ e)) <? linearMapSize map)%Z with true
      by (symmetry; apply Z.ltb_lt; exact Hshort).
    fold n.
    assert (Hres : StdVector.reserve uninitialized n (surfaceNormals_ e2) = surfaceNormals_ e2).
    { unfold StdVector.reserve, StdVector.capacity. rewrite Hlen.
      destruct (Nat.ltb_spec (length (StdVector.storage (surfaceNormals_ (initialize map e)))) n);
        [lia|reflexivity]. }
    rewrite Hres. unfold StdVector.fill_n, StdVector.capacity. rewrite Hlen, Htail, Hsize.
    rewrite Nat.min_l by lia. rewrite <- Hfirst.
    rewrite <- (initialize_size map e). destruct (surfaceNormals_ (initialize map e)).
    reflexivity. }
  assert (Hinit : initialize map e2
                  = withImage (initialize map e) (labeledImage (segmentedPlanesMap_ e2))).
  { change (initialize map e2)
      with (mkExtractor (parameters_ e2) map
                        (mkSegmentedPlanesMap [] (labeledImage (segmentedPlanesMap_ e2))
                                              (getResolution map) (getPosition map (0, 0)%Z)
                                              (-1)%Z)
                        (cv.mkMat (fst (getSize map)) (snd (getSize map)) (fun _ _ => false))
                        (surfaceNormals_ (initialize map e2))).
    rewrite Hp, Hn. reflexivity. }
  unfold runExtraction at 1. rewrite Hinit, segmentation_withImage. reflexivity.
Qed.

End RegionLabelProperties.

(** * The further properties on the examples *)

Section FurtherOnExamples.

Import Examples.

Lemma singleComponent_labels_in_range detector :
  componentsLabelsInRange (ext := external detector).
Proof.
  intros img connectivity row col [Hr Hc].
  change (connectedComponents img connectivity) with (singleComponent img connectivity) in *.
  unfold singleComponent in *. cbn [fst snd cv.rows cv.cols cv.at_] in *.
  destruct (cv.at_ img row col) eqn:Hat.
  - assert (Hfg : existsb (fun r => existsb (fun c => cv.at_ img r c) (range (cv.cols img)))
                          (range (cv.rows img)) = true).
    { apply existsb_exists. exists row. split; [apply In_range; exact Hr|].
      apply existsb_exists. exists col. split; [apply In_range; exact Hc|exact Hat]. }
    rewrite Hfg. lia.
  - destruct (existsb _ _); lia.
Qed.

(** [claimNone] reports every point it was given as unassigned. *)
Lemma claimNone_reports_all (points : list PointWithNormal) p :
  In p points ->
  exists index,
    In index (getUnassignedPointIndices (claimNone points))
    /\ pointAt (reorderedPoints (claimNone points)) index = p.
Proof.
  intro Hin. destruct (In_nth points p (Zero3, Zero3) Hin) as (index & Hlt & Hnth).
  exists index. split; [|exact Hnth].
  cbn. apply in_seq. lia.
Qed.

Lemma framedOn_flatRegion : framedOn flat3 flatRegion.
Proof. repeat split. Qed.

Lemma framedOn_wallRegion : framedOn (map_ wallRegion) wallRegion.
Proof. repeat split. Qed.

(** X5 on the window with two samples. *)
Lemma degenerate_window_not_planar_on_twoSamples :
  let e := constructed (parameters false) in
  let result := computeNormalAndErrorForWindow (ext := external claimAll) e twoSamples in
  (finiteSamples e twoSamples < 3)%nat
  /\ isLocallyPlanar (ext := external claimAll) e (fst result) (snd result) = false.
Proof.
  intros e result.
  assert (H : (finiteSamples e twoSamples < 3)%nat) by (vm_compute; repeat constructor).
  split; [exact H|].
  apply (degenerate_window_not_planar (ext := external claimAll) e twoSamples eq_refl).
  left. exact H.
Defined.

(** X7 on the three points of the wall and their reversal. *)
Lemma isGloballyPlanar_permutation_on_wallPoints :
  Permutation wallPoints (rev wallPoints)
  /\ isGloballyPlanar (ext := external claimAll) wallRegion UnitZ Zero3 wallPoints
     = isGloballyPlanar (ext := external claimAll) wallRegion UnitZ Zero3 (rev wallPoints).
Proof.
  split; [apply Permutation_rev|].
  apply (isGloballyPlanar_permutation (ext := external claimAll) wallRegion UnitZ Zero3
           wallPoints (rev wallPoints) (Permutation_rev wallPoints)).
Defined.

(** X9 on the centre of the flat 5x5 map. *)
Lemma runSlidingWindowDetector_mask_on_flat5 :
  let e := constructed (parameters false) in
  let e0 := initialize (ext := external claimAll) flat5 e in
  let result := computeNormalAndErrorForWindow (ext := external claimAll) e0
                                               (windowOf e0 (2, 2)%Z) in
  cellOfMap flat5 2 2
  /\ cv.at_ (binaryImagePatch_ (runSlidingWindowDetector (ext := external claimAll) e0)) 2 2
     = true
  /\ isLocallyPlanar (ext := external claimAll) e0 (fst result) (snd result) = true.
Proof.
  intros e e0 result.
  assert (Hcell : cellOfMap flat5 2 2) by (vm_compute; repeat split; discriminate).
  assert (Hmask : cv.at_ (binaryImagePatch_
                            (runSlidingWindowDetector (ext := external claimAll) e0)) 2 2
                  = true) by (vm_compute; reflexivity).
  split; [exact Hcell|]. split; [exact Hmask|].
  apply (proj2 (proj2 (runSlidingWindowDetector_mask (ext := external claimAll) flat5 e 2 2
                         (crossErode_shrinks claimAll) Hcell Hmask))).
Defined.

(** X10 on the flat 2x2 map and the 3x3 window. *)
Lemma slidingWindowScan_window_too_large_on_flat2 :
  let e := constructed (parameters false) in
  (fst (getSize flat2) <= 2 * SlidingWindowIterator.windowMargin (kernel_size (parameters_ e)))%Z
  /\ slidingWindowScan (ext := external claimAll) (initialize (ext := external claimAll) flat2 e)
     = initialize (ext := external claimAll) flat2 e.
Proof.
  intro e.
  assert (H : (fst (getSize flat2)
               <= 2 * SlidingWindowIterator.windowMargin (kernel_size (parameters_ e)))%Z)
    by (vm_compute; discriminate).
  split; [exact H|].
  apply (proj1 (slidingWindowScan_window_too_large (ext := external claimAll) flat2 e
                  (or_introl H))).
Defined.

(** X11 on the flat 5x5 map, at the slot of the cell (1,1). *)
Lemma runExtraction_normals_upward_on_flat5 :
  let e := constructed (parameters false) in
  (Z.of_nat (StdVector.size (surfaceNormals_ e)) < linearMapSize flat5)%Z
  /\ (z (StdVector.get (surfaceNormals_ (runExtraction (ext := external claimAll) flat5 e)) 6)
      <? 0)%float = false.
Proof.
  intro e.
  assert (Hshort : (Z.of_nat (StdVector.size (surfaceNormals_ e)) < linearMapSize flat5)%Z)
    by (vm_compute; reflexivity).
  split; [exact Hshort|].
  apply (runExtraction_normals_upward (ext := external claimAll) flat5 e 6 (le_n 0) Hshort).
  vm_compute. reflexivity.
Defined.

(** X14 on the region of the wall: the cell (1,0) does not carry label 1. *)
Lemma computePlaneParametersForLabel_other_cells_on_wallRegion :
  labelAt wallRegion 1 0 <> 1%Z
  /\ labelAt (computePlaneParametersForLabel (ext := external claimAll) 1 wallRegion) 1 0
     = labelAt wallRegion 1 0.
Proof.
  assert (H : labelAt wallRegion 1 0 <> 1%Z) by (vm_compute; discriminate).
  split; [exact H|].
  apply (computePlaneParametersForLabel_other_cells (ext := external claimAll)
           (map_ wallRegion) 1 wallRegion 1 0
           claimAll_keeps_points
           (indexOfPosition_3x3 [[0; 5; 0]; [nan; nan; nan]; [nan; nan; nan]]%float)
           framedOn_wallRegion H).
Defined.

(** X16 on the flat 2x2 map, whose mask stays empty. *)
Lemma runExtraction_no_region_on_flat2 :
  let e := constructed (parameters false) in
  let e0 := initialize (ext := external claimAll) flat2 e in
  (fst (connectedComponents (External := external claimAll)
          (binaryImagePatch_ (runSlidingWindowDetector (ext := external claimAll) e0))
          (connectivity (parameters_ e))) <= 1)%Z
  /\ labelPlaneParameters
       (segmentedPlanesMap_ (runExtraction (ext := external claimAll) flat2 e)) = [].
Proof.
  intros e e0.
  assert (H : (fst (connectedComponents (External := external claimAll)
                      (binaryImagePatch_ (runSlidingWindowDetector (ext := external claimAll) e0))
                      (connectivity (parameters_ e))) <= 1)%Z)
    by (vm_compute; discriminate).
  split; [exact H|].
  apply (proj2 (runExtraction_no_region (ext := external claimAll) flat2 e H)).
Defined.

(** X17 on a run without refinement over the flat 5x5 map. *)
Lemma runExtraction_without_refinement_on_flat5 :
  let e := constructed (parameters false) in
  let e1 := runSegmentation (ext := external claimAll)
              (runSlidingWindowDetector (ext := external claimAll)
                 (initialize (ext := external claimAll) flat5 e)) in
  include_ransac_refinement (parameters_ e) = false
  /\ labeledImage (segmentedPlanesMap_ (runExtraction (ext := external claimAll) flat5 e))
     = labeledImage (segmentedPlanesMap_ e1).
Proof.
  intros e e1. split; [reflexivity|].
  apply (proj1 (runExtraction_without_refinement (ext := external claimAll) flat5 e eq_refl)).
Defined.

(** X18 on a run with refinement over the 3x3 map whose corner has no
    height. *)
Lemma runExtraction_labels_within_counter_on_hole3 :
  let e' := runExtraction (ext := external claimThirds) hole3 (constructed (parameters true)) in
  cv.inside (labeledImage (segmentedPlanesMap_ e')) 1 1
  /\ (0 <= cv.at_ (labeledImage (segmentedPlanesMap_ e')) 1 1
      <= highestLabel (segmentedPlanesMap_ e'))%Z.
Proof.
  intro e'.
  assert (H : cv.inside (labeledImage (segmentedPlanesMap_ e')) 1 1)
    by (vm_compute; repeat split; discriminate).
  split; [exact H|].
  apply (runExtraction_labels_within_counter (ext := external claimThirds)
           hole3 (constructed (parameters true))
           (singleComponent_labels_in_range claimThirds) 1 1 H).
Defined.

(** X19 on the flat 3x3 region and a detector that finds no plane. *)
Lemma refineLabelWithRansac_no_plane_on_flatRegion :
  let points := snd (collectLabel (ext := external claimNone) 1 flatRegion) in
  let e' := refineLabelWithRansac (ext := external claimNone) 1 points flatRegion in
  getDetectedPlanes (detectPlanes (External := external claimNone) points) = []
  /\ labelPlaneParameters (segmentedPlanesMap_ e')
     = labelPlaneParameters (segmentedPlanesMap_ flatRegion)
  /\ currentHighestLabel e' = currentHighestLabel flatRegion.
Proof.
  intros points e'. split; [reflexivity|].
  destruct (refineLabelWithRansac_no_plane (ext := external claimNone) flat3 1 flatRegion
              (indexOfPosition_3x3 (repeat (repeat 1%float 3) 3)) framedOn_flatRegion
              eq_refl (claimNone_reports_all points)) as (Hplanes & Hhighest & _).
  split; [exact Hplanes|exact Hhighest].
Defined.

(** X20 on two runs over the flat 5x5 map. *)
Lemma runExtraction_twice_on_flat5 :
  let e := constructed (parameters true) in
  (Z.of_nat (StdVector.size (surfaceNormals_ e)) < linearMapSize flat5)%Z
  /\ runExtraction (ext := external claimThirds) flat5
                   (runExtraction (ext := external claimThirds) flat5 e)
     = runExtraction (ext := external claimThirds) flat5 e.
Proof.
  intro e.
  assert (Hshort : (Z.of_nat (StdVector.size (surfaceNormals_ e)) < linearMapSize flat5)%Z)
    by (vm_compute; reflexivity).
  split; [exact Hshort|].
  apply (runExtraction_twice (ext := external claimThirds) flat5 e
           (columnMajor_cells claimThirds 5 5 (repeat (repeat 1%float 5) 5))
           (le_n 0) Hshort).
Defined.

End FurtherOnExamples.
